(** * Rift positional tracking core: UVC frame assembler and tracked devices

    A shallow embedding of

    - [process_payload] of [drv_oculus_rift/sensor/uvc.c], the routine that
      turns isochronous UVC payloads into complete video frames, with the
      frame release function, the isochronous transfer callback and the
      transfer layout around it, and
    - the Rift tracker: its per-device part ([rift_tracked_device_*], the
      delay-slot table, the device clock extension) and the context's
      exposure and frame bookkeeping ([rift_tracker_add_device],
      [rift_tracker_on_new_exposure], [rift_tracker_frame_start],
      [rift_tracker_frame_changed_exposure], [rift_tracker_frame_release]),

    followed by the properties of the tracker specification that were
    checked against them, and by properties read off the code itself.
    The exponential output filter is not among the sources; the view-pose
    property that depends on what it returns takes it from the
    specification.

    Conventions.  C integers are [Z]; where the C type makes an operation
    wrap, the wrap-around is written out ([u32_mul], [u64_sub], ...).  [int]
    and [unsigned int] are 32 bits wide, as on every platform the driver
    builds for.  An array with a fill count is a list; an array indexed by a
    cursor is a list read with [!!] and written with [<[ _ := _ ]>].
    Pointers into a fixed table are indices into it.  What a routine prints
    or passes to foreign code is returned as a list of events. *)

From Stdlib Require Import ZArith Lia Bool List.
From Stdlib.Strings Require Import Byte.
From stdpp Require Import base list.
Import ListNotations.
Open Scope Z_scope.

(** ** C integer arithmetic *)

Definition wrap32 (z : Z) : Z := z mod 2 ^ 32.
Definition wrap64 (z : Z) : Z := z mod 2 ^ 64.

(** [uint32_t] subtraction and multiplication.  In [a * 1000] with [a] a
    [uint32_t] the constant is converted to [unsigned int] and the product
    is taken modulo [2^32]; a later conversion to [uint64_t] does not bring
    the lost bits back. *)
Definition u32_sub (a b : Z) : Z := wrap32 (a - b).
Definition u32_mul (a b : Z) : Z := wrap32 (a * b).

(** [uint64_t] addition and subtraction. *)
Definition u64_add (a b : Z) : Z := wrap64 (a + b).
Definition u64_sub (a b : Z) : Z := wrap64 (a - b).

Definition is_u32 (z : Z) : Prop := 0 <= z < 2 ^ 32.
Definition is_u64 (z : Z) : Prop := 0 <= z < 2 ^ 64.

(** ** The UVC stream assembler (uvc.c) *)

Definition RIFT_SENSOR_CLOCK_FREQ : Z := 40000000.

(** [ohmd_video_frame]: a pixel buffer of [data_size] bytes and what the
    assembler stamps on it when a camera frame starts. *)
Record ohmd_video_frame := mk_frame {
  data : list byte;
  data_size : Z;
  start_ts : Z;
  pts : Z;
  stride : Z;
  width : Z;
  height : Z
}.

(** [struct rift_sensor_uvc_stream], the part [process_payload] reads and
    writes.  The header that declares it is not part of these sources; its
    sizes and counts are taken to be [int]s, like [payload_len] in
    [process_payload].  [alloced_frames] is the table of the frames allocated at stream
    start; a frame pointer is an index into it.  [free_frames] is the
    free-frame stack, top first: its head is [free_frames[n_free_frames - 1]]
    and its length is [n_free_frames].  [frame_cb] is [true] when the
    callback pointer is not NULL. *)
Record rift_sensor_uvc_stream := mk_stream {
  s_stride : Z;
  s_width : Z;
  s_height : Z;
  frame_size : Z;
  frame_id : Z;
  cur_pts : Z;
  frame_collected : Z;
  skip_frame : bool;
  alloced_frames : list ohmd_video_frame;
  free_frames : list nat;
  cur_frame : option nat;
  frame_cb : bool
}.

(** What [process_payload] prints, and the call of the frame callback. *)
Inductive uvc_event :=
| Log_invalid_header (hlen len : Z)
| Log_frame_error
| Log_pts_changed (collected lost_ms : Z)
| Log_short_frame (collected size : Z)
| Log_no_frame
| Log_overflow (collected payload_len size : Z)
| Frame_cb (frame : nat).

(** The packed 12-byte [uvc_payload_header] at the start of the packet
    buffer: [bHeaderLength] at offset 0, [bmHeaderInfo] at 1,
    [dwPresentationTime] at 2..5, little-endian. *)
Definition byte_at (payload : list byte) (k : nat) : Z :=
  Z.of_N (Byte.to_N (nth k payload x00)).

Definition bHeaderLength (payload : list byte) : Z := byte_at payload 0.
Definition bmHeaderInfo (payload : list byte) : Z := byte_at payload 1.
Definition dwPresentationTime (payload : list byte) : Z :=
  byte_at payload 2 + 2 ^ 8 * byte_at payload 3
  + 2 ^ 16 * byte_at payload 4 + 2 ^ 24 * byte_at payload 5.

(** [h->bmHeaderInfo & mask] converted to [bool]. *)
Definition info_flag (payload : list byte) (mask : Z) : bool :=
  negb (Z.land (bmHeaderInfo payload) mask =? 0).

Definition hdr_frame_id (payload : list byte) : Z := Z.land (bmHeaderInfo payload) 1.
Definition hdr_is_eof (payload : list byte) : bool := info_flag payload 2.
Definition hdr_have_pts (payload : list byte) : bool := info_flag payload 4.
Definition hdr_error (payload : list byte) : bool := info_flag payload 64.

(** [uint32_t pts = (uint32_t)(-1)], overwritten when the header carries
    a presentation time. *)
Definition payload_pts (payload : list byte) : Z :=
  if hdr_have_pts payload then dwPresentationTime payload else 2 ^ 32 - 1.

(** [memcpy (dst + off, src + 12, n)]: defined when the count is not
    negative and both ranges lie inside their buffers. *)
Definition memcpy_body (dst : list byte) (off : Z) (src : list byte) (n : Z)
  : option (list byte) :=
  if (0 <=? off) && (0 <=? n)
     && (off + n <=? Z.of_nat (length dst))
     && (12 + n <=? Z.of_nat (length src))
  then Some (take (Z.to_nat off) dst
             ++ take (Z.to_nat n) (drop 12 src)
             ++ drop (Z.to_nat (off + n)) dst)
  else None.

(** The in-frame presentation-time check: a changed PTS while bytes are
    collected is logged and adopted.  The logged figure is computed in
    [uint32_t] as the source writes it. *)
Definition pts_step (s : rift_sensor_uvc_stream) (payload : list byte)
  : rift_sensor_uvc_stream * list uvc_event :=
  let pts := payload_pts payload in
  if hdr_have_pts payload
     && negb (frame_collected s =? 0) && negb (pts =? cur_pts s)
  then (mk_stream (s_stride s) (s_width s) (s_height s) (frame_size s)
          (frame_id s) pts (frame_collected s) (skip_frame s)
          (alloced_frames s) (free_frames s) (cur_frame s) (frame_cb s),
        [Log_pts_changed (frame_collected s)
           (u32_sub pts (u32_mul (cur_pts s) 1000) / RIFT_SENSOR_CLOCK_FREQ)])
  else (s, []).

(** Taking a frame to capture into: the current one if there is one, else
    the top of the free stack, else none. *)
Definition acquire_frame (s : rift_sensor_uvc_stream) : option nat * list nat :=
  match cur_frame s with
  | Some f => (Some f, free_frames s)
  | None =>
      match free_frames s with
      | f :: rest => (Some f, rest)
      | [] => (None, [])
      end
  end.

(** Stamping the frame a new camera frame is captured into. *)
Definition stamp_frame (s : rift_sensor_uvc_stream) (time pts : Z)
    (fr : ohmd_video_frame) : ohmd_video_frame :=
  mk_frame (data fr) (data_size fr) time pts (s_stride s) (s_width s) (s_height s).

(** The start of a new camera frame (the parity bit differs from the
    stream's).  [time] is the monotonic clock read there.  The [assert] on
    the frame's size ends the run when it fails. *)
Definition new_frame_step (s : rift_sensor_uvc_stream) (time : Z)
    (payload : list byte)
  : option (rift_sensor_uvc_stream * list uvc_event) :=
  let pts := payload_pts payload in
  if hdr_frame_id payload =? frame_id s then Some (s, [])
  else
    let short := if 0 <? frame_collected s
                 then [Log_short_frame (frame_collected s) (frame_size s)]
                 else [] in
    let '(cur, free) := acquire_frame s in
    match cur with
    | None =>
        Some (mk_stream (s_stride s) (s_width s) (s_height s) (frame_size s)
                (hdr_frame_id payload) pts 0 true
                (alloced_frames s) free None (frame_cb s),
              short ++ [Log_no_frame])
    | Some f =>
        match alloced_frames s !! f with
        | Some fr =>
            if data_size fr =? frame_size s
            then Some (mk_stream (s_stride s) (s_width s) (s_height s)
                         (frame_size s) (hdr_frame_id payload) pts 0 false
                         (<[f := stamp_frame s time pts fr]> (alloced_frames s))
                         free (Some f) (frame_cb s),
                       short)
            else None
        | None => None
        end
    end.

(** Appending the payload body to the current frame, delivering the frame
    when it is complete, and the end-of-frame reset. *)
Definition append_step (s : rift_sensor_uvc_stream) (payload : list byte)
    (payload_len : Z)
  : option (rift_sensor_uvc_stream * list uvc_event) :=
  match cur_frame s with
  | None => Some (s, [])
  | Some f =>
      if skip_frame s then Some (s, [])
      else if frame_size s <? frame_collected s + payload_len
      then Some (s, [Log_overflow (frame_collected s) payload_len (frame_size s)])
      else
        match alloced_frames s !! f with
        | None => None
        | Some fr =>
            match memcpy_body (data fr) (frame_collected s) payload payload_len with
            | None => None
            | Some d =>
                let frames := <[f := mk_frame d (data_size fr) (start_ts fr)
                                       (pts fr) (stride fr) (width fr)
                                       (height fr)]> (alloced_frames s) in
                let collected := frame_collected s + payload_len in
                let full := collected =? frame_size s in
                let delivered := full && frame_cb s in
                let collected' :=
                  if full then 0
                  else if hdr_is_eof payload then 0 else collected in
                Some (mk_stream (s_stride s) (s_width s) (s_height s)
                        (frame_size s) (frame_id s) (cur_pts s) collected'
                        (skip_frame s) frames (free_frames s)
                        (if delivered then None else Some f) (frame_cb s),
                      if delivered then [Frame_cb f] else [])
            end
        end
  end.

(** The two steps before the append: the presentation-time check and the
    start of a new camera frame. *)
Definition frame_start_steps (s : rift_sensor_uvc_stream) (time : Z)
    (payload : list byte)
  : option (rift_sensor_uvc_stream * list uvc_event) :=
  let '(s1, ev1) := pts_step s payload in
  match new_frame_step s1 time payload with
  | None => None
  | Some (s2, ev2) => Some (s2, ev1 ++ ev2)
  end.

(** [process_payload (stream, payload, len)].  [payload] is the packet
    buffer and [len] the number of bytes received into it.  The result is
    [None] where the C run has no defined outcome (a failed [assert], a
    [memcpy] outside its buffers). *)
Definition process_payload (s : rift_sensor_uvc_stream) (time : Z)
    (payload : list byte) (len : Z)
  : option (rift_sensor_uvc_stream * list uvc_event) :=
  if len =? 0 then Some (s, [])
  else if len =? 12 then Some (s, [])
  else if negb (bHeaderLength payload =? 12)
  then Some (s, [Log_invalid_header (bHeaderLength payload) (wrap32 len)])
  else
    let payload_len := len - bHeaderLength payload in
    if hdr_error payload then Some (s, [Log_frame_error])
    else
      match frame_start_steps s time payload with
      | None => None
      | Some (s2, ev2) =>
          match append_step s2 payload payload_len with
          | None => None
          | Some (s3, ev3) => Some (s3, ev2 ++ ev3)
          end
      end.

(** The packet loop of [iso_transfer_cb]: every isochronous packet of a
    completed transfer goes through [process_payload].  A packet is given
    with the clock value its run would read and its received length. *)
Fixpoint process_packets (s : rift_sensor_uvc_stream)
    (packets : list (Z * list byte * Z))
  : option (rift_sensor_uvc_stream * list uvc_event) :=
  match packets with
  | [] => Some (s, [])
  | (time, payload, len) :: rest =>
      match process_payload s time payload len with
      | None => None
      | Some (s1, ev1) =>
          match process_packets s1 rest with
          | None => None
          | Some (s2, ev2) => Some (s2, ev1 ++ ev2)
          end
      end
  end.

(** [rift_sensor_uvc_stream_start (stream, min_frames, frame_cb, ...)], as
    far as the assembler's state goes: the current frame is cleared, the
    callback is stored, and [min_frames] zeroed frames are allocated and put
    on the free stack.  The byte count, the parity and the skip flag are
    not touched. *)
Definition rift_sensor_uvc_stream_start (s : rift_sensor_uvc_stream)
    (min_frames : nat) (cb : bool) : rift_sensor_uvc_stream :=
  mk_stream (s_stride s) (s_width s) (s_height s) (frame_size s)
    (frame_id s) (cur_pts s) (frame_collected s) (skip_frame s)
    (replicate min_frames
       (mk_frame (replicate (Z.to_nat (frame_size s)) x00) (frame_size s)
          0 0 0 0 0))
    (reverse (seq 0 min_frames)) None cb.

(** ** Tracked devices (rift-tracker.c) *)

Definition RIFT_MAX_PENDING_IMU_OBSERVATIONS : Z := 1000.
Definition NUM_POSE_DELAY_SLOTS : Z := 3.
Definition POSE_LOST_THRESHOLD : Z := 500.
Definition POSE_LOST_ORIENT_THRESHOLD : Z := 100.

(** The two match flags of a pose score that the tracker tests. *)
Inductive rift_pose_match_flag :=
| RIFT_POSE_MATCH_POSITION
| RIFT_POSE_MATCH_ORIENT.

(** The C [float] type and its literal [0.0].  The tracker moves floats
    around and zeroes them; it never computes with them itself. *)
Class FloatType := {
  scalar : Type;
  scalar_zero : scalar
}.

Section Geometry.
Context {FT : FloatType}.

Record vec3f := mk_vec3f { vx : scalar; vy : scalar; vz : scalar }.
Record quatf := mk_quatf { qx : scalar; qy : scalar; qz : scalar; qw : scalar }.
Record posef := mk_posef { pos : vec3f; orient : quatf }.

Definition vec3f_zero : vec3f := mk_vec3f scalar_zero scalar_zero scalar_zero.

(** The calls the tracker makes on a device's Kalman filter
    ([rift_kalman_6dof_*]).  The filter itself is foreign code: its state is
    represented by the calls made on it so far, newest first. *)
Inductive ukf_call :=
| Ukf_imu_update (time : Z) (ang_vel accel mag : vec3f)
| Ukf_get_pose_at (time : Z)
| Ukf_pose_update (time : Z) (pose : posef) (slot : Z)
| Ukf_position_update (time : Z) (position : vec3f) (slot : Z)
| Ukf_prepare_delay_slot (time : Z) (slot : Z)
| Ukf_release_delay_slot (slot : Z).

(** What [rift_kalman_6dof_get_pose_at] writes through its out-pointers. *)
Record kalman_estimate := mk_estimate {
  est_pose : posef;
  est_vel : vec3f;
  est_accel : vec3f;
  est_ang_vel : vec3f;
  est_pos_error : vec3f;
  est_rot_error : vec3f
}.

End Geometry.

(** What the tracker uses and this translation unit does not define: the
    pose score with its flag test (the macro [POSE_HAS_FLAGS]), the bound
    [RIFT_MAX_SENSORS], the pose and quaternion helpers of the maths
    library, the exponential output filter and the Kalman filter's pose
    query.  The query is a function of the filter's call history. *)
Class Externals {FT : FloatType} := {
  rift_pose_metrics : Type;
  POSE_HAS_FLAGS : rift_pose_metrics -> rift_pose_match_flag -> bool;
  RIFT_MAX_SENSORS : Z;
  oposef_apply : posef -> posef -> posef;
  oquatf_get_rotated : quatf -> vec3f -> vec3f;
  oquatf_get_rotated_abs : quatf -> vec3f -> vec3f;
  ovec3f_cross : vec3f -> vec3f -> vec3f;
  ovec3f_add : vec3f -> vec3f -> vec3f;
  exp_filter_pose : Type;
  exp_filter_pose_run :
    exp_filter_pose -> Z -> posef -> posef -> exp_filter_pose * posef;
  rift_kalman_6dof_get_pose_at : list ukf_call -> Z -> kalman_estimate
}.

Section Tracker.
Context {FT : FloatType} {EX : Externals}.

Record rift_tracked_device_imu_observation := mk_obs {
  obs_local_ts : Z;
  obs_device_ts : Z;
  obs_dt : scalar;
  obs_ang_vel : vec3f;
  obs_accel : vec3f;
  obs_mag : vec3f
}.

Record rift_tracker_pose_report := mk_report {
  report_used : bool;
  report_pose : posef;
  report_score : rift_pose_metrics
}.

(** [pose_reports] is the array of [RIFT_MAX_SENSORS] reports; the first
    [n_pose_reports] entries are the live ones. *)
Record rift_tracker_pose_delay_slot := mk_slot {
  slot_id : Z;
  valid : bool;
  use_count : Z;
  slot_device_time_ns : Z;
  n_pose_reports : Z;
  pose_reports : list rift_tracker_pose_report;
  n_used_reports : Z
}.

(** [rift_tracked_device_priv] without its lock and debug sinks.
    [pending_imu_observations] holds the [num_pending_imu_observations] live
    entries of the array of that name. *)
Record rift_tracked_device_priv := mk_dev {
  index : Z;
  ukf_fusion : list ukf_call;
  delay_slot_index : Z;
  delay_slots : list rift_tracker_pose_delay_slot;
  device_from_fusion : posef;
  fusion_from_model : posef;
  model_from_fusion : posef;
  last_device_ts : Z;
  device_time_ns : Z;
  last_observed_orient_ts : Z;
  last_observed_pose_ts : Z;
  last_observed_pose : posef;
  last_reported_pose : Z;
  reported_pose : posef;
  model_pose : posef;
  pose_output_filter : exp_filter_pose;
  pending_imu_observations : list rift_tracked_device_imu_observation
}.

Record rift_tracked_device_exposure_info := mk_dev_info {
  di_device_time_ns : Z;
  fusion_slot : Z;
  had_pose_lock : bool;
  capture_pose : posef;
  pos_error : vec3f;
  rot_error : vec3f
}.

Record rift_tracker_exposure_info := mk_exposure_info {
  local_ts : Z;
  hmd_ts : Z;
  count : Z;
  led_pattern_phase : Z;
  n_devices : Z;
  devices : list rift_tracked_device_exposure_info
}.

(** Field updates. *)
Definition set_clock (dev : rift_tracked_device_priv) (last_ts time_ns : Z) :=
  mk_dev (index dev) (ukf_fusion dev) (delay_slot_index dev) (delay_slots dev)
    (device_from_fusion dev) (fusion_from_model dev) (model_from_fusion dev)
    last_ts time_ns (last_observed_orient_ts dev) (last_observed_pose_ts dev)
    (last_observed_pose dev) (last_reported_pose dev) (reported_pose dev)
    (model_pose dev) (pose_output_filter dev) (pending_imu_observations dev).

Definition set_ukf_fusion (dev : rift_tracked_device_priv) (ukf : list ukf_call) :=
  mk_dev (index dev) ukf (delay_slot_index dev) (delay_slots dev)
    (device_from_fusion dev) (fusion_from_model dev) (model_from_fusion dev)
    (last_device_ts dev) (device_time_ns dev) (last_observed_orient_ts dev)
    (last_observed_pose_ts dev) (last_observed_pose dev)
    (last_reported_pose dev) (reported_pose dev) (model_pose dev)
    (pose_output_filter dev) (pending_imu_observations dev).

Definition set_pending (dev : rift_tracked_device_priv)
    (obs : list rift_tracked_device_imu_observation) :=
  mk_dev (index dev) (ukf_fusion dev) (delay_slot_index dev) (delay_slots dev)
    (device_from_fusion dev) (fusion_from_model dev) (model_from_fusion dev)
    (last_device_ts dev) (device_time_ns dev) (last_observed_orient_ts dev)
    (last_observed_pose_ts dev) (last_observed_pose dev)
    (last_reported_pose dev) (reported_pose dev) (model_pose dev)
    (pose_output_filter dev) obs.

Definition set_delay_slot_index (dev : rift_tracked_device_priv) (c : Z) :=
  mk_dev (index dev) (ukf_fusion dev) c (delay_slots dev)
    (device_from_fusion dev) (fusion_from_model dev) (model_from_fusion dev)
    (last_device_ts dev) (device_time_ns dev) (last_observed_orient_ts dev)
    (last_observed_pose_ts dev) (last_observed_pose dev)
    (last_reported_pose dev) (reported_pose dev) (model_pose dev)
    (pose_output_filter dev) (pending_imu_observations dev).

Definition set_delay_slots (dev : rift_tracked_device_priv)
    (slots : list rift_tracker_pose_delay_slot) :=
  mk_dev (index dev) (ukf_fusion dev) (delay_slot_index dev) slots
    (device_from_fusion dev) (fusion_from_model dev) (model_from_fusion dev)
    (last_device_ts dev) (device_time_ns dev) (last_observed_orient_ts dev)
    (last_observed_pose_ts dev) (last_observed_pose dev)
    (last_reported_pose dev) (reported_pose dev) (model_pose dev)
    (pose_output_filter dev) (pending_imu_observations dev).

Definition set_model_pose (dev : rift_tracked_device_priv) (p : posef) :=
  mk_dev (index dev) (ukf_fusion dev) (delay_slot_index dev) (delay_slots dev)
    (device_from_fusion dev) (fusion_from_model dev) (model_from_fusion dev)
    (last_device_ts dev) (device_time_ns dev) (last_observed_orient_ts dev)
    (last_observed_pose_ts dev) (last_observed_pose dev)
    (last_reported_pose dev) (reported_pose dev) p
    (pose_output_filter dev) (pending_imu_observations dev).

Definition set_observed (dev : rift_tracked_device_priv)
    (orient_ts pose_ts : Z) (p : posef) :=
  mk_dev (index dev) (ukf_fusion dev) (delay_slot_index dev) (delay_slots dev)
    (device_from_fusion dev) (fusion_from_model dev) (model_from_fusion dev)
    (last_device_ts dev) (device_time_ns dev) orient_ts pose_ts p
    (last_reported_pose dev) (reported_pose dev) (model_pose dev)
    (pose_output_filter dev) (pending_imu_observations dev).

Definition set_reported (dev : rift_tracked_device_priv)
    (ts : Z) (p : posef) (f : exp_filter_pose) :=
  mk_dev (index dev) (ukf_fusion dev) (delay_slot_index dev) (delay_slots dev)
    (device_from_fusion dev) (fusion_from_model dev) (model_from_fusion dev)
    (last_device_ts dev) (device_time_ns dev) (last_observed_orient_ts dev)
    (last_observed_pose_ts dev) (last_observed_pose dev) ts p (model_pose dev)
    f (pending_imu_observations dev).

Definition set_fusion_slot (di : rift_tracked_device_exposure_info) (k : Z) :=
  mk_dev_info (di_device_time_ns di) k (had_pose_lock di) (capture_pose di)
    (pos_error di) (rot_error di).

Definition set_use (slot : rift_tracker_pose_delay_slot) (v : bool) (c : Z) :=
  mk_slot (slot_id slot) v c (slot_device_time_ns slot) (n_pose_reports slot)
    (pose_reports slot) (n_used_reports slot).

(** [rift_tracked_device_send_imu_debug]: the pending observations go to
    the debug sinks and the count returns to 0. *)
Definition rift_tracked_device_send_imu_debug (dev : rift_tracked_device_priv) :=
  set_pending dev [].

(** The extended device clock after an IMU sample stamped [device_ts]
    (raw 32-bit microseconds). *)
Definition next_device_time_ns (dev : rift_tracked_device_priv) (device_ts : Z) : Z :=
  if device_time_ns dev =? 0 then u32_mul device_ts 1000
  else
    let dt_ns := u32_mul (u32_sub device_ts (last_device_ts dev)) 1000 in
    u64_add (device_time_ns dev) dt_ns.

Definition rift_tracked_device_imu_update (dev : rift_tracked_device_priv)
    (local_ts device_ts : Z) (dt : scalar) (ang_vel accel mag_field : vec3f)
  : rift_tracked_device_priv :=
  let time_ns := next_device_time_ns dev device_ts in
  let dev1 := set_clock dev device_ts time_ns in
  let dev2 := set_ukf_fusion dev1
                (Ukf_imu_update time_ns ang_vel accel mag_field :: ukf_fusion dev1) in
  let obs := mk_obs local_ts time_ns dt ang_vel accel mag_field in
  let dev3 := set_pending dev2 (pending_imu_observations dev2 ++ [obs]) in
  if Z.of_nat (length (pending_imu_observations dev3))
     =? RIFT_MAX_PENDING_IMU_OBSERVATIONS
  then rift_tracked_device_send_imu_debug dev3
  else dev3.

(** The loop of [find_free_delay_slot]: [n] rounds are left, [cursor] is
    [dev->delay_slot_index].  It returns the cursor it leaves behind and the
    slot found. *)
Fixpoint find_free_loop (n : nat) (slots : list rift_tracker_pose_delay_slot)
    (cursor : Z) : Z * option nat :=
  match n with
  | O => (cursor, None)
  | S n' =>
      let slot_no := cursor in
      let cursor' := Z.rem (slot_no + 1) NUM_POSE_DELAY_SLOTS in
      match slots !! Z.to_nat slot_no with
      | Some slot =>
          if use_count slot =? 0 then (cursor', Some (Z.to_nat slot_no))
          else find_free_loop n' slots cursor'
      | None => find_free_loop n' slots cursor'
      end
  end.

Definition find_free_delay_slot (dev : rift_tracked_device_priv)
  : rift_tracked_device_priv * option nat :=
  let '(cursor, found) :=
    find_free_loop (Z.to_nat NUM_POSE_DELAY_SLOTS) (delay_slots dev)
      (delay_slot_index dev) in
  (set_delay_slot_index dev cursor, found).

(** The loop of [reclaim_delay_slot], from slot [i] on. *)
Fixpoint reclaim_loop (n : nat) (i : nat)
    (slots : list rift_tracker_pose_delay_slot) : option nat :=
  match n with
  | O => None
  | S n' =>
      match slots !! i with
      | Some slot =>
          if valid slot && (0 <? n_used_reports slot) then Some i
          else reclaim_loop n' (S i) slots
      | None => reclaim_loop n' (S i) slots
      end
  end.

Definition reclaim_delay_slot (dev : rift_tracked_device_priv) : option nat :=
  reclaim_loop (Z.to_nat NUM_POSE_DELAY_SLOTS) 0 (delay_slots dev).

Definition get_matching_delay_slot (dev : rift_tracked_device_priv)
    (dev_info : rift_tracked_device_exposure_info)
  : option (nat * rift_tracker_pose_delay_slot) :=
  let slot_no := fusion_slot dev_info in
  if (0 <=? slot_no) && (slot_no <? NUM_POSE_DELAY_SLOTS) then
    match delay_slots dev !! Z.to_nat slot_no with
    | Some slot =>
        if valid slot && (slot_device_time_ns slot =? di_device_time_ns dev_info)
        then Some (Z.to_nat slot_no, slot)
        else None
    | None => None
    end
  else None.

(** [rift_tracked_device_get_model_pose_locked]: the device, and the pose
    and the two error vectors written through the out-pointers. *)
Definition rift_tracked_device_get_model_pose_locked (dev : rift_tracked_device_priv)
  : rift_tracked_device_priv * (posef * vec3f * vec3f) :=
  let est := rift_kalman_6dof_get_pose_at (ukf_fusion dev) (device_time_ns dev) in
  let dev1 := set_ukf_fusion dev (Ukf_get_pose_at (device_time_ns dev) :: ukf_fusion dev) in
  let model := oposef_apply (model_from_fusion dev) (est_pose est) in
  let perr := oquatf_get_rotated_abs (orient (model_from_fusion dev)) (est_pos_error est) in
  let rerr := oquatf_get_rotated_abs (orient (model_from_fusion dev)) (est_rot_error est) in
  let p :=
    if u64_sub (device_time_ns dev) (last_observed_pose_ts dev)
       <? POSE_LOST_THRESHOLD * 1000000
    then mk_posef (pos model) (orient model)
    else mk_posef (pos (model_pose dev)) (orient model) in
  (set_model_pose dev1 p, (p, perr, rerr)).

(** The slot as [rift_tracked_device_on_new_exposure] leaves it. *)
Definition stamp_slot (slot : rift_tracker_pose_delay_slot) (time_ns : Z) :=
  mk_slot (slot_id slot) true 0 time_ns 0 (pose_reports slot) 0.

Definition rift_tracked_device_on_new_exposure (dev : rift_tracked_device_priv)
    (dev_info : rift_tracked_device_exposure_info)
  : rift_tracked_device_priv * rift_tracked_device_exposure_info :=
  let '(dev1, found) := find_free_delay_slot dev in
  let time_ns := device_time_ns dev1 in
  let found' := match found with
                | Some k => Some k
                | None => reclaim_delay_slot dev1
                end in
  match found' with
  | Some k =>
      match delay_slots dev1 !! k with
      | Some slot =>
          let dev2 := set_delay_slots dev1
                        (<[k := stamp_slot slot time_ns]> (delay_slots dev1)) in
          let lock := u64_sub (device_time_ns dev2) (last_observed_pose_ts dev2)
                      <? POSE_LOST_THRESHOLD * 1000000 in
          let '(dev3, (cap, perr, rerr)) :=
            rift_tracked_device_get_model_pose_locked dev2 in
          let dev4 := set_ukf_fusion dev3
                        (Ukf_prepare_delay_slot time_ns (slot_id slot)
                           :: ukf_fusion dev3) in
          (dev4, mk_dev_info time_ns (slot_id slot) lock cap perr rerr)
      | None => (dev1, mk_dev_info time_ns (-1) (had_pose_lock dev_info)
                         (capture_pose dev_info) (pos_error dev_info)
                         (rot_error dev_info))
      end
  | None =>
      (dev1, mk_dev_info time_ns (-1) (had_pose_lock dev_info)
               (capture_pose dev_info) (pos_error dev_info) (rot_error dev_info))
  end.

Definition rift_tracked_device_exposure_claim (dev : rift_tracked_device_priv)
    (dev_info : rift_tracked_device_exposure_info)
  : rift_tracked_device_priv * rift_tracked_device_exposure_info :=
  match get_matching_delay_slot dev dev_info with
  | Some (k, slot) =>
      let slot' := set_use slot (valid slot) (use_count slot + 1) in
      (set_delay_slots dev (<[k := slot']> (delay_slots dev)),
       set_fusion_slot dev_info (slot_id slot))
  | None =>
      (dev, if fusion_slot dev_info =? -1 then dev_info
            else set_fusion_slot dev_info (-1))
  end.

Definition rift_tracked_device_exposure_release_locked
    (dev : rift_tracked_device_priv)
    (dev_info : rift_tracked_device_exposure_info)
  : rift_tracked_device_priv * rift_tracked_device_exposure_info :=
  match get_matching_delay_slot dev dev_info with
  | Some (k, slot) =>
      let count1 := if 0 <? use_count slot then use_count slot - 1
                    else use_count slot in
      let dev1 :=
        if count1 =? 0 then
          set_ukf_fusion
            (set_delay_slots dev
               (<[k := set_use slot false count1]> (delay_slots dev)))
            (Ukf_release_delay_slot (slot_id slot) :: ukf_fusion dev)
        else
          set_delay_slots dev
            (<[k := set_use slot (valid slot) count1]> (delay_slots dev)) in
      (dev1, set_fusion_slot dev_info (-1))
  | None => (dev, dev_info)
  end.

(** The position gate of [rift_tracked_device_model_pose_update]: the value
    of [update_position]. *)
Definition position_gate (dev : rift_tracked_device_priv)
    (dev_info : rift_tracked_device_exposure_info)
    (score : rift_pose_metrics) : bool :=
  if had_pose_lock dev_info
     && negb (POSE_HAS_FLAGS score RIFT_POSE_MATCH_POSITION)
     && (di_device_time_ns dev_info <? last_observed_pose_ts dev)
  then false else true.

(** The orientation gate: the value of [update_orientation]. *)
Definition orientation_gate (dev : rift_tracked_device_priv)
    (score : rift_pose_metrics) : bool :=
  if POSE_HAS_FLAGS score RIFT_POSE_MATCH_ORIENT then true
  else if POSE_LOST_ORIENT_THRESHOLD * 1000000
          <? u64_sub (device_time_ns dev) (last_observed_pose_ts dev)
  then true
  else false.

(** Recording a report in a slot, while there is room for it. *)
Definition record_report (slot : rift_tracker_pose_delay_slot)
    (used : bool) (pose : posef) (score : rift_pose_metrics) :=
  if n_pose_reports slot <? RIFT_MAX_SENSORS then
    mk_slot (slot_id slot) (valid slot) (use_count slot)
      (slot_device_time_ns slot) (n_pose_reports slot + 1)
      (<[Z.to_nat (n_pose_reports slot) := mk_report used pose score]>
         (pose_reports slot))
      (if used then n_used_reports slot + 1 else n_used_reports slot)
  else slot.

Definition rift_tracked_device_model_pose_update (dev : rift_tracked_device_priv)
    (local_ts frame_start_local_ts : Z)
    (exposure_info : rift_tracker_exposure_info)
    (score : rift_pose_metrics) (model_pose : posef)
  : rift_tracked_device_priv * bool :=
  let imu_pose := oposef_apply (fusion_from_model dev) model_pose in
  let dev0 := rift_tracked_device_send_imu_debug dev in
  if index dev0 <? n_devices exposure_info then
    match devices exposure_info !! Z.to_nat (index dev0) with
    | Some dev_info =>
        match get_matching_delay_slot dev0 dev_info with
        | Some (k, slot) =>
            let update_position := position_gate dev0 dev_info score in
            let update_orientation := orientation_gate dev0 score in
            let orient_ts :=
              if POSE_HAS_FLAGS score RIFT_POSE_MATCH_ORIENT && update_position
              then device_time_ns dev0
              else last_observed_orient_ts dev0 in
            let dev1 := set_observed dev0 orient_ts (last_observed_pose_ts dev0)
                          (last_observed_pose dev0) in
            let dev2 :=
              if update_position then
                let call :=
                  if update_orientation
                  then Ukf_pose_update (device_time_ns dev1) imu_pose (slot_id slot)
                  else Ukf_position_update (device_time_ns dev1) (pos imu_pose)
                         (slot_id slot) in
                set_observed (set_ukf_fusion dev1 (call :: ukf_fusion dev1))
                  orient_ts (device_time_ns dev1) imu_pose
              else dev1 in
            let slot' := record_report slot update_position imu_pose score in
            (set_delay_slots dev2 (<[k := slot']> (delay_slots dev2)),
             update_position || update_orientation)
        | None => (dev0, false)
        end
    | None => (dev0, false)
    end
  else (dev0, false).

(** What [rift_tracked_device_get_view_pose] writes through its
    out-pointers. *)
Record view_pose := mk_view {
  view_pose_out : posef;
  view_vel : vec3f;
  view_accel : vec3f;
  view_ang_vel : vec3f
}.

(** No positional observation for [POSE_LOST_THRESHOLD] ms of device time. *)
Definition position_lost (dev : rift_tracked_device_priv) : bool :=
  POSE_LOST_THRESHOLD * 1000000
  <=? u64_sub (device_time_ns dev) (last_observed_pose_ts dev).

(** The pose handed to the output filter by a view-pose query that has
    something new to report. *)
Definition output_filter_input (dev : rift_tracked_device_priv) : posef :=
  let est := rift_kalman_6dof_get_pose_at (ukf_fusion dev) (device_time_ns dev) in
  let device_pose := oposef_apply (device_from_fusion dev) (est_pose est) in
  if position_lost dev
  then mk_posef (pos (reported_pose dev)) (orient device_pose)
  else device_pose.

(** [rift_tracked_device_get_view_pose].  The helpers of the maths library
    write their result through their last argument.  The last call,
    [ovec3f_add (vel, vel, &extra_lin_vel)], therefore writes the sum into
    the local [extra_lin_vel], which is not read again, and leaves [*vel]
    the rotated IMU velocity. *)
Definition rift_tracked_device_get_view_pose (dev : rift_tracked_device_priv)
  : rift_tracked_device_priv * view_pose :=
  let est := rift_kalman_6dof_get_pose_at (ukf_fusion dev) (device_time_ns dev) in
  let dev0 := set_ukf_fusion dev (Ukf_get_pose_at (device_time_ns dev) :: ukf_fusion dev) in
  let fresh := last_reported_pose dev <? device_time_ns dev in
  let lost := fresh && position_lost dev in
  let dev1 :=
    if fresh then
      let device_pose := oposef_apply (device_from_fusion dev) (est_pose est) in
      let reported0 := mk_posef (pos (reported_pose dev)) (orient device_pose) in
      let '(filter, reported) :=
        exp_filter_pose_run (pose_output_filter dev) (device_time_ns dev)
          (output_filter_input dev) reported0 in
      set_reported dev0 (device_time_ns dev) reported filter
    else dev0 in
  let imu_vel := if lost then vec3f_zero else est_vel est in
  let imu_accel := if lost then vec3f_zero else est_accel est in
  let rot := oquatf_get_rotated (orient (device_from_fusion dev)) in
  let device_ang_vel := rot (est_ang_vel est) in
  let rotated_imu_pos := rot (pos (device_from_fusion dev)) in
  let extra_lin_vel := ovec3f_cross device_ang_vel rotated_imu_pos in
  let vel := rot imu_vel in
  let extra_lin_vel := ovec3f_add vel vel in
  (dev1, mk_view (reported_pose dev1) vel (rot imu_accel) device_ang_vel).

End Tracker.

(** ** The output filter *)

(** Arithmetic on floats, as far as a moving average uses it, with the
    three laws the average of a repeated input rests on. *)
Class FloatArith {FT : FloatType} := {
  f_add : scalar -> scalar -> scalar;
  f_sub : scalar -> scalar -> scalar;
  f_mul : scalar -> scalar -> scalar;
  f_sub_diag : forall x, f_sub x x = scalar_zero;
  f_mul_zero : forall a, f_mul a scalar_zero = scalar_zero;
  f_add_zero : forall x, f_add x scalar_zero = x
}.

Section OutputFilter.
Context {FT : FloatType} {FA : FloatArith}.

(** [prev + gain * (x - prev)], for a float and for each component of a
    vector. *)
Definition f_towards (gain prev x : scalar) : scalar :=
  f_add prev (f_mul gain (f_sub x prev)).

Definition v_towards (gain : scalar) (prev x : vec3f) : vec3f :=
  mk_vec3f (f_towards gain (vx prev) (vx x)) (f_towards gain (vy prev) (vy x))
    (f_towards gain (vz prev) (vz x)).

(** Modelled from the spec: [exp_filter_pose_run], the output filter of a
    device, is not among the sources.  The spec calls it "an exponential
    moving filter over pose (position and quaternion)".  The filter keeps
    its previous output.  Its first output is its first input; each later
    output is the previous one moved towards the input: the position by
    the fraction [gain] of their difference, the orientation by
    [q_towards].  The output is written through [out_pose] in full. *)
Definition exp_moving_filter_run (gain : Z -> scalar)
    (q_towards : quatf -> quatf -> quatf)
    (f : option posef) (ts : Z) (in_pose out_pose : posef)
  : option posef * posef :=
  let out :=
    match f with
    | None => in_pose
    | Some prev =>
        mk_posef (v_towards (gain ts) (pos prev) (pos in_pose))
          (q_towards (orient prev) (orient in_pose))
    end in
  (Some out, out).

(** The externals of the tracker with that filter as its output filter. *)
Definition with_output_filter (EX : Externals) (gain : Z -> scalar)
    (q_towards : quatf -> quatf -> quatf) : Externals := {|
  rift_pose_metrics := @rift_pose_metrics FT EX;
  POSE_HAS_FLAGS := @POSE_HAS_FLAGS FT EX;
  RIFT_MAX_SENSORS := @RIFT_MAX_SENSORS FT EX;
  oposef_apply := @oposef_apply FT EX;
  oquatf_get_rotated := @oquatf_get_rotated FT EX;
  oquatf_get_rotated_abs := @oquatf_get_rotated_abs FT EX;
  ovec3f_cross := @ovec3f_cross FT EX;
  ovec3f_add := @ovec3f_add FT EX;
  exp_filter_pose := option posef;
  exp_filter_pose_run := exp_moving_filter_run gain q_towards;
  rift_kalman_6dof_get_pose_at := @rift_kalman_6dof_get_pose_at FT EX
|}.

End OutputFilter.

(** ** A concrete instance for worked examples

    Floats are integers, a pose score is its two flags, rotations are the
    identity and composing poses adds them; the output filter moves half
    way from its previous output to its input; the Kalman estimate is the
    pose of the latest correction; a slot has room for 4 reports. *)
Module Sample.

#[local] Instance Z_float : FloatType := {| scalar := Z; scalar_zero := 0 |}.

Record score := mk_score { match_position : bool; match_orient : bool }.

Definition has_flags (s : score) (f : rift_pose_match_flag) : bool :=
  match f with
  | RIFT_POSE_MATCH_POSITION => match_position s
  | RIFT_POSE_MATCH_ORIENT => match_orient s
  end.

Definition v_add (a b : vec3f) : vec3f :=
  mk_vec3f (vx a + vx b) (vy a + vy b) (vz a + vz b).

Definition v_cross (a b : vec3f) : vec3f :=
  mk_vec3f (vy a * vz b - vz a * vy b) (vz a * vx b - vx a * vz b)
    (vx a * vy b - vy a * vx b).

Definition v_half_way (prev x : vec3f) : vec3f :=
  mk_vec3f (vx prev + (vx x - vx prev) / 2) (vy prev + (vy x - vy prev) / 2)
    (vz prev + (vz x - vz prev) / 2).

Definition q_add (a b : quatf) : quatf :=
  mk_quatf (qx a + qx b) (qy a + qy b) (qz a + qz b) (qw a + qw b).

Definition pose_apply (a b : posef) : posef :=
  mk_posef (v_add (pos a) (pos b)) (q_add (orient a) (orient b)).

Definition origin : posef := mk_posef vec3f_zero (mk_quatf 0 0 0 1).
Definition no_offset : posef := mk_posef vec3f_zero (mk_quatf 0 0 0 0).

Definition smooth (prev : option posef) (time : Z) (input out : posef)
  : option posef * posef :=
  match prev with
  | None => (Some input, input)
  | Some p =>
      let o := mk_posef (v_half_way (pos p) (pos input)) (orient input) in
      (Some o, o)
  end.

Fixpoint latest_pose (calls : list ukf_call) : posef :=
  match calls with
  | [] => origin
  | Ukf_pose_update _ p _ :: _ => p
  | Ukf_position_update _ v _ :: rest => mk_posef v (orient (latest_pose rest))
  | _ :: rest => latest_pose rest
  end.

Definition estimate (calls : list ukf_call) (time : Z) : kalman_estimate :=
  mk_estimate (latest_pose calls) (mk_vec3f 1 2 3) (mk_vec3f 0 0 (-10))
    (mk_vec3f 0 1 0) vec3f_zero vec3f_zero.

#[local] Instance ext : Externals := {|
  rift_pose_metrics := score;
  POSE_HAS_FLAGS := has_flags;
  RIFT_MAX_SENSORS := 4;
  oposef_apply := pose_apply;
  oquatf_get_rotated := fun _ v => v;
  oquatf_get_rotated_abs := fun _ v => v;
  ovec3f_cross := v_cross;
  ovec3f_add := v_add;
  exp_filter_pose := option posef;
  exp_filter_pose_run := smooth;
  rift_kalman_6dof_get_pose_at := estimate
|}.

Definition weak_score : score := mk_score false false.
Definition position_only_score : score := mk_score true false.
Definition strong_score : score := mk_score true true.

Definition blank_report : rift_tracker_pose_report :=
  mk_report false origin weak_score.

(** A slot as [rift_tracker_add_device] leaves it in zeroed memory. *)
Definition fresh_slot (id : Z) : rift_tracker_pose_delay_slot :=
  mk_slot id false 0 0 0 (replicate 4 blank_report) 0.

(** A slot tracking the exposure at device time [t], claimed [uses] times,
    with [used] of its [reports] reports integrated. *)
Definition busy_slot (id t uses reports used : Z) : rift_tracker_pose_delay_slot :=
  mk_slot id true uses t reports (replicate 4 blank_report) used.

(** A device as [rift_tracker_add_device] leaves it. *)
Definition new_device : rift_tracked_device_priv :=
  mk_dev 0 [] 0 [fresh_slot 0; fresh_slot 1; fresh_slot 2]
    no_offset no_offset no_offset 0 0 0 0 origin 0 origin origin None [].

(** The same device at device time [time_ns], last IMU stamp [last_ts],
    with the given slots and observation times. *)
Definition device_at (last_ts time_ns orient_ts pose_ts : Z)
    (slots : list rift_tracker_pose_delay_slot) : rift_tracked_device_priv :=
  set_delay_slots
    (set_observed (set_clock new_device last_ts time_ns) orient_ts pose_ts origin)
    slots.

Definition info_for (slot time_ns : Z) (lock : bool)
  : rift_tracked_device_exposure_info :=
  mk_dev_info time_ns slot lock origin vec3f_zero vec3f_zero.

Definition exposure_for (slot time_ns : Z) (lock : bool)
  : rift_tracker_exposure_info :=
  mk_exposure_info 0 0 0 0 1 [info_for slot time_ns lock].

(** Three exposures are outstanding, each slot claimed once; slot 0 has
    delivered a used report (scenario 4 of the specification). *)
Definition all_busy_device : rift_tracked_device_priv :=
  device_at 0 4000 0 3900
    [busy_slot 0 1000 1 1 1; busy_slot 1 2000 1 0 0; busy_slot 2 3000 1 0 0].

(** A session of one device.  Its first IMU sample is stamped 100000 us;
    an exposure follows, is given slot 0 and is claimed by a frame.  Four
    cameras then report a pose for that exposure, one after the other, at
    device times 100, 190, 280 and 370 ms: the first with a strong score,
    the others with a score that matches in position only. *)
Definition tick (dev : rift_tracked_device_priv) (device_ts : Z) :=
  rift_tracked_device_imu_update dev 0 device_ts 0 vec3f_zero vec3f_zero
    vec3f_zero.

Definition report (dev : rift_tracked_device_priv)
    (dev_info : rift_tracked_device_exposure_info) (s : score) :=
  fst (rift_tracked_device_model_pose_update dev 0 0
         (mk_exposure_info 0 0 0 0 1 [dev_info]) s origin).

Definition exposed :=
  rift_tracked_device_on_new_exposure (tick new_device 100000)
    (info_for (-1) 0 false).

Definition claimed :=
  rift_tracked_device_exposure_claim (fst exposed) (snd exposed).

Definition exposure_a : rift_tracked_device_exposure_info := snd claimed.

Definition after_second_report : rift_tracked_device_priv :=
  report (tick (report (fst claimed) exposure_a strong_score) 190000)
    exposure_a position_only_score.

Definition before_third_report : rift_tracked_device_priv :=
  tick after_second_report 280000.

Definition before_fifth_report : rift_tracked_device_priv :=
  tick
    (report
       (tick (report before_third_report exposure_a position_only_score) 370000)
       exposure_a position_only_score)
    460000.

(** Slot 0 of a device. *)
Definition slot_0 (dev : rift_tracked_device_priv) : rift_tracker_pose_delay_slot :=
  match delay_slots dev !! 0%nat with
  | Some slot => slot
  | None => fresh_slot 0
  end.

(** Slot 0 tracks the exposure taken at device time 1000 and is claimed
    by two frames. *)
Definition claimed_twice_device : rift_tracked_device_priv :=
  device_at 0 2000 0 0 [busy_slot 0 1000 2 0 0; fresh_slot 1; fresh_slot 2].

(** A 12-byte payload header with the given [bmHeaderInfo] and a zero
    presentation time, followed by [body]. *)
Definition packet (info : byte) (body : list byte) : list byte :=
  [x0c; info; x00; x00; x00; x00; x00; x00; x00; x00; x00; x00] ++ body.

Definition blank_frame (size : nat) : ohmd_video_frame :=
  mk_frame (replicate size x00) (Z.of_nat size) 0 0 0 0 0.

(** A stream of [size]-byte frames that holds frame 0 with [collected]
    bytes in it; frame 1 is free. *)
Definition stream_at (size : nat) (collected : Z) (cb : bool)
  : rift_sensor_uvc_stream :=
  mk_stream 4 4 (Z.of_nat size / 4) (Z.of_nat size) 0 0 collected false
    [blank_frame size; blank_frame size] [1%nat] (Some 0%nat) cb.

End Sample.

(** The sample instance with the output filter of the spec: integers,
    products halved, gain 1, so that the position moves half way; the
    orientation is that of the input. *)
Module Filtered.

#[local] Existing Instance Sample.Z_float.

#[local] Instance Z_arith : FloatArith := {|
  f_add := Z.add;
  f_sub := Z.sub;
  f_mul := fun a d => a * d / 2;
  f_sub_diag := Z.sub_diag;
  f_mul_zero := fun a => f_equal (fun z => z / 2) (Z.mul_0_r a);
  f_add_zero := Z.add_0_r
|}.

#[local] Instance filtered_ext : Externals :=
  with_output_filter Sample.ext (fun _ => 1) (fun _ q => q).

Definition idle_slot (id : Z) : rift_tracker_pose_delay_slot :=
  mk_slot id false 0 0 0
    (replicate 4 (mk_report false Sample.origin Sample.weak_score)) 0.

(** A device whose last positional observation is exactly 500 ms old.  It
    last reported the position (7, 8, 9), which is the previous output of
    its filter; the Kalman filter has since moved on to (100, 200, 300).
    The IMU sits at (1, 0, 0) in the device frame. *)
Definition lost_device : rift_tracked_device_priv :=
  mk_dev 0
    [Ukf_position_update 500000000 (mk_vec3f 100 200 300) 0]
    0 [idle_slot 0; idle_slot 1; idle_slot 2]
    (mk_posef (mk_vec3f 1 0 0) (mk_quatf 0 0 0 0)) Sample.no_offset
    Sample.no_offset
    0 1000000000 0 500000000 Sample.origin
    900000000 (mk_posef (mk_vec3f 7 8 9) (mk_quatf 0 0 0 1)) Sample.origin
    (Some (mk_posef (mk_vec3f 7 8 9) (mk_quatf 0 0 0 1))) [].

(** The same device with its last positional observation 1 ns younger. *)
Definition tracked_device : rift_tracked_device_priv :=
  mk_dev 0
    [Ukf_position_update 500000001 (mk_vec3f 100 200 300) 0]
    0 [idle_slot 0; idle_slot 1; idle_slot 2]
    (mk_posef (mk_vec3f 1 0 0) (mk_quatf 0 0 0 0)) Sample.no_offset
    Sample.no_offset
    0 1000000000 0 500000001 Sample.origin
    900000000 (mk_posef (mk_vec3f 7 8 9) (mk_quatf 0 0 0 1)) Sample.origin
    (Some (mk_posef (mk_vec3f 7 8 9) (mk_quatf 0 0 0 1))) [].

End Filtered.

(** ** Well-formed streams and payloads *)

(** Frame [f] of the table [frames] is a buffer of [size] bytes. *)
Definition frame_ok (frames : list ohmd_video_frame) (size : Z) (f : nat) : Prop :=
  exists fr, frames !! f = Some fr
             /\ data_size fr = size
             /\ Z.of_nat (length (data fr)) = size.

(** The state [rift_sensor_uvc_stream_start] sets up and the assembler
    keeps: the byte count lies inside the frame, and the current frame and
    the free frames are frames of the table. *)
Definition stream_ok (s : rift_sensor_uvc_stream) : Prop :=
  0 <= frame_collected s <= frame_size s
  /\ forall f, cur_frame s = Some f \/ In f (free_frames s) ->
               frame_ok (alloced_frames s) (frame_size s) f.

(** A packet of [len] received bytes: nothing, or a header and its body
    inside the packet buffer. *)
Definition payload_ok (payload : list byte) (len : Z) : Prop :=
  len = 0 \/ 12 <= len <= Z.of_nat (length payload).

(** The payload passes the header checks and, after the frame-start steps
    have left the stream in [s2], is appended to frame [f]. *)
Definition reaches_append (s : rift_sensor_uvc_stream) (time : Z)
    (payload : list byte) (len : Z) (s2 : rift_sensor_uvc_stream) (f : nat)
  : Prop :=
  len <> 0 /\ len <> 12 /\ bHeaderLength payload = 12
  /\ hdr_error payload = false
  /\ (exists ev, frame_start_steps s time payload = Some (s2, ev))
  /\ cur_frame s2 = Some f /\ skip_frame s2 = false.

(** The payload passes the header checks of [process_payload]. *)
Definition accepted (payload : list byte) (len : Z) : Prop :=
  len <> 0 /\ len <> 12 /\ bHeaderLength payload = 12
  /\ hdr_error payload = false.

(** ** Well-formed devices and what an allocation leaves behind *)

Section TrackerPredicates.
Context {FT : FloatType} {EX : Externals}.

(** The delay-slot table has its three slots and the cursor points at one
    of them. *)
Definition slots_ok (dev : rift_tracked_device_priv) : Prop :=
  length (delay_slots dev) = 3%nat /\ 0 <= delay_slot_index dev < 3.

(** No slot has [use_count = 0]. *)
Definition no_free_slot (dev : rift_tracked_device_priv) : Prop :=
  forall j sl, delay_slots dev !! j = Some sl -> use_count sl <> 0.

(** The slot is valid and has delivered a used report. *)
Definition reclaimable (slot : rift_tracker_pose_delay_slot) : Prop :=
  valid slot = true /\ 0 < n_used_reports slot.

(** Slot [i], which held [slot], was given to the new exposure: it is
    stamped with the device time of the exposure, the exposure entry names
    it, and the filter was asked for its pose and told to prepare the
    slot.  Nothing else is written in the table. *)
Definition slot_allocated (dev dev' : rift_tracked_device_priv)
    (info' : rift_tracked_device_exposure_info) (i : nat)
    (slot : rift_tracker_pose_delay_slot) : Prop :=
  fusion_slot info' = slot_id slot
  /\ delay_slots dev'
     = <[i := stamp_slot slot (device_time_ns dev)]> (delay_slots dev)
  /\ ukf_fusion dev'
     = Ukf_prepare_delay_slot (device_time_ns dev) (slot_id slot)
         :: Ukf_get_pose_at (device_time_ns dev) :: ukf_fusion dev.

(** The relation between the extended clock and the stored raw stamp that
    holds on a new device and after every IMU update: modulo [2^32] the
    clock is the stamp in nanoseconds. *)
Definition clock_ok (dev : rift_tracked_device_priv) : Prop :=
  0 <= device_time_ns dev
  /\ wrap32 (device_time_ns dev) = u32_mul (last_device_ts dev) 1000.

(** The device after the release that frees slot [k], which held [slot]:
    the slot is invalid with [use_count = 0], and the filter was told to
    release it. *)
Definition after_freeing (dev : rift_tracked_device_priv) (k : nat)
    (slot : rift_tracker_pose_delay_slot) : rift_tracked_device_priv :=
  set_ukf_fusion
    (set_delay_slots dev (<[k := set_use slot false 0]> (delay_slots dev)))
    (Ukf_release_delay_slot (slot_id slot) :: ukf_fusion dev).

(** [n] releases of the exposure [dev_info], each through a copy of its
    own of the exposure record, as each frame holds one. *)
Fixpoint release_times (n : nat) (dev : rift_tracked_device_priv)
    (dev_info : rift_tracked_device_exposure_info) : rift_tracked_device_priv :=
  match n with
  | O => dev
  | S n' =>
      release_times n'
        (fst (rift_tracked_device_exposure_release_locked dev dev_info)) dev_info
  end.

End TrackerPredicates.

(** ** Frames in and out of the assembler (uvc.c) *)

(** [rift_sensor_uvc_stream_release_frame (frame, stream)], the release
    function stored in every frame: the frame goes back on top of the free
    stack.  The two [assert]s end the run when they fail: the frame must be
    one of this stream's, and the free stack must not be full already. *)
Definition rift_sensor_uvc_stream_release_frame (f : nat)
    (s : rift_sensor_uvc_stream) : option rift_sensor_uvc_stream :=
  if (f <? length (alloced_frames s))%nat
     && (length (free_frames s) <? length (alloced_frames s))%nat
  then Some (mk_stream (s_stride s) (s_width s) (s_height s) (frame_size s)
               (frame_id s) (cur_pts s) (frame_collected s) (skip_frame s)
               (alloced_frames s) (f :: free_frames s) (cur_frame s)
               (frame_cb s))
  else None.

(** The frames the stream holds: the one it captures into, then the free
    stack from its top. *)
Definition held_frames (s : rift_sensor_uvc_stream) : list nat :=
  option_list (cur_frame s) ++ free_frames s.

(** The frames handed to the frame callback, in the order of the calls. *)
Fixpoint delivered_frames (evs : list uvc_event) : list nat :=
  match evs with
  | [] => []
  | Frame_cb f :: rest => f :: delivered_frames rest
  | _ :: rest => delivered_frames rest
  end.

(** The body of a packet of [len] received bytes: what follows the 12-byte
    header. *)
Definition payload_body (payload : list byte) (len : Z) : list byte :=
  take (Z.to_nat (len - 12)) (drop 12 payload).

Definition packet_body (p : Z * list byte * Z) : list byte :=
  payload_body (snd (fst p)) (snd p).

(** The stream and its consumer.  The consumer receives frames through the
    callback and gives each back through the frame's release function. *)
Inductive uvc_op :=
| Uvc_packet (time : Z) (payload : list byte) (len : Z)
| Uvc_release (f : nat).

(** A run ends in a stream state together with the frames the consumer
    holds; or it has no defined outcome (an [assert] fails, a [memcpy]
    leaves its buffers); or the consumer releases a frame it does not
    hold. *)
Inductive uvc_outcome :=
| Uvc_ok (s : rift_sensor_uvc_stream) (consumer : list nat)
| Uvc_undefined
| Uvc_misuse.

(** Taking the first occurrence of [f] out of [l]. *)
Fixpoint remove_first (f : nat) (l : list nat) : option (list nat) :=
  match l with
  | [] => None
  | g :: rest =>
      if decide (f = g) then Some rest
      else match remove_first f rest with
           | Some rest' => Some (g :: rest')
           | None => None
           end
  end.

Fixpoint uvc_run (s : rift_sensor_uvc_stream) (consumer : list nat)
    (ops : list uvc_op) : uvc_outcome :=
  match ops with
  | [] => Uvc_ok s consumer
  | Uvc_packet time payload len :: rest =>
      match process_payload s time payload len with
      | None => Uvc_undefined
      | Some (s', evs) => uvc_run s' (consumer ++ delivered_frames evs) rest
      end
  | Uvc_release f :: rest =>
      match remove_first f consumer with
      | None => Uvc_misuse
      | Some consumer' =>
          match rift_sensor_uvc_stream_release_frame f s with
          | None => Uvc_undefined
          | Some s' => uvc_run s' consumer' rest
          end
      end
  end.

(** A packet that carries part of the camera frame with parity bit
    [fid]: it passes the header checks, its body lies inside the packet
    buffer, and it does not claim to end the frame. *)
Definition chunk_ok (fid : Z) (p : Z * list byte * Z) : Prop :=
  accepted (snd (fst p)) (snd p)
  /\ 12 <= snd p <= Z.of_nat (length (snd (fst p)))
  /\ hdr_frame_id (snd (fst p)) = fid
  /\ hdr_is_eof (snd (fst p)) = false.

Definition bodies (packets : list (Z * list byte * Z)) : list byte :=
  concat (map packet_body packets).

(** Every frame of the table is a buffer of [frame_size] bytes. *)
Definition table_ok (s : rift_sensor_uvc_stream) : Prop :=
  Forall (fun fr => data_size fr = frame_size s
                    /\ Z.of_nat (length (data fr)) = frame_size s)
    (alloced_frames s).

(** The packets among the operations are well formed. *)
Definition op_ok (op : uvc_op) : Prop :=
  match op with
  | Uvc_packet _ payload len => payload_ok payload len
  | Uvc_release _ => True
  end.

(** ** Isochronous transfers (uvc.c) *)

(** [transfer->status]: completed, cancelled, or one of the error codes. *)
Inductive libusb_transfer_status :=
| LIBUSB_TRANSFER_COMPLETED
| LIBUSB_TRANSFER_CANCELLED
| LIBUSB_TRANSFER_FAILED (status : Z).

(** The stream's transfer bookkeeping.  [active_transfers] is a signed
    count, taken in [Z] like the other counters. *)
Record rift_sensor_uvc_transfers := mk_transfers {
  video_running : bool;
  active_transfers : Z
}.

(** What [iso_transfer_cb] prints and calls besides [process_payload]. *)
Inductive iso_event :=
| Log_transfer_error (status : Z)
| Payload_event (ev : uvc_event)
| Submit_transfer (ret : Z)
| Sleep_half_ms
| Log_resubmit_failed (attempts : Z)
| Log_resubmitted (attempts : Z).

(** The resubmit loop, [n] rounds left: [submit i] is what attempt [i] of
    [libusb_submit_transfer] returns.  The result is the final [i], the
    final [ret] and the calls made. *)
Fixpoint resubmit_loop (n : nat) (i ret : Z) (submit : Z -> Z)
  : Z * Z * list iso_event :=
  match n with
  | O => (i, ret, [])
  | S n' =>
      let ret := submit i in
      if 0 <=? ret then (i, ret, [Submit_transfer ret])
      else
        let '(i', ret', evs) := resubmit_loop n' (i + 1) ret submit in
        (i', ret', Submit_transfer ret :: Sleep_half_ms :: evs)
  end.

Definition transfer_retired (x : rift_sensor_uvc_transfers) :=
  mk_transfers (video_running x) (active_transfers x - 1).

(** [iso_transfer_cb (transfer)].  [packets] are the isochronous packets
    of the transfer.  [ret] is not initialised before the resubmit loop,
    whose body runs at least once; its initial value is [ret0]. *)
Definition iso_transfer_cb (x : rift_sensor_uvc_transfers)
    (s : rift_sensor_uvc_stream) (status : libusb_transfer_status)
    (packets : list (Z * list byte * Z)) (submit : Z -> Z) (ret0 : Z)
  : option (rift_sensor_uvc_transfers * rift_sensor_uvc_stream * list iso_event) :=
  match status with
  | LIBUSB_TRANSFER_FAILED code =>
      Some (transfer_retired x, s, [Log_transfer_error code])
  | LIBUSB_TRANSFER_CANCELLED => Some (transfer_retired x, s, [])
  | LIBUSB_TRANSFER_COMPLETED =>
      if negb (video_running x) then Some (transfer_retired x, s, [])
      else
        match process_packets s packets with
        | None => None
        | Some (s', evs) =>
            let '(i, ret, calls) := resubmit_loop 5 0 ret0 submit in
            if ret <? 0
            then Some (transfer_retired x, s',
                       map Payload_event evs ++ calls ++ [Log_resubmit_failed i])
            else Some (x, s',
                       map Payload_event evs ++ calls
                       ++ (if 0 <? i then [Log_resubmitted (i + 1)] else []))
        end
  end.

(** The calls of [libusb_submit_transfer] among the events. *)
Fixpoint submit_calls (evs : list iso_event) : list Z :=
  match evs with
  | [] => []
  | Submit_transfer ret :: rest => ret :: submit_calls rest
  | _ :: rest => submit_calls rest
  end.

(** [k] transfer callbacks in a row, each with its own status, packets and
    submit results. *)
Fixpoint iso_transfer_cbs (x : rift_sensor_uvc_transfers)
    (s : rift_sensor_uvc_stream)
    (transfers : list (libusb_transfer_status * list (Z * list byte * Z)
                       * (Z -> Z)))
  : option (rift_sensor_uvc_transfers * rift_sensor_uvc_stream * list iso_event) :=
  match transfers with
  | [] => Some (x, s, [])
  | (status, packets, submit) :: rest =>
      match iso_transfer_cb x s status packets submit 0 with
      | None => None
      | Some (x1, s1, ev1) =>
          match iso_transfer_cbs x1 s1 rest with
          | None => None
          | Some (x2, s2, ev2) => Some (x2, s2, ev1 ++ ev2)
          end
      end
  end.

(** One of the five submit attempts succeeds. *)
Definition resubmit_succeeds (submit : Z -> Z) : bool :=
  existsb (fun i => 0 <=? submit i) [0; 1; 2; 3; 4].

(** ** Transfer layout ([rift_sensor_uvc_stream_setup]) *)

(** The sizes are computed in [int]: a value outside the type, or a
    division by 0, has no defined outcome.  Division truncates. *)
Definition int_val (z : Z) : option Z :=
  if (- 2 ^ 31 <=? z) && (z <? 2 ^ 31) then Some z else None.

Definition int_div (a b : Z) : option Z :=
  if b =? 0 then None else int_val (Z.quot a b).

(** The frame size, the number of transfers and the number of packets per
    transfer that [rift_sensor_uvc_stream_setup] computes from the stride
    and height it has set for the device and from the device's packet
    size. *)
Definition transfer_layout (stride height packet_size : Z)
  : option (Z * Z * Z) :=
  frame_size ← int_val (stride * height);
  a ← int_val (frame_size + packet_size);
  b ← int_val (a - 1);
  num_packets ← int_div b packet_size;
  c ← int_val (num_packets + 31);
  num_transfers ← int_div c 32;
  num_packets' ← int_div num_packets num_transfers;
  Some (frame_size, num_transfers, num_packets').

(** ** The tracker context and the rest of the device interface
    (rift-tracker.c) *)

(** More foreign code: the Kalman filter's pose query for a delay slot,
    which is given the filter (its call history) and returns it with the
    estimate; pose inversion; and the initial state of the output
    filter. *)
Class DeviceExternals {FT : FloatType} {EX : Externals} := {
  rift_kalman_6dof_get_delay_slot_pose_at :
    list ukf_call -> Z -> Z -> list ukf_call * kalman_estimate;
  oposef_inverse : posef -> posef;
  exp_filter_pose_init : exp_filter_pose
}.

Section TrackerContext.
Context {FT : FloatType} {EX : Externals} {DX : DeviceExternals}.

(** [rift_tracked_device_send_debug_printf]: when a debug sink is attached
    ([to_pw || to_file]) the pending IMU observations are sent first. *)
Definition rift_tracked_device_send_debug_printf (sinks : bool)
    (dev : rift_tracked_device_priv) : rift_tracked_device_priv :=
  if sinks then rift_tracked_device_send_imu_debug dev else dev.

(** [rift_tracked_device_get_latest_exposure_info_pose (dev, dev_info)]:
    the device, the exposure entry as it is left, and the result. *)
Definition rift_tracked_device_get_latest_exposure_info_pose
    (dev : rift_tracked_device_priv)
    (dev_info : rift_tracked_device_exposure_info)
  : rift_tracked_device_priv * rift_tracked_device_exposure_info * bool :=
  if fusion_slot dev_info =? -1 then (dev, dev_info, false)
  else
    match get_matching_delay_slot dev dev_info with
    | Some (k, slot) =>
        let '(ukf, est) :=
          rift_kalman_6dof_get_delay_slot_pose_at (ukf_fusion dev)
            (di_device_time_ns dev_info) (slot_id slot) in
        let cap := oposef_apply (model_from_fusion dev) (est_pose est) in
        let perr := oquatf_get_rotated_abs (orient (model_from_fusion dev))
                      (est_pos_error est) in
        let rerr := oquatf_get_rotated_abs (orient (model_from_fusion dev))
                      (est_rot_error est) in
        (set_ukf_fusion dev ukf,
         mk_dev_info (di_device_time_ns dev_info) (fusion_slot dev_info)
           (had_pose_lock dev_info) cap perr rerr,
         true)
    | None => (dev, set_fusion_slot dev_info (-1), false)
    end.

(** [rift_tracked_device_get_model_pose]: the locked variant under the
    device lock. *)
Definition rift_tracked_device_get_model_pose (dev : rift_tracked_device_priv)
  : rift_tracked_device_priv * (posef * vec3f * vec3f) :=
  rift_tracked_device_get_model_pose_locked dev.

Definition set_devices (info : rift_tracker_exposure_info)
    (entries : list rift_tracked_device_exposure_info) :=
  mk_exposure_info (local_ts info) (hmd_ts info) (count info)
    (led_pattern_phase info) (n_devices info) entries.

(** [rift_tracked_device_frame_release (dev, exposure_info)]. *)
Definition rift_tracked_device_frame_release (dev : rift_tracked_device_priv)
    (exposure_info : rift_tracker_exposure_info)
  : rift_tracked_device_priv * rift_tracker_exposure_info :=
  if index dev <? n_devices exposure_info then
    match devices exposure_info !! Z.to_nat (index dev) with
    | Some dev_info =>
        let '(dev', dev_info') :=
          rift_tracked_device_exposure_release_locked dev dev_info in
        (dev', set_devices exposure_info
                 (<[Z.to_nat (index dev) := dev_info']> (devices exposure_info)))
    | None => (dev, exposure_info)
    end
  else (dev, exposure_info).

(** The slot-initialising loop of [rift_tracker_add_device], from slot [s]
    on. *)
Fixpoint init_slots_loop (n : nat) (s : nat)
    (slots : list rift_tracker_pose_delay_slot)
  : list rift_tracker_pose_delay_slot :=
  match n with
  | O => slots
  | S n' =>
      match slots !! s with
      | Some slot =>
          init_slots_loop n' (S s)
            (<[s := mk_slot (Z.of_nat s) false (use_count slot)
                      (slot_device_time_ns slot) (n_pose_reports slot)
                      (pose_reports slot) (n_used_reports slot)]> slots)
      | None => init_slots_loop n' (S s) slots
      end
  end.

(** What [rift_tracker_add_device] writes in the device entry [next_dev]
    it takes from the context; [led_model_pose] is its argument
    [model_pose].  The filter is initialised: its call history is empty.
    The fields not written keep what the entry held.  [trace] tells
    whether the entry has a trace file ([debug_file != NULL]) once the
    function has looked for one; the calibration is then printed to it. *)
Definition add_device_init (next_dev : rift_tracked_device_priv)
    (imu_pose led_model_pose : posef) (trace : bool)
  : rift_tracked_device_priv :=
  let fusion_from_model := oposef_apply imu_pose led_model_pose in
  let dev :=
    mk_dev (index next_dev) [] (delay_slot_index next_dev)
      (init_slots_loop (Z.to_nat NUM_POSE_DELAY_SLOTS) 0 (delay_slots next_dev))
      (oposef_inverse imu_pose) fusion_from_model
      (oposef_inverse fusion_from_model)
      (last_device_ts next_dev) 0 0 0 (last_observed_pose next_dev) 0
      (reported_pose next_dev) (model_pose next_dev) exp_filter_pose_init
      (pending_imu_observations next_dev) in
  if trace then rift_tracked_device_send_debug_printf true dev else dev.

(** [struct rift_tracker_ctx_s], as far as the exposure bookkeeping goes.
    [ctx_devices] is the array of [RIFT_MAX_TRACKED_DEVICES] tracked
    devices, the first [ctx_n_devices] of which are in use; the [devices]
    array of an exposure record has the same length.  The two counts are
    [uint8_t]. *)
Record rift_tracker_ctx := mk_ctx {
  have_exposure_info : bool;
  ctx_exposure_info : rift_tracker_exposure_info;
  n_sensors : Z;
  ctx_devices : list rift_tracked_device_priv;
  ctx_n_devices : Z
}.

(** The calls the tracker makes on its sensors. *)
Inductive tracker_event :=
| Sensor_add_device (sensor : nat) (device : nat)
| Sensor_update_exposure (sensor : nat) (info : rift_tracker_exposure_info).

(** [rift_tracker_add_device]: the device takes the next free entry of the
    array.  The [assert] on the number of devices ends the run when it
    fails. *)
Definition rift_tracker_add_device (ctx : rift_tracker_ctx)
    (imu_pose led_model_pose : posef) (trace : bool)
  : option (rift_tracker_ctx * list tracker_event) :=
  if ctx_n_devices ctx <? Z.of_nat (length (ctx_devices ctx)) then
    match ctx_devices ctx !! Z.to_nat (ctx_n_devices ctx) with
    | Some next_dev =>
        Some (mk_ctx (have_exposure_info ctx) (ctx_exposure_info ctx)
                (n_sensors ctx)
                (<[Z.to_nat (ctx_n_devices ctx)
                   := add_device_init next_dev imu_pose led_model_pose trace]>
                   (ctx_devices ctx))
                ((ctx_n_devices ctx + 1) mod 2 ^ 8),
              map (fun i => Sensor_add_device i (Z.to_nat (ctx_n_devices ctx)))
                (seq 0 (Z.to_nat (n_sensors ctx))))
    | None => None
    end
  else None.

(** [rift_tracker_get_exposure_info]. *)
Definition rift_tracker_get_exposure_info (ctx : rift_tracker_ctx)
  : bool * rift_tracker_exposure_info :=
  (have_exposure_info ctx, ctx_exposure_info ctx).

(** The device loop of [rift_tracker_on_new_exposure], from device [i] on:
    each device in use gets a slot for the exposure, has its pending IMU
    observations sent and its debug line printed; [sinks j] tells whether
    device [j] has a debug sink attached then.  An index outside an array
    has no defined outcome. *)
Fixpoint new_exposure_loop (sinks : nat -> bool) (n : nat) (i : nat)
    (devs : list rift_tracked_device_priv)
    (entries : list rift_tracked_device_exposure_info)
  : option (list rift_tracked_device_priv
            * list rift_tracked_device_exposure_info) :=
  match n with
  | O => Some (devs, entries)
  | S n' =>
      match devs !! i, entries !! i with
      | Some dev, Some dev_info =>
          let '(dev1, dev_info1) :=
            rift_tracked_device_on_new_exposure dev dev_info in
          let dev2 := rift_tracked_device_send_imu_debug dev1 in
          let dev3 := rift_tracked_device_send_debug_printf (sinks i) dev2 in
          new_exposure_loop sinks n' (S i) (<[i := dev3]> devs)
            (<[i := dev_info1]> entries)
      | _, _ => None
      end
  end.

(** Clearing the entries of the devices that do not exist. *)
Definition clear_missing (n : nat)
    (entries : list rift_tracked_device_exposure_info) :=
  take n entries ++ ((fun di => set_fusion_slot di (-1)) <$> drop n entries).

(** [rift_tracker_on_new_exposure (ctx, hmd_ts, exposure_count,
    exposure_hmd_ts, led_pattern_phase)]; [now] is the monotonic clock read
    when the exposure is new, and [imu_hmd_ts] the argument [hmd_ts], which
    only the log reads.  The fields of the exposure record hold the
    arguments stored in them as they are. *)
Definition rift_tracker_on_new_exposure (ctx : rift_tracker_ctx)
    (sinks : nat -> bool)
    (now imu_hmd_ts exposure_count exposure_hmd_ts phase : Z)
  : option (rift_tracker_ctx * list tracker_event) :=
  let info0 := ctx_exposure_info ctx in
  let info1 :=
    if led_pattern_phase info0 =? phase then info0
    else mk_exposure_info (local_ts info0) (hmd_ts info0) (count info0)
           phase (n_devices info0) (devices info0) in
  if count info1 =? exposure_count
  then Some (mk_ctx (have_exposure_info ctx) info1 (n_sensors ctx)
               (ctx_devices ctx) (ctx_n_devices ctx), [])
  else
    match new_exposure_loop sinks (Z.to_nat (ctx_n_devices ctx)) 0
            (ctx_devices ctx) (devices info1) with
    | None => None
    | Some (devs, entries) =>
        let info2 :=
          mk_exposure_info now exposure_hmd_ts exposure_count phase
            (ctx_n_devices ctx)
            (clear_missing (Z.to_nat (ctx_n_devices ctx)) entries) in
        Some (mk_ctx true info2 (n_sensors ctx) devs (ctx_n_devices ctx),
              map (fun i => Sensor_update_exposure i info2)
                (seq 0 (Z.to_nat (n_sensors ctx))))
    end.

(** An operation on device [i] and entry [i] of an exposure record, when
    the caller has a record and the device had an entry in it
    ([info && i < info->n_devices]). *)
Definition on_entry
    (op : rift_tracked_device_priv -> rift_tracked_device_exposure_info ->
          rift_tracked_device_priv * rift_tracked_device_exposure_info)
    (i : nat) (dev : rift_tracked_device_priv)
    (info : option rift_tracker_exposure_info)
  : option (rift_tracked_device_priv * option rift_tracker_exposure_info) :=
  match info with
  | None => Some (dev, None)
  | Some inf =>
      if Z.of_nat i <? n_devices inf then
        match devices inf !! i with
        | Some dev_info =>
            let '(dev', dev_info') := op dev dev_info in
            Some (dev', Some (set_devices inf (<[i := dev_info']> (devices inf))))
        | None => None
        end
      else Some (dev, Some inf)
  end.

(** The device loops of [rift_tracker_frame_start] and
    [rift_tracker_frame_release], from device [i] on: [op] is the claim or
    the release, and [sinks j] tells whether device [j] has a debug sink
    attached when its debug line is printed.  A device index outside the
    array has no defined outcome. *)
Fixpoint frame_loop
    (op : rift_tracked_device_priv -> rift_tracked_device_exposure_info ->
          rift_tracked_device_priv * rift_tracked_device_exposure_info)
    (sinks : nat -> bool) (n : nat) (i : nat)
    (devs : list rift_tracked_device_priv)
    (info : option rift_tracker_exposure_info)
  : option (list rift_tracked_device_priv * option rift_tracker_exposure_info) :=
  match n with
  | O => Some (devs, info)
  | S n' =>
      match devs !! i with
      | Some dev =>
          match on_entry op i dev info with
          | Some (dev1, info1) =>
              frame_loop op sinks n' (S i)
                (<[i := rift_tracked_device_send_debug_printf (sinks i) dev1]> devs)
                info1
          | None => None
          end
      | None => None
      end
  end.

Definition set_ctx_devices (ctx : rift_tracker_ctx)
    (devs : list rift_tracked_device_priv) :=
  mk_ctx (have_exposure_info ctx) (ctx_exposure_info ctx) (n_sensors ctx)
    devs (ctx_n_devices ctx).

(** [rift_tracker_frame_start (ctx, local_ts, source, info)]: [info] is
    the caller's exposure record, or [None] for a NULL pointer. *)
Definition rift_tracker_frame_start (ctx : rift_tracker_ctx)
    (sinks : nat -> bool) (info : option rift_tracker_exposure_info)
  : option (rift_tracker_ctx * option rift_tracker_exposure_info) :=
  match frame_loop rift_tracked_device_exposure_claim sinks
          (Z.to_nat (ctx_n_devices ctx)) 0 (ctx_devices ctx) info with
  | Some (devs, info') => Some (set_ctx_devices ctx devs, info')
  | None => None
  end.

(** [rift_tracker_frame_release (ctx, local_ts, frame_local_ts, info,
    source)]. *)
Definition rift_tracker_frame_release (ctx : rift_tracker_ctx)
    (sinks : nat -> bool) (info : option rift_tracker_exposure_info)
  : option (rift_tracker_ctx * option rift_tracker_exposure_info) :=
  match frame_loop rift_tracked_device_exposure_release_locked sinks
          (Z.to_nat (ctx_n_devices ctx)) 0 (ctx_devices ctx) info with
  | Some (devs, info') => Some (set_ctx_devices ctx devs, info')
  | None => None
  end.

(** The device loop of [rift_tracker_frame_changed_exposure], from device
    [i] on: the slot claimed through the old record is released, then the
    slot of the new record is claimed.  The two records are distinct
    objects. *)
Fixpoint changed_exposure_loop (n : nat) (i : nat)
    (devs : list rift_tracked_device_priv)
    (old_info new_info : option rift_tracker_exposure_info)
  : option (list rift_tracked_device_priv
            * option rift_tracker_exposure_info
            * option rift_tracker_exposure_info) :=
  match n with
  | O => Some (devs, old_info, new_info)
  | S n' =>
      match devs !! i with
      | Some dev =>
          match on_entry rift_tracked_device_exposure_release_locked i dev
                  old_info with
          | Some (dev1, old_info1) =>
              match on_entry rift_tracked_device_exposure_claim i dev1
                      new_info with
              | Some (dev2, new_info1) =>
                  changed_exposure_loop n' (S i) (<[i := dev2]> devs)
                    old_info1 new_info1
              | None => None
              end
          | None => None
          end
      | None => None
      end
  end.

(** [rift_tracker_frame_changed_exposure (ctx, old_info, new_info)]. *)
Definition rift_tracker_frame_changed_exposure (ctx : rift_tracker_ctx)
    (old_info new_info : option rift_tracker_exposure_info)
  : option (rift_tracker_ctx * option rift_tracker_exposure_info
            * option rift_tracker_exposure_info) :=
  match changed_exposure_loop (Z.to_nat (ctx_n_devices ctx)) 0
          (ctx_devices ctx) old_info new_info with
  | Some (devs, old_info', new_info') =>
      Some (set_ctx_devices ctx devs, old_info', new_info')
  | None => None
  end.

(** The model pose the Kalman filter estimates for the current device
    time. *)
Definition model_estimate (dev : rift_tracked_device_priv) : posef :=
  oposef_apply (model_from_fusion dev)
    (est_pose (rift_kalman_6dof_get_pose_at (ukf_fusion dev) (device_time_ns dev))).

(** ** Runs of a device *)

(** [n] claims of the exposure [dev_info], each through a copy of its own
    of the exposure record, as each frame holds one. *)
Fixpoint claim_times (n : nat) (dev : rift_tracked_device_priv)
    (dev_info : rift_tracked_device_exposure_info) : rift_tracked_device_priv :=
  match n with
  | O => dev
  | S n' =>
      claim_times n'
        (fst (rift_tracked_device_exposure_claim dev dev_info)) dev_info
  end.

(** An IMU sample: local time, raw device stamp, [dt] and the three
    vectors. *)
Record imu_sample := mk_sample {
  sample_local_ts : Z;
  sample_device_ts : Z;
  sample_dt : scalar;
  sample_ang_vel : vec3f;
  sample_accel : vec3f;
  sample_mag : vec3f
}.

Definition imu_update (dev : rift_tracked_device_priv) (x : imu_sample) :=
  rift_tracked_device_imu_update dev (sample_local_ts x) (sample_device_ts x)
    (sample_dt x) (sample_ang_vel x) (sample_accel x) (sample_mag x).

(** A device fed IMU samples one after the other. *)
Definition imu_updates (dev : rift_tracked_device_priv)
    (samples : list imu_sample) : rift_tracked_device_priv :=
  fold_left imu_update samples dev.

(** The microseconds between raw stamps, each difference taken modulo
    [2^32], from the stamp [prev] on. *)
Fixpoint elapsed_us (prev : Z) (stamps : list Z) : Z :=
  match stamps with
  | [] => 0
  | ts :: rest => u32_sub ts prev + elapsed_us ts rest
  end.

(** The largest step between stamps that the clock extension takes
    exactly: the largest [d] with [d * 1000 < 2^32]. *)
Definition MAX_EXACT_STEP_US : Z := 4294967.

Fixpoint steps_exact (prev : Z) (stamps : list Z) : Prop :=
  match stamps with
  | [] => True
  | ts :: rest =>
      0 <= ts < 2 ^ 32 /\ u32_sub ts prev <= MAX_EXACT_STEP_US
      /\ steps_exact ts rest
  end.

(** The calls made on a device from outside. *)
Inductive device_op :=
| Op_imu_update (x : imu_sample)
| Op_new_exposure (dev_info : rift_tracked_device_exposure_info)
| Op_claim (dev_info : rift_tracked_device_exposure_info)
| Op_release (dev_info : rift_tracked_device_exposure_info)
| Op_frame_release (exposure_info : rift_tracker_exposure_info)
| Op_pose_update (local_ts frame_start_local_ts : Z)
    (exposure_info : rift_tracker_exposure_info) (score : rift_pose_metrics)
    (model_pose : posef)
| Op_latest_pose (dev_info : rift_tracked_device_exposure_info)
| Op_view_pose
| Op_model_pose
| Op_debug_printf (sinks : bool).

Definition device_step (dev : rift_tracked_device_priv) (op : device_op)
  : rift_tracked_device_priv :=
  match op with
  | Op_imu_update x => imu_update dev x
  | Op_new_exposure dev_info =>
      rift_tracked_device_send_imu_debug
        (fst (rift_tracked_device_on_new_exposure dev dev_info))
  | Op_claim dev_info => fst (rift_tracked_device_exposure_claim dev dev_info)
  | Op_release dev_info =>
      fst (rift_tracked_device_exposure_release_locked dev dev_info)
  | Op_frame_release exposure_info =>
      fst (rift_tracked_device_frame_release dev exposure_info)
  | Op_pose_update local_ts frame_start_local_ts exposure_info score model_pose =>
      fst (rift_tracked_device_model_pose_update dev local_ts
             frame_start_local_ts exposure_info score model_pose)
  | Op_latest_pose dev_info =>
      fst (fst (rift_tracked_device_get_latest_exposure_info_pose dev dev_info))
  | Op_view_pose => fst (rift_tracked_device_get_view_pose dev)
  | Op_model_pose => fst (rift_tracked_device_get_model_pose dev)
  | Op_debug_printf sinks => rift_tracked_device_send_debug_printf sinks dev
  end.

Definition device_run (dev : rift_tracked_device_priv) (ops : list device_op)
  : rift_tracked_device_priv :=
  fold_left device_step ops dev.

(** ** Well-formed devices *)

(** A slot's counts are in order and its report array has
    [RIFT_MAX_SENSORS] entries. *)
Definition slot_ok (slot : rift_tracker_pose_delay_slot) : Prop :=
  0 <= use_count slot
  /\ 0 <= n_used_reports slot <= n_pose_reports slot
  /\ n_pose_reports slot <= RIFT_MAX_SENSORS
  /\ Z.of_nat (length (pose_reports slot)) = RIFT_MAX_SENSORS.

(** The delay-slot table has its three slots, each carrying its index as
    [slot_id], and the cursor points at one of them; the pending IMU
    observations fit their array; and the extended clock, once it has left
    0, agrees with the stored raw stamp. *)
Definition device_ok (dev : rift_tracked_device_priv) : Prop :=
  slots_ok dev
  /\ (forall i slot, delay_slots dev !! i = Some slot ->
                     slot_id slot = Z.of_nat i /\ slot_ok slot)
  /\ Z.of_nat (length (pending_imu_observations dev))
     < RIFT_MAX_PENDING_IMU_OBSERVATIONS
  /\ 0 <= device_time_ns dev
  /\ (device_time_ns dev <> 0 -> clock_ok dev).

(** The memory [rift_tracker_add_device] finds a device entry in, as far
    as it relies on it: three slots with counts in order, a cursor inside
    the table, and room in the array of pending IMU observations. *)
Definition entry_ok (dev : rift_tracked_device_priv) : Prop :=
  slots_ok dev
  /\ (forall i slot, delay_slots dev !! i = Some slot -> slot_ok slot)
  /\ Z.of_nat (length (pending_imu_observations dev))
     < RIFT_MAX_PENDING_IMU_OBSERVATIONS.

(** A tracker context: the device array has fewer than [2^8] entries, as
    many as its exposure record, and the devices in use are well
    formed. *)
Definition ctx_ok (ctx : rift_tracker_ctx) : Prop :=
  0 <= ctx_n_devices ctx <= Z.of_nat (length (ctx_devices ctx))
  /\ Z.of_nat (length (ctx_devices ctx)) < 2 ^ 8
  /\ length (devices (ctx_exposure_info ctx)) = length (ctx_devices ctx)
  /\ forall j dev, Z.of_nat j < ctx_n_devices ctx ->
                   ctx_devices ctx !! j = Some dev -> device_ok dev.

End TrackerContext.

(** ** A concrete tracker for worked examples

    The sample instance, with a delay-slot query that answers like the
    query for the current pose and leaves the filter alone, a pose
    inversion that negates the position, and an output filter that starts
    with no previous output. *)
Module Scenario.

#[local] Existing Instance Sample.Z_float.
#[local] Existing Instance Sample.ext.

Definition pose_inverse (p : posef) : posef :=
  mk_posef (mk_vec3f (- vx (pos p)) (- vy (pos p)) (- vz (pos p))) (orient p).

#[local] Instance dev_ext : DeviceExternals := {|
  rift_kalman_6dof_get_delay_slot_pose_at :=
    fun calls time slot => (calls, Sample.estimate calls time);
  oposef_inverse := pose_inverse;
  exp_filter_pose_init := None
|}.

(** A stream of 8-byte frames that holds no frame and has none free. *)
Definition stream_without_frames : rift_sensor_uvc_stream :=
  mk_stream 4 4 2 8 0 0 0 false [Sample.blank_frame 8] [] None true.

(** Submitting a transfer fails twice and then succeeds. *)
Definition fails_twice (i : Z) : Z := if i <? 2 then -1 else 0.

(** An IMU sample with raw stamp [device_ts]. *)
Definition imu_at (device_ts : Z) : imu_sample :=
  mk_sample 0 device_ts 0 vec3f_zero vec3f_zero vec3f_zero.

(** Three exposures are outstanding, each slot claimed once; slot 0 has
    delivered a used report.  The clock stands at 4000 ns, the last raw
    stamp being 4 us. *)
Definition busy_device : rift_tracked_device_priv :=
  Sample.device_at 4 4000 0 3900
    [Sample.busy_slot 0 1000 1 1 1; Sample.busy_slot 1 2000 1 0 0;
     Sample.busy_slot 2 3000 1 0 0].

(** A device entry in zeroed memory. *)
Definition zeroed_entry : rift_tracked_device_priv :=
  mk_dev 0 [] 0 [Sample.fresh_slot 0; Sample.fresh_slot 0; Sample.fresh_slot 0]
    Sample.no_offset Sample.no_offset Sample.no_offset 0 0 0 0 Sample.no_offset
    0 Sample.no_offset Sample.no_offset None [].

(** The exposure record of a frame taken when slot 0 of the busy device
    was stamped 1000 ns. *)
Definition frame_record : rift_tracker_exposure_info :=
  mk_exposure_info 0 0 3 0 1
    [Sample.info_for 0 1000 true; Sample.info_for (-1) 0 false].

(** The record of the exposure after it, which holds slot 1, stamped
    2000 ns. *)
Definition next_frame_record : rift_tracker_exposure_info :=
  mk_exposure_info 0 0 4 0 1
    [Sample.info_for 1 2000 true; Sample.info_for (-1) 0 false].

(** A tracker with two sensors and room for two devices, the first of
    which is in use. *)
Definition tracker : rift_tracker_ctx :=
  mk_ctx true frame_record 2 [busy_device; zeroed_entry] 1.

Definition no_sinks (i : nat) : bool := false.

End Scenario.

(** * Properties of the UVC stream assembler *)

Section UvcProperties.

Implicit Types (s : rift_sensor_uvc_stream) (payload : list byte).

(** The flag tests of the header are tests of single bits. *)
Lemma info_flag_bits payload :
  hdr_error payload = Z.testbit (bmHeaderInfo payload) 6
  /\ hdr_is_eof payload = Z.testbit (bmHeaderInfo payload) 1
  /\ hdr_have_pts payload = Z.testbit (bmHeaderInfo payload) 2
  /\ hdr_frame_id payload = Z.b2z (Z.testbit (bmHeaderInfo payload) 0).
Proof.
  unfold hdr_error, hdr_is_eof, hdr_have_pts, hdr_frame_id, info_flag,
    bmHeaderInfo, byte_at.
  generalize (nth 1 payload x00). intros b.
  destruct b; vm_compute; auto.
Qed.

Lemma pts_step_frame s payload :
  let s1 := fst (pts_step s payload) in
  frame_size s1 = frame_size s /\ frame_collected s1 = frame_collected s
  /\ frame_id s1 = frame_id s /\ skip_frame s1 = skip_frame s
  /\ alloced_frames s1 = alloced_frames s /\ free_frames s1 = free_frames s
  /\ cur_frame s1 = cur_frame s /\ frame_cb s1 = frame_cb s.
Proof.
  unfold pts_step.
  destruct (hdr_have_pts payload && negb (frame_collected s =? 0)
            && negb (payload_pts payload =? cur_pts s)); cbn; auto 10.
Qed.

(** What the start of a new frame leaves of the byte count: unchanged when
    the parity bit matches, and 0 otherwise. *)
Lemma new_frame_step_frame s time payload s2 ev :
  new_frame_step s time payload = Some (s2, ev) ->
  frame_size s2 = frame_size s /\ frame_cb s2 = frame_cb s
  /\ (s2 = s \/ frame_collected s2 = 0).
Proof.
  unfold new_frame_step.
  destruct (hdr_frame_id payload =? frame_id s).
  - intros [= <- <-]. auto.
  - destruct (acquire_frame s) as [[f|] free].
    + destruct (alloced_frames s !! f) as [fr|]; [|discriminate].
      destruct (data_size fr =? frame_size s); [|discriminate].
      intros [= <- <-]. cbn. auto.
    + intros [= <- <-]. cbn. auto.
Qed.

Lemma frame_start_steps_frame s time payload s2 ev :
  frame_start_steps s time payload = Some (s2, ev) ->
  frame_size s2 = frame_size s /\ frame_cb s2 = frame_cb s
  /\ (frame_collected s2 = frame_collected s \/ frame_collected s2 = 0).
Proof.
  unfold frame_start_steps.
  pose proof (pts_step_frame s payload) as Hp.
  destruct (pts_step s payload) as [s1 ev1]. cbn in Hp.
  destruct Hp as (Hsz & Hfc & _ & _ & _ & _ & _ & Hcb).
  destruct (new_frame_step s1 time payload) as [[s2' ev2]|] eqn:Hn; [|discriminate].
  intros [= <- <-].
  apply new_frame_step_frame in Hn as (Hsz2 & Hcb2 & Hfc2).
  repeat split; try congruence.
  destruct Hfc2 as [-> | ->]; auto.
Qed.

(** A payload whose parity bit matches the stream's starts no frame: the
    frame-start steps change at most [cur_pts]. *)
Lemma frame_start_steps_same_parity s time payload :
  hdr_frame_id payload = frame_id s ->
  exists ev, frame_start_steps s time payload = Some (fst (pts_step s payload), ev).
Proof.
  intros Hid. unfold frame_start_steps.
  pose proof (pts_step_frame s payload) as Hp.
  destruct (pts_step s payload) as [s1 ev1]. cbn in Hp |- *.
  destruct Hp as (_ & _ & Hfid & _).
  unfold new_frame_step. rewrite Hfid, <- Hid, Z.eqb_refl. eauto.
Qed.

(** The cases of the append step. *)
Lemma append_step_skips s payload n :
  cur_frame s = None \/ skip_frame s = true ->
  append_step s payload n = Some (s, []).
Proof.
  unfold append_step. intros [H | H]; rewrite H; [reflexivity|].
  destruct (cur_frame s); reflexivity.
Qed.

Lemma append_step_overflow s payload n f :
  cur_frame s = Some f -> skip_frame s = false ->
  frame_size s < frame_collected s + n ->
  append_step s payload n
  = Some (s, [Log_overflow (frame_collected s) n (frame_size s)]).
Proof.
  unfold append_step. intros -> -> H.
  apply Z.ltb_lt in H. rewrite H. reflexivity.
Qed.

Lemma append_step_fits s payload n f s' ev :
  cur_frame s = Some f -> skip_frame s = false ->
  frame_collected s + n <= frame_size s ->
  append_step s payload n = Some (s', ev) ->
  exists fr d,
    alloced_frames s !! f = Some fr
    /\ memcpy_body (data fr) (frame_collected s) payload n = Some d
    /\ frame_size s' = frame_size s
    /\ alloced_frames s'
       = <[f := mk_frame d (data_size fr) (start_ts fr) (pts fr) (stride fr)
                  (width fr) (height fr)]> (alloced_frames s)
    /\ frame_collected s'
       = (if frame_collected s + n =? frame_size s then 0
          else if hdr_is_eof payload then 0 else frame_collected s + n)
    /\ cur_frame s'
       = (if (frame_collected s + n =? frame_size s) && frame_cb s
          then None else Some f)
    /\ ev = (if (frame_collected s + n =? frame_size s) && frame_cb s
             then [Frame_cb f] else []).
Proof.
  unfold append_step. intros -> -> Hfit.
  destruct (frame_size s <? frame_collected s + n) eqn:Hlt.
  { apply Z.ltb_lt in Hlt. lia. }
  destruct (alloced_frames s !! f) as [fr|] eqn:Hfr; [|discriminate].
  destruct (memcpy_body (data fr) (frame_collected s) payload n) as [d|] eqn:Hd;
    [|discriminate].
  intros [= <- <-]. exists fr, d. cbn.
  destruct (frame_collected s + n =? frame_size s), (frame_cb s);
    cbn; repeat split; auto.
Qed.

Lemma memcpy_body_length dst off src n d :
  memcpy_body dst off src n = Some d -> length d = length dst.
Proof.
  unfold memcpy_body.
  destruct ((0 <=? off) && (0 <=? n) && (off + n <=? Z.of_nat (length dst))
            && (12 + n <=? Z.of_nat (length src))) eqn:Hc; [|discriminate].
  intros [= <-].
  apply andb_prop in Hc as [Hc H4]. apply andb_prop in Hc as [Hc H3].
  apply andb_prop in Hc as [H1 H2].
  apply Z.leb_le in H1, H2, H3, H4.
  rewrite !length_app, !length_take, !length_drop. lia.
Qed.

Lemma memcpy_body_defined dst off src n :
  0 <= off -> 0 <= n -> off + n <= Z.of_nat (length dst) ->
  12 + n <= Z.of_nat (length src) ->
  is_Some (memcpy_body dst off src n).
Proof.
  intros H1 H2 H3 H4. unfold memcpy_body.
  apply Z.leb_le in H1, H2, H3, H4. rewrite H1, H2, H3, H4. cbn. eauto.
Qed.

Lemma frame_ok_insert frames size f g fr :
  frame_ok frames size g ->
  data_size fr = size -> Z.of_nat (length (data fr)) = size ->
  frame_ok (<[f := fr]> frames) size g.
Proof.
  intros (fr0 & Hl & Hs & Hd) Hs' Hd'. unfold frame_ok.
  destruct (decide (f = g)) as [-> | Hne].
  - exists fr. rewrite list_lookup_insert_eq; [auto|].
    apply lookup_lt_Some in Hl. exact Hl.
  - exists fr0. rewrite list_lookup_insert_ne; auto.
Qed.

Lemma pts_step_ok s payload : stream_ok s -> stream_ok (fst (pts_step s payload)).
Proof.
  intros [Hb Hf].
  destruct (pts_step_frame s payload) as (Hsz & Hfc & _ & _ & Hfr & Hfree & Hcur & _).
  unfold stream_ok. rewrite Hsz, Hfc, Hfr, Hfree, Hcur. auto.
Qed.

Lemma new_frame_step_ok s time payload :
  stream_ok s ->
  exists s2 ev, new_frame_step s time payload = Some (s2, ev) /\ stream_ok s2.
Proof.
  intros [Hb Hf]. unfold new_frame_step.
  destruct (hdr_frame_id payload =? frame_id s).
  { exists s, []. split; [reflexivity | split; assumption]. }
  assert (Hstamp : forall f fr g,
             alloced_frames s !! f = Some fr ->
             data_size fr = frame_size s ->
             Z.of_nat (length (data fr)) = frame_size s ->
             frame_ok (alloced_frames s) (frame_size s) g ->
             frame_ok (<[f := stamp_frame s time (payload_pts payload) fr]>
                         (alloced_frames s)) (frame_size s) g).
  { intros f fr g _ Hs Hd Hg. apply frame_ok_insert; auto. }
  unfold acquire_frame.
  destruct (cur_frame s) as [f|] eqn:Hcur.
  - destruct (Hf f (or_introl eq_refl)) as (fr & Hl & Hs & Hd).
    rewrite Hl. apply Z.eqb_eq in Hs as Hs'. rewrite Hs'.
    eexists _, _. split; [reflexivity|].
    split; cbn; [lia|].
    intros g [[= <-] | Hin]; apply (Hstamp f fr); auto.
  - destruct (free_frames s) as [|f rest] eqn:Hfree.
    + eexists _, _. split; [reflexivity|]. split; cbn; [lia|].
      intros g [[=] | []].
    + destruct (Hf f (or_intror (or_introl eq_refl))) as (fr & Hl & Hs & Hd).
      rewrite Hl. apply Z.eqb_eq in Hs as Hs'. rewrite Hs'.
      eexists _, _. split; [reflexivity|].
      split; cbn; [lia|].
      intros g [[= <-] | Hin]; apply (Hstamp f fr); auto.
      * exists fr; auto.
      * apply Hf. right. right. exact Hin.
Qed.

Lemma frame_start_steps_ok s time payload :
  stream_ok s ->
  exists s2 ev, frame_start_steps s time payload = Some (s2, ev) /\ stream_ok s2.
Proof.
  intros Hok. unfold frame_start_steps.
  pose proof (pts_step_ok s payload Hok) as Hok1.
  destruct (pts_step s payload) as [s1 ev1]. cbn in Hok1.
  destruct (new_frame_step_ok s1 time payload Hok1) as (s2 & ev2 & -> & Hok2).
  eauto.
Qed.

Lemma append_step_ok s payload n :
  stream_ok s -> 0 <= n -> 12 + n <= Z.of_nat (length payload) ->
  exists s' ev, append_step s payload n = Some (s', ev) /\ stream_ok s'.
Proof.
  intros Hok Hn Hlen.
  destruct (cur_frame s) as [f|] eqn:Hcur.
  2:{ exists s, []. split; [|exact Hok]. apply append_step_skips. auto. }
  destruct (skip_frame s) eqn:Hskip.
  { exists s, []. split; [|exact Hok]. apply append_step_skips. auto. }
  destruct (Z.lt_ge_cases (frame_size s) (frame_collected s + n)) as [Hov | Hfit].
  { eexists _, _. split; [|exact Hok]. eapply append_step_overflow; eauto. }
  destruct Hok as [Hb Hf].
  destruct (Hf f (or_introl Hcur)) as (fr & Hl & Hs & Hd).
  destruct (memcpy_body_defined (data fr) (frame_collected s) payload n)
    as [d Hcopy]; try lia.
  assert (Hrun : is_Some (append_step s payload n)).
  { unfold append_step. rewrite Hcur, Hskip.
    destruct (frame_size s <? frame_collected s + n) eqn:Hlt.
    { apply Z.ltb_lt in Hlt. lia. }
    rewrite Hl, Hcopy. eauto. }
  destruct Hrun as [[s' ev] Hrun]. exists s', ev. split; [exact Hrun|].
  destruct (append_step_fits s payload n f s' ev Hcur Hskip Hfit Hrun)
    as (fr' & d' & Hl' & Hcopy' & Hsz & Hfr & Hfc & Hcf & _).
  rewrite Hl in Hl'. injection Hl' as <-.
  rewrite Hcopy in Hcopy'. injection Hcopy' as <-.
  assert (Hfree : free_frames s' = free_frames s).
  { revert Hrun. unfold append_step. rewrite Hcur, Hskip.
    destruct (frame_size s <? frame_collected s + n); [intros [= <- _]; reflexivity|].
    rewrite Hl, Hcopy. intros [= <- _]. reflexivity. }
  split.
  - rewrite Hfc, Hsz.
    destruct (frame_collected s + n =? frame_size s); [lia|].
    destruct (hdr_is_eof payload); lia.
  - rewrite Hfr, Hsz, Hfree. intros g Hg.
    apply frame_ok_insert; cbn; auto.
    + apply Hf. destruct Hg as [Hg | Hg]; [|auto].
      left. rewrite Hcf in Hg.
      destruct ((frame_collected s + n =? frame_size s) && frame_cb s);
        [discriminate | congruence].
    + apply memcpy_body_length in Hcopy. rewrite Hcopy. exact Hd.
Qed.

(** On a well-formed stream and packet the run is defined, and it leaves
    the stream well formed. *)
Lemma process_payload_ok s time payload len :
  stream_ok s -> payload_ok payload len ->
  exists s' evs, process_payload s time payload len = Some (s', evs)
                 /\ stream_ok s'.
Proof.
  intros Hok Hp. unfold process_payload.
  destruct (len =? 0) eqn:H0; [eauto|].
  destruct (len =? 12) eqn:H12; [eauto|].
  destruct (bHeaderLength payload =? 12) eqn:Hh; cbn; [|eauto].
  destruct (hdr_error payload); [eauto|].
  apply Z.eqb_eq in Hh. apply Z.eqb_neq in H0, H12.
  destruct (frame_start_steps_ok s time payload Hok) as (s2 & ev2 & -> & Hok2).
  destruct Hp as [Hp | Hp]; [contradiction|].
  destruct (append_step_ok s2 payload (len - bHeaderLength payload) Hok2)
    as (s3 & ev3 & -> & Hok3); try lia.
  eauto.
Qed.

(** Hence the byte count stays inside the frame at all times: a
    well-formed stream digests any sequence of well-formed packets and
    stays well formed. *)
Lemma process_packets_ok packets : forall s,
  stream_ok s ->
  Forall (fun p => payload_ok (snd (fst p)) (snd p)) packets ->
  exists s' evs, process_packets s packets = Some (s', evs) /\ stream_ok s'.
Proof.
  induction packets as [|[[time payload] len] rest IH]; intros s Hok Hall.
  - exists s, []. auto.
  - apply Forall_cons in Hall as [Hp Hrest]. cbn in Hp. cbn [process_packets].
    destruct (process_payload_ok s time payload len Hok Hp)
      as (s1 & ev1 & -> & Hok1).
    destruct (IH s1 Hok1 Hrest) as (s2 & ev2 & -> & Hok2).
    eauto.
Qed.

(** The way a run that passes the header checks unfolds. *)
Lemma process_payload_accepted s time payload len :
  accepted payload len ->
  process_payload s time payload len
  = match frame_start_steps s time payload with
    | None => None
    | Some (s2, ev2) =>
        match append_step s2 payload (len - 12) with
        | None => None
        | Some (s3, ev3) => Some (s3, ev2 ++ ev3)
        end
    end.
Proof.
  intros (H0 & H12 & Hh & He). unfold process_payload.
  apply Z.eqb_neq in H0, H12. rewrite H0, H12, Hh, He. reflexivity.
Qed.

Lemma process_payload_rejected s time payload len :
  ~ accepted payload len ->
  exists evs, process_payload s time payload len = Some (s, evs)
              /\ forall f, ~ In (Frame_cb f) evs.
Proof.
  intros Hna. unfold process_payload.
  destruct (len =? 0) eqn:H0.
  { exists []. split; [reflexivity | intros f []]. }
  destruct (len =? 12) eqn:H12.
  { exists []. split; [reflexivity | intros f []]. }
  destruct (bHeaderLength payload =? 12) eqn:Hh; cbn.
  2:{ eexists. split; [reflexivity|]. intros f [[=] | []]. }
  destruct (hdr_error payload) eqn:He.
  { eexists. split; [reflexivity|]. intros f [[=] | []]. }
  exfalso. apply Hna. apply Z.eqb_neq in H0, H12. apply Z.eqb_eq in Hh.
  repeat split; auto.
Qed.

(** C6.  A payload that is empty, header-only (12 bytes), whose header
    length is not 12, or whose header carries the error bit (bit 6 of
    [bmHeaderInfo]) is ignored: the run returns the stream as it was, every
    field unchanged, and the frame callback is not called. *)
Theorem process_payload_ignores_rejected s time payload len :
  len = 0 \/ len = 12 \/ bHeaderLength payload <> 12
  \/ Z.testbit (bmHeaderInfo payload) 6 = true ->
  exists evs, process_payload s time payload len = Some (s, evs)
              /\ forall f, ~ In (Frame_cb f) evs.
Proof.
  intros H. apply process_payload_rejected.
  intros (H0 & H12 & Hh & He).
  destruct (info_flag_bits payload) as (Hbit & _).
  rewrite Hbit in He.
  destruct H as [H | [H | [H | H]]]; congruence.
Qed.

Lemma process_payload_ignores_rejected_witness :
  exists evs,
    process_payload (Sample.stream_at 8 4 true) 0
      (Sample.packet x40 [x01; x02]) 14
    = Some (Sample.stream_at 8 4 true, evs)
    /\ forall f, ~ In (Frame_cb f) evs.
Proof.
  apply process_payload_ignores_rejected.
  right. right. right. reflexivity.
Defined.

(** The end-of-frame bit resets the byte count on the runs that get as far
    as the append. *)
Lemma eof_resets_after_append s time payload len s2 f s' evs :
  reaches_append s time payload len s2 f ->
  frame_collected s2 + (len - 12) <= frame_size s2 ->
  hdr_is_eof payload = true ->
  process_payload s time payload len = Some (s', evs) ->
  frame_collected s' = 0.
Proof.
  intros (H0 & H12 & Hh & He & [ev Hst] & Hcur & Hskip) Hfit Heof.
  rewrite process_payload_accepted by (repeat split; assumption).
  rewrite Hst.
  destruct (append_step s2 payload (len - 12)) as [[s3 ev3]|] eqn:Ha;
    [|discriminate].
  intros [= <- _].
  destruct (append_step_fits _ _ _ _ _ _ Hcur Hskip Hfit Ha)
    as (_ & _ & _ & _ & _ & _ & Hfc & _).
  rewrite Hfc, Heof. destruct (_ =? _); reflexivity.
Qed.

(** C7, as the code has it.  With [frame_collected <= frame_size] before a
    payload is processed (sizes being byte counts, [0 <= frame_size]), the
    same holds after it; an append that would go past [frame_size] is
    dropped and leaves the stream, its byte count and frame buffers
    included, as the frame-start steps left it; and when the byte count
    reaches [frame_size] exactly it is reset to 0, and the frame
    callback is called and [cur_frame] cleared if a callback is registered,
    while without one nothing is called and [cur_frame] stays.  On a
    well-formed stream and packet the run is defined. *)
Theorem uvc_frame_collected_bounded s time payload len :
  0 <= frame_size s -> frame_collected s <= frame_size s ->
  (stream_ok s -> payload_ok payload len ->
   exists s' evs, process_payload s time payload len = Some (s', evs)
                  /\ stream_ok s')
  /\ forall s' evs,
      process_payload s time payload len = Some (s', evs) ->
      frame_size s' = frame_size s
      /\ frame_collected s' <= frame_size s'
      /\ (forall s2 f,
            reaches_append s time payload len s2 f ->
            frame_size s < frame_collected s2 + (len - 12) ->
            s' = s2
            /\ (hdr_frame_id payload = frame_id s ->
                frame_collected s' = frame_collected s
                /\ alloced_frames s' = alloced_frames s))
      /\ (forall s2 f,
            reaches_append s time payload len s2 f ->
            frame_collected s2 + (len - 12) = frame_size s ->
            frame_collected s' = 0
            /\ (frame_cb s = true ->
                cur_frame s' = None /\ exists ev, evs = ev ++ [Frame_cb f])
            /\ (frame_cb s = false ->
                cur_frame s' = Some f /\ forall g, ~ In (Frame_cb g) evs)).
Proof.
  intros Hsize Hbound. split; [apply process_payload_ok|].
  intros s' evs Hrun.
  assert (Hacc : accepted payload len \/ ~ accepted payload len).
  { unfold accepted.
    destruct (Z.eq_dec len 0), (Z.eq_dec len 12),
      (Z.eq_dec (bHeaderLength payload) 12), (hdr_error payload);
      intuition congruence. }
  destruct Hacc as [Hacc | Hrej].
  2:{ destruct (process_payload_rejected s time payload len Hrej) as (ev & He & _).
      rewrite He in Hrun. injection Hrun as <- <-.
      split; [reflexivity|]. split; [assumption|].
      split; intros s2 f (H0 & H12 & Hh & Herr & _); exfalso; apply Hrej;
        unfold accepted; auto. }
  rewrite process_payload_accepted in Hrun by assumption.
  destruct (frame_start_steps s time payload) as [[s2 ev2]|] eqn:Hst;
    [|discriminate].
  destruct (append_step s2 payload (len - 12)) as [[s3 ev3]|] eqn:Ha;
    [|discriminate].
  injection Hrun as <- <-.
  destruct (frame_start_steps_frame _ _ _ _ _ Hst) as (Hsz2 & Hcb2 & Hfc2).
  assert (Hb2 : frame_collected s2 <= frame_size s2) by (destruct Hfc2; lia).
  (* the append step, case by case *)
  destruct (cur_frame s2) as [f|] eqn:Hcur.
  2:{ rewrite append_step_skips in Ha by auto. injection Ha as <- <-.
      split; [assumption|]. split; [assumption|].
      split; intros s2' f' (_ & _ & _ & _ & [ev Hst'] & Hcur' & _);
        rewrite Hst in Hst'; injection Hst' as <- _; congruence. }
  destruct (skip_frame s2) eqn:Hskip.
  { rewrite append_step_skips in Ha by auto. injection Ha as <- <-.
    split; [assumption|]. split; [assumption|].
    split; intros s2' f' (_ & _ & _ & _ & [ev Hst'] & _ & Hskip');
      rewrite Hst in Hst'; injection Hst' as <- _; congruence. }
  destruct (Z.lt_ge_cases (frame_size s2) (frame_collected s2 + (len - 12)))
    as [Hov | Hfit].
  { rewrite (append_step_overflow _ _ _ f) in Ha by assumption.
    injection Ha as <- <-.
    split; [assumption|]. split; [assumption|]. split.
    - intros s2' f' (_ & _ & _ & _ & [ev Hst'] & _ & _) _.
      rewrite Hst in Hst'. injection Hst' as <- _. split; [reflexivity|].
      intros Hid.
      destruct (frame_start_steps_same_parity s time payload Hid) as [ev' Hsame].
      rewrite Hst in Hsame. injection Hsame as -> _.
      destruct (pts_step_frame s payload) as (_ & Hfc & _ & _ & Hfr & _).
      auto.
    - intros s2' f' (_ & _ & _ & _ & [ev Hst'] & _ & _) Hfull.
      rewrite Hst in Hst'. injection Hst' as <- _. lia. }
  destruct (append_step_fits _ _ _ _ _ _ Hcur Hskip Hfit Ha)
    as (fr & d & _ & _ & Hsz3 & _ & Hfc3 & Hcf3 & Hev3).
  split; [congruence|]. split.
  { rewrite Hfc3, Hsz3.
    destruct (_ =? _); [lia|]. destruct (hdr_is_eof payload); lia. }
  split.
  - intros s2' f' (_ & _ & _ & _ & [ev Hst'] & _ & _) Hov.
    rewrite Hst in Hst'. injection Hst' as <- _. lia.
  - intros s2' f' (_ & _ & _ & _ & [ev Hst'] & Hcur' & _) Hfull.
    rewrite Hst in Hst'. injection Hst' as <- _.
    rewrite Hcur in Hcur'. injection Hcur' as <-.
    assert (Hf : (frame_collected s2 + (len - 12) =? frame_size s2) = true)
      by (apply Z.eqb_eq; lia).
    rewrite Hf in Hfc3, Hcf3, Hev3. rewrite Hcb2 in Hcf3, Hev3.
    split; [exact Hfc3|]. split; intros Hcb; rewrite Hcb in Hcf3, Hev3;
      cbn in Hcf3, Hev3; (split; [exact Hcf3|]).
    + exists ev2. rewrite Hev3. reflexivity.
    + intros g Hin. rewrite Hev3, app_nil_r in Hin.
      (* the frame-start steps call no callback *)
      revert Hst Hin. unfold frame_start_steps, pts_step, new_frame_step.
      destruct (hdr_have_pts payload && negb (frame_collected s =? 0)
                && negb (payload_pts payload =? cur_pts s)); cbn.
      all: destruct (hdr_frame_id payload =? frame_id _);
        [intros [= _ <-]; cbn; intuition discriminate|].
      all: destruct (acquire_frame _) as [[h|] free];
        [destruct (_ !! h) as [fr'|]; [|discriminate];
         destruct (data_size fr' =? _); [|discriminate]|].
      all: intros [= _ <-]; cbn; destruct (0 <? _); cbn;
        intuition discriminate.
Qed.

End UvcProperties.

(** ** Worked runs of the assembler *)

Lemma sample_stream_ok size collected cb :
  0 <= collected <= Z.of_nat size ->
  stream_ok (Sample.stream_at size collected cb).
Proof.
  intros H. split; [exact H|].
  intros f Hf. exists (Sample.blank_frame size). cbn.
  rewrite length_replicate.
  destruct Hf as [[= <-] | [<- | []]]; auto.
Qed.

(** A frame of 8 bytes holding 4 takes a 4-byte body: the frame is handed
    to the callback, [cur_frame] is cleared and the count is 0 again. *)
Lemma uvc_frame_collected_bounded_witness :
  exists s' evs,
    process_payload (Sample.stream_at 8 4 true) 0
      (Sample.packet x00 [x01; x01; x01; x01]) 16 = Some (s', evs)
    /\ frame_collected s' <= frame_size s'
    /\ frame_collected s' = 0
    /\ cur_frame s' = None.
Proof.
  destruct (uvc_frame_collected_bounded (Sample.stream_at 8 4 true) 0
              (Sample.packet x00 [x01; x01; x01; x01]) 16)
    as [Hdef Hprop]; [cbn; lia | cbn; lia |].
  destruct Hdef as (s' & evs & Hrun & _).
  { apply sample_stream_ok. lia. }
  { right. cbn. lia. }
  exists s', evs. split; [exact Hrun|].
  destruct (Hprop s' evs Hrun) as (_ & Hb & _ & Hfull).
  destruct (Hfull (Sample.stream_at 8 4 true) 0%nat) as (Hz & Hcb & _).
  { unfold reaches_append. repeat split; try reflexivity; try lia.
    exists []. reflexivity. }
  { reflexivity. }
  destruct (Hcb eq_refl) as [Hcur _]. auto.
Defined.

(** C7 as stated fails where no frame callback is registered: the frame
    of 8 bytes is completed by a 4-byte body, nothing is called and
    [cur_frame] still holds the frame. *)
Lemma uvc_complete_frame_without_callback :
  frame_collected (Sample.stream_at 8 4 false) + (16 - 12)
  = frame_size (Sample.stream_at 8 4 false)
  /\ exists s',
      process_payload (Sample.stream_at 8 4 false) 0
        (Sample.packet x00 [x01; x01; x01; x01]) 16 = Some (s', [])
      /\ frame_collected s' = 0
      /\ cur_frame s' = Some 0%nat.
Proof.
  split; [reflexivity|]. eexists. split; [reflexivity|].
  split; reflexivity.
Qed.

(** C8 at a failing input.  A stream of 100-byte frames is fed three
    payloads of 30 bytes and holds 90.  The next payload passes the header
    checks, has the end-of-frame bit set and carries 20 bytes, which
    overflows the frame.  The run returns at the overflow check, before the
    end-of-frame reset: the stream is unchanged and the byte count is
    still 90.  The same payload arriving after the stream was stopped and
    started again, when no current frame is held, returns at the
    missing-frame check and leaves the count at 90 as well. *)
Theorem uvc_eof_not_reset_on_overflow :
  exists s90,
    process_packets (Sample.stream_at 100 0 true)
      [(0, Sample.packet x00 (replicate 30 x01), 42);
       (0, Sample.packet x00 (replicate 30 x01), 42);
       (0, Sample.packet x00 (replicate 30 x01), 42)] = Some (s90, [])
    /\ frame_collected s90 = 90
    /\ accepted (Sample.packet x02 (replicate 20 x01)) 32
    /\ hdr_is_eof (Sample.packet x02 (replicate 20 x01)) = true
    /\ process_payload s90 0 (Sample.packet x02 (replicate 20 x01)) 32
       = Some (s90, [Log_overflow 90 20 100])
    /\ cur_frame (rift_sensor_uvc_stream_start s90 2 true) = None
    /\ process_payload (rift_sensor_uvc_stream_start s90 2 true) 0
         (Sample.packet x02 (replicate 20 x01)) 32
       = Some (rift_sensor_uvc_stream_start s90 2 true, []).
Proof.
  eexists. split; [vm_compute; reflexivity|].
  split; [reflexivity|]. split.
  - unfold accepted. repeat split; try reflexivity; lia.
  - repeat split; vm_compute; reflexivity.
Qed.

(** * Frames of the UVC stream *)

Section UvcFrames.

Implicit Types (s : rift_sensor_uvc_stream) (payload : list byte).

(** ** Frames are neither lost nor duplicated *)

Lemma delivered_frames_app ev1 ev2 :
  delivered_frames (ev1 ++ ev2) = delivered_frames ev1 ++ delivered_frames ev2.
Proof.
  induction ev1 as [|e ev1 IH]; [reflexivity|].
  destruct e; cbn; rewrite ?IH; reflexivity.
Qed.

Lemma pts_step_delivers s payload :
  delivered_frames (snd (pts_step s payload)) = []
  /\ held_frames (fst (pts_step s payload)) = held_frames s.
Proof.
  unfold pts_step.
  destruct (hdr_have_pts payload && negb (frame_collected s =? 0)
            && negb (payload_pts payload =? cur_pts s)); auto.
Qed.

Lemma new_frame_step_delivers s time payload s2 ev :
  new_frame_step s time payload = Some (s2, ev) ->
  delivered_frames ev = [] /\ held_frames s2 = held_frames s.
Proof.
  unfold new_frame_step, acquire_frame, held_frames.
  destruct (hdr_frame_id payload =? frame_id s); [intros [= <- <-]; auto|].
  destruct (cur_frame s) as [f|] eqn:Hcur.
  - destruct (alloced_frames s !! f) as [fr|]; [|discriminate].
    destruct (data_size fr =? frame_size s); [|discriminate].
    intros [= <- <-]. cbn. destruct (0 <? frame_collected s); auto.
  - destruct (free_frames s) as [|f rest] eqn:Hfree.
    + intros [= <- <-]. cbn. rewrite delivered_frames_app.
      destruct (0 <? frame_collected s); auto.
    + destruct (alloced_frames s !! f) as [fr|]; [|discriminate].
      destruct (data_size fr =? frame_size s); [|discriminate].
      intros [= <- <-]. cbn. destruct (0 <? frame_collected s); auto.
Qed.

Lemma append_step_delivers s payload n s' ev :
  append_step s payload n = Some (s', ev) ->
  delivered_frames ev ++ held_frames s' = held_frames s.
Proof.
  unfold append_step, held_frames.
  destruct (cur_frame s) as [f|] eqn:Hcur; [|intros [= <- <-]; rewrite Hcur; auto].
  destruct (skip_frame s); [intros [= <- <-]; rewrite Hcur; auto|].
  destruct (frame_size s <? frame_collected s + n);
    [intros [= <- <-]; rewrite Hcur; auto|].
  destruct (alloced_frames s !! f) as [fr|]; [|discriminate].
  destruct (memcpy_body _ _ _ _) as [d|]; [|discriminate].
  intros [= <- <-]. cbn.
  destruct ((frame_collected s + n =? frame_size s) && frame_cb s); reflexivity.
Qed.

Lemma process_payload_delivers s time payload len s' evs :
  process_payload s time payload len = Some (s', evs) ->
  delivered_frames evs ++ held_frames s' = held_frames s.
Proof.
  unfold process_payload.
  destruct (len =? 0); [intros [= <- <-]; reflexivity|].
  destruct (len =? 12); [intros [= <- <-]; reflexivity|].
  destruct (negb (bHeaderLength payload =? 12)); [intros [= <- <-]; reflexivity|].
  destruct (hdr_error payload); [intros [= <- <-]; reflexivity|].
  unfold frame_start_steps.
  pose proof (pts_step_delivers s payload) as [Hd1 Hh1].
  destruct (pts_step s payload) as [s1 ev1]. cbn in Hd1, Hh1.
  destruct (new_frame_step s1 time payload) as [[s2 ev2]|] eqn:Hn; [|discriminate].
  apply new_frame_step_delivers in Hn as [Hd2 Hh2].
  destruct (append_step s2 payload _) as [[s3 ev3]|] eqn:Ha; [|discriminate].
  apply append_step_delivers in Ha.
  intros [= <- <-].
  rewrite !delivered_frames_app, Hd1, Hd2. cbn. congruence.
Qed.

Lemma process_packets_delivers packets : forall s s' evs,
  process_packets s packets = Some (s', evs) ->
  delivered_frames evs ++ held_frames s' = held_frames s.
Proof.
  induction packets as [|[[time payload] len] rest IH]; intros s s' evs.
  - intros [= <- <-]. reflexivity.
  - cbn [process_packets].
    destruct (process_payload s time payload len) as [[s1 ev1]|] eqn:H1;
      [|discriminate].
    destruct (process_packets s1 rest) as [[s2 ev2]|] eqn:H2; [|discriminate].
    intros [= <- <-].
    apply process_payload_delivers in H1. apply IH in H2.
    rewrite delivered_frames_app, <- app_assoc. congruence.
Qed.

(** X1.  Whatever packets arrive, the frames handed to the callback,
    followed by the frames the stream still holds, are the frames it held
    before, in the same order: the assembler neither loses a frame nor hands
    one out twice, and a frame handed out is no longer captured into.  On a
    well-formed stream and well-formed packets the run is defined. *)
Theorem uvc_frames_conserved s packets :
  stream_ok s ->
  Forall (fun p => payload_ok (snd (fst p)) (snd p)) packets ->
  exists s' evs,
    process_packets s packets = Some (s', evs)
    /\ delivered_frames evs ++ held_frames s' = held_frames s
    /\ (forall f, In f (delivered_frames evs) -> In f (held_frames s))
    /\ (length (delivered_frames evs) <= length (held_frames s))%nat.
Proof.
  intros Hok Hall.
  destruct (process_packets_ok packets s Hok Hall) as (s' & evs & Hrun & _).
  exists s', evs. split; [exact Hrun|].
  apply process_packets_delivers in Hrun.
  split; [exact Hrun|]. rewrite <- Hrun. split.
  - intros f Hf. apply in_or_app. auto.
  - rewrite length_app. lia.
Qed.

(** ** A camera frame sent in packets arrives intact *)

Lemma payload_body_length payload len :
  12 <= len <= Z.of_nat (length payload) ->
  Z.of_nat (length (payload_body payload len)) = len - 12.
Proof.
  intros H. unfold payload_body. rewrite length_take, length_drop. lia.
Qed.

Lemma memcpy_body_spec dst off src n d :
  memcpy_body dst off src n = Some d ->
  d = take (Z.to_nat off) dst ++ payload_body src (n + 12)
      ++ drop (Z.to_nat (off + n)) dst.
Proof.
  unfold memcpy_body, payload_body.
  destruct (_ && _); [|discriminate]. intros [= <-].
  replace (n + 12 - 12) with n by lia. reflexivity.
Qed.

(** One packet of the frame being captured. *)
Lemma process_chunk s time payload len f fr :
  stream_ok s -> cur_frame s = Some f -> skip_frame s = false ->
  alloced_frames s !! f = Some fr ->
  chunk_ok (frame_id s) (time, payload, len) ->
  frame_collected s + (len - 12) <= frame_size s ->
  exists s' evs,
    process_payload s time payload len = Some (s', evs)
    /\ delivered_frames evs
       = (if (frame_collected s + (len - 12) =? frame_size s) && frame_cb s
          then [f] else [])
    /\ frame_collected s'
       = (if frame_collected s + (len - 12) =? frame_size s then 0
          else frame_collected s + (len - 12))
    /\ cur_frame s'
       = (if (frame_collected s + (len - 12) =? frame_size s) && frame_cb s
          then None else Some f)
    /\ skip_frame s' = false /\ frame_id s' = frame_id s
    /\ frame_size s' = frame_size s /\ frame_cb s' = frame_cb s
    /\ free_frames s' = free_frames s
    /\ alloced_frames s'
       = <[f := mk_frame
                  (take (Z.to_nat (frame_collected s)) (data fr)
                   ++ payload_body payload len
                   ++ drop (Z.to_nat (frame_collected s + (len - 12))) (data fr))
                  (data_size fr) (start_ts fr) (pts fr) (stride fr) (width fr)
                  (height fr)]> (alloced_frames s).
Proof.
  intros Hok Hcur Hskip Hfr (Hacc & Hlen & Hid & Heof) Hfit. cbn in *.
  rewrite process_payload_accepted by exact Hacc.
  destruct (frame_start_steps_same_parity s time payload Hid) as [ev1 Hst].
  rewrite Hst.
  assert (Hev1 : delivered_frames ev1 = []).
  { revert Hst. unfold frame_start_steps.
    pose proof (pts_step_delivers s payload) as [Hd _].
    destruct (pts_step s payload) as [s1 e1]. cbn in Hd |- *.
    destruct (new_frame_step s1 time payload) as [[s2 e2]|] eqn:Hn; [|discriminate].
    apply new_frame_step_delivers in Hn as [Hd2 _].
    intros [= _ <-]. rewrite delivered_frames_app, Hd, Hd2. reflexivity. }
  destruct (pts_step_frame s payload)
    as (Hsz & Hfc & Hfid & Hsk & Hfrs & Hfree & Hcf & Hcb).
  cbn zeta in Hsz, Hfc, Hfid, Hsk, Hfrs, Hfree, Hcf, Hcb.
  set (s1 := fst (pts_step s payload)) in *.
  destruct Hok as [Hb Hf].
  destruct (Hf f (or_introl Hcur)) as (fr0 & Hl & Hs & Hd).
  rewrite Hfr in Hl. injection Hl as <-.
  destruct (memcpy_body_defined (data fr) (frame_collected s1) payload (len - 12))
    as [d Hcopy]; try lia.
  unfold append_step. rewrite Hcf, Hcur, Hsk, Hskip, Hsz, Hfc.
  destruct (frame_size s <? frame_collected s + (len - 12)) eqn:Hlt.
  { apply Z.ltb_lt in Hlt. lia. }
  rewrite Hfrs, Hfr. rewrite Hfc in Hcopy. rewrite Hcopy.
  apply memcpy_body_spec in Hcopy.
  replace (len - 12 + 12) with len in Hcopy by lia. subst d.
  rewrite Hcb, Heof, Hfree, Hfid.
  eexists _, _. split; [reflexivity|]. cbn.
  rewrite delivered_frames_app, Hev1. cbn.
  destruct (frame_collected s + (len - 12) =? frame_size s), (frame_cb s);
    cbn; repeat apply conj; reflexivity.
Qed.

Lemma chunk_body_positive fid p :
  chunk_ok fid p -> 0 < Z.of_nat (length (packet_body p)).
Proof.
  intros ((H0 & H12 & _) & Hlen & _). unfold packet_body.
  rewrite payload_body_length by exact Hlen. lia.
Qed.

Lemma bodies_cons p rest :
  Z.of_nat (length (bodies (p :: rest)))
  = Z.of_nat (length (packet_body p)) + Z.of_nat (length (bodies rest)).
Proof. unfold bodies. cbn. rewrite length_app. lia. Qed.

Lemma bodies_positive fid rest :
  rest <> [] -> Forall (chunk_ok fid) rest -> 0 < Z.of_nat (length (bodies rest)).
Proof.
  destruct rest as [|p rest]; [congruence|]. intros _ Hall.
  apply Forall_cons in Hall as [Hp _]. rewrite bodies_cons.
  apply chunk_body_positive in Hp. lia.
Qed.

(** The packets that complete the frame being captured: the bytes
    collected so far stay, and the bodies follow them in order. *)
Lemma append_run f : forall packets s fr,
  stream_ok s -> cur_frame s = Some f -> skip_frame s = false ->
  alloced_frames s !! f = Some fr ->
  packets <> [] ->
  Forall (chunk_ok (frame_id s)) packets ->
  frame_collected s + Z.of_nat (length (bodies packets)) = frame_size s ->
  exists s' evs fr',
    process_packets s packets = Some (s', evs)
    /\ delivered_frames evs = (if frame_cb s then [f] else [])
    /\ frame_collected s' = 0
    /\ cur_frame s' = (if frame_cb s then None else Some f)
    /\ free_frames s' = free_frames s
    /\ alloced_frames s' !! f = Some fr'
    /\ data fr' = take (Z.to_nat (frame_collected s)) (data fr) ++ bodies packets
    /\ start_ts fr' = start_ts fr /\ pts fr' = pts fr
    /\ stride fr' = stride fr /\ width fr' = width fr /\ height fr' = height fr.
Proof.
  induction packets as [|[[time payload] len] rest IH]; [congruence|].
  intros s fr Hok Hcur Hskip Hfr _ Hall Hsum.
  apply Forall_cons in Hall as [Hp Hrest].
  pose proof (chunk_body_positive _ _ Hp) as Hpos.
  pose proof Hp as (Hacc & Hlen & Hid & Heof). cbn in Hacc, Hlen, Hid, Heof.
  rewrite bodies_cons in Hsum. unfold packet_body in Hsum, Hpos. cbn in Hsum, Hpos.
  rewrite payload_body_length in Hsum, Hpos by exact Hlen.
  assert (Hflen : (f < length (alloced_frames s))%nat)
    by (apply lookup_lt_Some in Hfr; exact Hfr).
  destruct (proj2 Hok f (or_introl Hcur)) as (fr0 & Hl & Hs & Hd).
  rewrite Hfr in Hl. injection Hl as <-.
  destruct (process_chunk s time payload len f fr Hok Hcur Hskip Hfr Hp)
    as (s1 & ev1 & Hrun & Hdel & Hfc & Hcf & Hsk & Hfid & Hsz & Hcb & Hfree & Hfrs);
    [lia|].
  destruct (process_payload_ok s time payload len Hok) as (s1' & ev1' & Hrun' & Hok1);
    [right; lia|].
  rewrite Hrun in Hrun'. injection Hrun' as <- <-.
  cbn [process_packets]. rewrite Hrun.
  destruct rest as [|p2 rest].
  - (* the last packet fills the frame *)
    unfold bodies in Hsum. cbn in Hsum.
    assert (Hfull : (frame_collected s + (len - 12) =? frame_size s) = true)
      by (apply Z.eqb_eq; lia).
    rewrite Hfull in Hdel, Hfc, Hcf. cbn in Hdel, Hcf. cbn [process_packets].
    eexists _, _, _. split; [reflexivity|].
    rewrite app_nil_r. split; [exact Hdel|]. split; [exact Hfc|].
    split; [exact Hcf|]. split; [exact Hfree|].
    split; [rewrite Hfrs; apply list_lookup_insert_eq; exact Hflen|].
    cbn. unfold bodies, packet_body. cbn. rewrite app_nil_r.
    rewrite drop_ge by lia. rewrite app_nil_r. repeat apply conj; reflexivity.
  - (* more packets follow *)
    pose proof (bodies_positive (frame_id s) (p2 :: rest)) as Hmore.
    specialize (Hmore ltac:(congruence) Hrest).
    assert (Hnot : (frame_collected s + (len - 12) =? frame_size s) = false)
      by (apply Z.eqb_neq; lia).
    rewrite Hnot in Hdel, Hfc, Hcf. cbn in Hdel, Hcf.
    set (fr1 := mk_frame
                  (take (Z.to_nat (frame_collected s)) (data fr)
                   ++ payload_body payload len
                   ++ drop (Z.to_nat (frame_collected s + (len - 12))) (data fr))
                  (data_size fr) (start_ts fr) (pts fr) (stride fr) (width fr)
                  (height fr)) in *.
    destruct (IH s1 fr1) as (s' & evs & fr' & Hrun2 & Hdel2 & Hfc2 & Hcf2 & Hfree2
                               & Hl2 & Hdata & Hmeta);
      try assumption.
    + rewrite Hfrs. apply list_lookup_insert_eq. exact Hflen.
    + congruence.
    + rewrite Hfid. exact Hrest.
    + rewrite Hfc, Hsz. lia.
    + rewrite Hrun2. exists s', (ev1 ++ evs), fr'.
      split; [reflexivity|].
      rewrite delivered_frames_app, Hdel, Hdel2, Hcb. split; [reflexivity|].
      split; [exact Hfc2|]. split; [rewrite Hcf2, Hcb; reflexivity|].
      split; [congruence|]. split; [exact Hl2|].
      split; [|exact Hmeta].
      rewrite Hdata, Hfc. cbn.
      rewrite (app_assoc (take _ (data fr))).
      rewrite take_app_length'.
      * unfold bodies, packet_body. cbn. rewrite <- app_assoc. reflexivity.
      * rewrite length_app, length_take.
        pose proof (payload_body_length payload len Hlen).
        pose proof (proj1 Hok). lia.
Qed.

Lemma pts_step_geometry s payload :
  s_stride (fst (pts_step s payload)) = s_stride s
  /\ s_width (fst (pts_step s payload)) = s_width s
  /\ s_height (fst (pts_step s payload)) = s_height s.
Proof.
  unfold pts_step.
  destruct (hdr_have_pts payload && negb (frame_collected s =? 0)
            && negb (payload_pts payload =? cur_pts s)); auto.
Qed.

(** After the frame-start steps of a payload the same payload starts no
    frame again. *)
Lemma frame_start_steps_settled s time payload s2 ev2 :
  hdr_frame_id payload <> frame_id s ->
  frame_start_steps s time payload = Some (s2, ev2) ->
  frame_start_steps s2 time payload = Some (s2, [])
  /\ frame_id s2 = hdr_frame_id payload /\ frame_collected s2 = 0
  /\ delivered_frames ev2 = [].
Proof.
  intros Hne. unfold frame_start_steps at 1.
  pose proof (pts_step_frame s payload) as Hp.
  pose proof (pts_step_delivers s payload) as [Hd1 _].
  destruct (pts_step s payload) as [s1 ev1]. cbn in Hp, Hd1.
  destruct Hp as (_ & _ & Hfid & _).
  destruct (new_frame_step s1 time payload) as [[s2' e2]|] eqn:Hn; [|discriminate].
  intros [= <- <-].
  pose proof (new_frame_step_delivers _ _ _ _ _ Hn) as [Hd2 _].
  assert (Hs2 : frame_id s2' = hdr_frame_id payload /\ frame_collected s2' = 0).
  { revert Hn. unfold new_frame_step. rewrite Hfid.
    destruct (hdr_frame_id payload =? frame_id s) eqn:He;
      [apply Z.eqb_eq in He; contradiction|].
    destruct (acquire_frame s1) as [[g|] free].
    - destruct (alloced_frames s1 !! g) as [fr|]; [|discriminate].
      destruct (data_size fr =? frame_size s1); [|discriminate].
      intros [= <- _]. auto.
    - intros [= <- _]. auto. }
  destruct Hs2 as [Hid2 Hfc2].
  split; [|rewrite delivered_frames_app, Hd1, Hd2; auto].
  unfold frame_start_steps, pts_step. rewrite Hfc2. cbn.
  rewrite andb_false_r. cbn.
  unfold new_frame_step. rewrite Hid2, Z.eqb_refl. reflexivity.
Qed.

(** X2.  A camera frame that arrives whole.  The first packet carries the
    parity bit the stream does not have and so starts a frame; the stream
    captures into the frame it still holds, if any, and else into the top of
    the free stack.  When the packets all carry that parity bit and no end
    mark, and their bodies add up to the frame size, the frame's buffer ends
    up holding the bodies in order, whatever it held before; the frame is
    stamped with the clock and presentation time of the first packet and
    the stream's geometry; and it is handed to the callback, once, if one
    is registered. *)
Theorem uvc_frame_assembled s time payload len rest f free fr :
  stream_ok s ->
  acquire_frame s = (Some f, free) ->
  alloced_frames s !! f = Some fr ->
  hdr_frame_id payload <> frame_id s ->
  Forall (chunk_ok (hdr_frame_id payload)) ((time, payload, len) :: rest) ->
  Z.of_nat (length (bodies ((time, payload, len) :: rest))) = frame_size s ->
  exists s' evs fr',
    process_packets s ((time, payload, len) :: rest) = Some (s', evs)
    /\ delivered_frames evs = (if frame_cb s then [f] else [])
    /\ alloced_frames s' !! f = Some fr'
    /\ data fr' = bodies ((time, payload, len) :: rest)
    /\ start_ts fr' = time /\ pts fr' = payload_pts payload
    /\ stride fr' = s_stride s /\ width fr' = s_width s
    /\ height fr' = s_height s
    /\ frame_collected s' = 0
    /\ held_frames s' = (if frame_cb s then free else f :: free).
Proof.
  intros Hok Hacq Hfr Hne Hall Hsum.
  pose proof Hall as Hall'. apply Forall_cons in Hall' as [Hp _].
  pose proof Hp as (Hacc & Hlen & _ & _). cbn in Hacc, Hlen.
  destruct (frame_start_steps_ok s time payload Hok) as (s2 & ev2 & Hst & Hok2).
  destruct (frame_start_steps_settled s time payload s2 ev2 Hne Hst)
    as (Hst2 & Hid2 & Hfc2 & Hdel2).
  (* the state the frame-start steps leave *)
  assert (Hs2 : cur_frame s2 = Some f /\ skip_frame s2 = false
                /\ free_frames s2 = free /\ frame_size s2 = frame_size s
                /\ frame_cb s2 = frame_cb s
                /\ alloced_frames s2 !! f
                   = Some (stamp_frame s time (payload_pts payload) fr)).
  { revert Hst. unfold frame_start_steps.
    pose proof (pts_step_frame s payload) as Hpf.
    pose proof (pts_step_geometry s payload) as Hgeo.
    destruct (pts_step s payload) as [s1 ev1]. cbn in Hpf, Hgeo.
    destruct Hpf as (Hsz & _ & Hfid & _ & Hfrs & Hfree & Hcf & Hcb).
    unfold new_frame_step. rewrite Hfid.
    destruct (hdr_frame_id payload =? frame_id s) eqn:He;
      [apply Z.eqb_eq in He; contradiction|].
    assert (Hacq1 : acquire_frame s1 = (Some f, free))
      by (unfold acquire_frame in *; rewrite Hcf, Hfree; exact Hacq).
    rewrite Hacq1, Hfrs, Hfr.
    destruct (data_size fr =? frame_size s1); [|discriminate].
    intros [= <- _]. cbn. rewrite Hsz, Hcb.
    repeat apply conj; try reflexivity.
    unfold stamp_frame. destruct Hgeo as (-> & -> & ->).
    apply list_lookup_insert_eq. apply lookup_lt_Some in Hfr. exact Hfr. }
  destruct Hs2 as (Hcur2 & Hskip2 & Hfree2 & Hsz2 & Hcb2 & Hfr2).
  destruct (append_run f ((time, payload, len) :: rest) s2
              (stamp_frame s time (payload_pts payload) fr))
    as (s' & evs & fr' & Hrun & Hdel & Hfc & Hcf & Hfree & Hl & Hdata & Hmeta);
    try assumption; try congruence.
  { rewrite Hfc2, Hsz2. lia. }
  cbn [process_packets] in Hrun |- *.
  rewrite process_payload_accepted in Hrun |- * by exact Hacc.
  rewrite Hst2 in Hrun. rewrite Hst.
  destruct (append_step s2 payload (len - 12)) as [[s3 ev3]|]; [|discriminate].
  cbn [app] in Hrun.
  destruct (process_packets s3 rest) as [[s4 ev4]|]; [|discriminate].
  injection Hrun as <- <-.
  exists s4, ((ev2 ++ ev3) ++ ev4), fr'. split; [reflexivity|].
  rewrite Hcb2 in Hdel, Hcf.
  split. { rewrite <- app_assoc, delivered_frames_app, Hdel2. exact Hdel. }
  split; [exact Hl|].
  split. { rewrite Hdata, Hfc2. reflexivity. }
  destruct Hmeta as (-> & -> & -> & -> & ->). cbn.
  repeat apply conj; try reflexivity; try assumption.
  unfold held_frames. rewrite Hcf, Hfree, Hfree2.
  destruct (frame_cb s); reflexivity.
Qed.

(** ** A frame without a buffer is skipped in full *)

Lemma skipping_ignores_packet s time payload len :
  skip_frame s = true -> frame_collected s = 0 ->
  hdr_frame_id payload = frame_id s ->
  exists evs, process_payload s time payload len = Some (s, evs)
              /\ delivered_frames evs = [].
Proof.
  intros Hskip Hfc Hid. unfold process_payload.
  destruct (len =? 0); [eauto|]. destruct (len =? 12); [eauto|].
  destruct (negb (bHeaderLength payload =? 12)); [eauto|].
  destruct (hdr_error payload); [eauto|].
  unfold frame_start_steps, pts_step. rewrite Hfc. cbn.
  rewrite andb_false_r. cbn.
  unfold new_frame_step. rewrite Hid, Z.eqb_refl.
  rewrite append_step_skips by auto. eauto.
Qed.

(** X3.  When a camera frame starts (the parity bit flips) and the stream
    holds no frame and the free stack is empty, the stream logs it, sets
    [skip_frame] and captures nothing.  From then on, and in any state with
    [skip_frame] set and nothing collected, which is also what releasing a
    frame in the meantime leaves, the packets of that camera frame are
    dropped: they leave the stream as it is and no frame is delivered,
    whatever they carry. *)
Theorem uvc_frame_skipped s time payload len :
  accepted payload len ->
  hdr_frame_id payload <> frame_id s ->
  cur_frame s = None -> free_frames s = [] ->
  (exists s1 evs,
      process_payload s time payload len = Some (s1, evs)
      /\ In Log_no_frame evs /\ delivered_frames evs = []
      /\ skip_frame s1 = true /\ frame_collected s1 = 0
      /\ frame_id s1 = hdr_frame_id payload
      /\ cur_frame s1 = None
      /\ alloced_frames s1 = alloced_frames s)
  /\ forall s' packets,
      skip_frame s' = true -> frame_collected s' = 0 ->
      Forall (fun p => hdr_frame_id (snd (fst p)) = frame_id s') packets ->
      exists evs', process_packets s' packets = Some (s', evs')
                   /\ delivered_frames evs' = [].
Proof.
  intros Hacc Hne Hcur Hfree. split.
  - rewrite process_payload_accepted by exact Hacc.
    unfold frame_start_steps.
    pose proof (pts_step_frame s payload) as Hpf.
    pose proof (pts_step_delivers s payload) as [Hd1 _].
    destruct (pts_step s payload) as [s1 ev1]. cbn in Hpf, Hd1.
    destruct Hpf as (_ & _ & Hfid & _ & Hfrs & Hfree1 & Hcf & _).
    unfold new_frame_step, acquire_frame.
    rewrite Hfid, Hcf, Hcur, Hfree1, Hfree.
    destruct (hdr_frame_id payload =? frame_id s) eqn:He;
      [apply Z.eqb_eq in He; contradiction|].
    rewrite append_step_skips by (left; reflexivity).
    eexists _, _. split; [reflexivity|]. cbn.
    rewrite app_nil_r, !delivered_frames_app, Hd1.
    split. { apply in_or_app. right. apply in_or_app. right. left. reflexivity. }
    split. { destruct (0 <? frame_collected s1); reflexivity. }
    auto 10.
  - intros s' packets Hskip Hfc.
    induction packets as [|[[t p] l] rest IH]; intros Hall.
    + exists []. auto.
    + apply Forall_cons in Hall as [Hid Hrest]. cbn in Hid.
      destruct (skipping_ignores_packet s' t p l Hskip Hfc Hid) as (ev1 & Hrun & Hd).
      destruct (IH Hrest) as (ev2 & Hrun2 & Hd2).
      cbn [process_packets]. rewrite Hrun, Hrun2.
      eexists. split; [reflexivity|].
      rewrite delivered_frames_app, Hd, Hd2. reflexivity.
Qed.

(** ** The stream and its consumer *)

Lemma pts_step_table s payload :
  table_ok s ->
  table_ok (fst (pts_step s payload))
  /\ length (alloced_frames (fst (pts_step s payload)))
     = length (alloced_frames s).
Proof.
  intros Ht.
  destruct (pts_step_frame s payload) as (Hsz & _ & _ & _ & Hfr & _).
  cbn zeta in Hsz, Hfr. unfold table_ok. rewrite Hsz, Hfr. auto.
Qed.

Lemma new_frame_step_table s time payload s2 ev :
  new_frame_step s time payload = Some (s2, ev) ->
  table_ok s ->
  table_ok s2 /\ length (alloced_frames s2) = length (alloced_frames s).
Proof.
  unfold new_frame_step. intros Hrun Ht.
  destruct (hdr_frame_id payload =? frame_id s);
    [injection Hrun as <- <-; auto|].
  destruct (acquire_frame s) as [[f|] free].
  - destruct (alloced_frames s !! f) as [fr|] eqn:Hl; [|discriminate].
    destruct (data_size fr =? frame_size s); [|discriminate].
    injection Hrun as <- <-. unfold table_ok. cbn.
    rewrite length_insert. split; [|reflexivity].
    apply Forall_insert; [exact Ht|]. cbn.
    unfold table_ok in Ht. rewrite Forall_lookup in Ht. exact (Ht f fr Hl).
  - injection Hrun as <- <-. auto.
Qed.

Lemma append_step_table s payload n s' ev :
  append_step s payload n = Some (s', ev) ->
  table_ok s ->
  table_ok s' /\ length (alloced_frames s') = length (alloced_frames s).
Proof.
  unfold append_step. intros Hrun Ht.
  destruct (cur_frame s) as [f|]; [|injection Hrun as <- <-; auto].
  destruct (skip_frame s); [injection Hrun as <- <-; auto|].
  destruct (frame_size s <? frame_collected s + n);
    [injection Hrun as <- <-; auto|].
  destruct (alloced_frames s !! f) as [fr|] eqn:Hl; [|discriminate].
  destruct (memcpy_body _ _ _ _) as [d|] eqn:Hd; [|discriminate].
  injection Hrun as <- <-. unfold table_ok. cbn.
  rewrite length_insert. split; [|reflexivity].
  apply Forall_insert; [exact Ht|]. cbn.
  unfold table_ok in Ht. rewrite Forall_lookup in Ht.
  destruct (Ht f fr Hl) as [Hs Hlen].
  apply memcpy_body_length in Hd. rewrite Hd. auto.
Qed.

Lemma process_payload_table s time payload len s' evs :
  process_payload s time payload len = Some (s', evs) ->
  table_ok s ->
  table_ok s' /\ length (alloced_frames s') = length (alloced_frames s).
Proof.
  unfold process_payload. intros Hrun Ht.
  destruct (len =? 0); [injection Hrun as <- <-; auto|].
  destruct (len =? 12); [injection Hrun as <- <-; auto|].
  destruct (negb (bHeaderLength payload =? 12)); [injection Hrun as <- <-; auto|].
  destruct (hdr_error payload); [injection Hrun as <- <-; auto|].
  unfold frame_start_steps in Hrun.
  pose proof (pts_step_table s payload Ht) as [Ht1 Hl1].
  destruct (pts_step s payload) as [s1 ev1]. cbn in Ht1, Hl1.
  destruct (new_frame_step s1 time payload) as [[s2 ev2]|] eqn:Hn; [|discriminate].
  destruct (new_frame_step_table _ _ _ _ _ Hn Ht1) as [Ht2 Hl2].
  destruct (append_step s2 payload _) as [[s3 ev3]|] eqn:Ha; [|discriminate].
  destruct (append_step_table _ _ _ _ _ Ha Ht2) as [Ht3 Hl3].
  injection Hrun as <- <-. split; [exact Ht3 | congruence].
Qed.

Lemma remove_first_Permutation f : forall l l',
  remove_first f l = Some l' -> Permutation l (f :: l').
Proof.
  induction l as [|g l IH]; intros l'; cbn; [discriminate|].
  destruct (decide (f = g)) as [-> | Hne]; [intros [= <-]; reflexivity|].
  destruct (remove_first f l) as [r|]; [|discriminate].
  intros [= <-]. rewrite (IH r eq_refl). apply perm_swap.
Qed.

(** What holds between the stream and its consumer at every point of a
    run: the stream is well formed, its frames have the right size, and the
    [n] frames of the table are shared out between the stream and the
    consumer. *)
Lemma uvc_run_safe n ops : forall s consumer,
  stream_ok s -> table_ok s -> length (alloced_frames s) = n ->
  Permutation (held_frames s ++ consumer) (seq 0 n) ->
  Forall op_ok ops ->
  match uvc_run s consumer ops with
  | Uvc_ok s' consumer' =>
      stream_ok s'
      /\ (length (free_frames s') <= length (alloced_frames s'))%nat
      /\ length (alloced_frames s') = n
      /\ Permutation (held_frames s' ++ consumer') (seq 0 n)
  | Uvc_misuse => True
  | Uvc_undefined => False
  end.
Proof.
  induction ops as [|op ops IH]; intros s consumer Hok Ht Hn Hperm Hall.
  - cbn. split; [exact Hok|]. split; [|auto].
    apply Permutation_length in Hperm.
    rewrite length_app, length_seq in Hperm. unfold held_frames in Hperm.
    rewrite length_app in Hperm. lia.
  - apply Forall_cons in Hall as [Hop Hall]. destruct op as [time payload len|f].
    + cbn [uvc_run]. cbn in Hop.
      destruct (process_payload_ok s time payload len Hok Hop)
        as (s' & evs & Hrun & Hok').
      rewrite Hrun.
      destruct (process_payload_table _ _ _ _ _ _ Hrun Ht) as [Ht' Hl'].
      apply process_payload_delivers in Hrun.
      apply IH; try assumption; [congruence|].
      rewrite <- Hperm, <- Hrun, <- !app_assoc.
      rewrite (Permutation_app_swap_app (delivered_frames evs)).
      apply Permutation_app_head. apply Permutation_app_comm.
    + cbn [uvc_run].
      destruct (remove_first f consumer) as [consumer'|] eqn:Hrem; [|exact I].
      apply remove_first_Permutation in Hrem.
      assert (Hperm' : Permutation (f :: held_frames s ++ consumer') (seq 0 n)).
      { rewrite <- Hperm, Hrem. apply Permutation_middle. }
      assert (Hf : (f < n)%nat).
      { assert (Hin : In f (seq 0 n)).
        { eapply Permutation_in; [exact Hperm'|]. left. reflexivity. }
        apply in_seq in Hin. lia. }
      assert (Hfree : (length (free_frames s) < n)%nat).
      { apply Permutation_length in Hperm'. cbn in Hperm'.
        rewrite length_app, length_seq in Hperm'. unfold held_frames in Hperm'.
        rewrite length_app in Hperm'. lia. }
      unfold rift_sensor_uvc_stream_release_frame. rewrite Hn.
      apply Nat.ltb_lt in Hf as Hf', Hfree as Hfree'. rewrite Hf', Hfree'. cbn.
      apply IH; try assumption.
      * destruct Hok as [Hb Hfr]. split; [exact Hb|]. cbn.
        intros g [Hg | [<- | Hg]]; try (apply Hfr; auto; fail).
        unfold table_ok in Ht. rewrite Forall_lookup in Ht.
        destruct (lookup_lt_is_Some_2 (alloced_frames s) f) as [fr Hl]; [lia|].
        exists fr. split; [exact Hl|]. exact (Ht f fr Hl).
      * rewrite <- Hperm'. unfold held_frames. cbn.
        rewrite <- !app_assoc. cbn. symmetry. apply Permutation_middle.
Qed.

(** X4.  A stream is started with [n] frames and fed packets of any content,
    while its consumer releases frames it has been handed, each at most
    once per delivery and in any order.  Then no [assert] of the assembler
    or of the release function fails and no copy leaves a frame buffer; the
    byte count stays within the frame size; the free stack never holds more
    frames than were allocated; and at every point each of the [n] frames
    is either held by the stream (captured into, or free) or by the
    consumer, never both and never twice. *)
Theorem uvc_lifecycle_safe s n cb ops :
  0 <= frame_collected s <= frame_size s ->
  Forall op_ok ops ->
  match uvc_run (rift_sensor_uvc_stream_start s n cb) [] ops with
  | Uvc_ok s' consumer =>
      stream_ok s'
      /\ (length (free_frames s') <= length (alloced_frames s'))%nat
      /\ length (alloced_frames s') = n
      /\ Permutation (held_frames s' ++ consumer) (seq 0 n)
  | Uvc_misuse => True
  | Uvc_undefined => False
  end.
Proof.
  intros Hb Hall.
  assert (Hblank : forall size : Z, 0 <= size ->
            Z.of_nat (length (replicate (Z.to_nat size) x00)) = size).
  { intros size Hs. rewrite length_replicate. lia. }
  apply uvc_run_safe; try assumption.
  - split; [exact Hb|]. cbn. intros f [Hf | Hf]; [discriminate|].
    rewrite reverse_Permutation in Hf. apply in_seq in Hf.
    eexists. split; [apply lookup_replicate_2; lia|].
    cbn. split; [reflexivity | apply Hblank; lia].
  - unfold table_ok. cbn. apply Forall_replicate. cbn.
    split; [reflexivity | apply Hblank; lia].
  - cbn. apply length_replicate.
  - unfold held_frames. cbn. rewrite app_nil_r. apply reverse_Permutation.
Qed.

End UvcFrames.

(** * Isochronous transfers *)

Section UvcTransfers.

(** The resubmit loop stops at the first attempt that succeeds; if none of
    its [n] attempts does, it has made them all. *)
Lemma resubmit_loop_spec submit : forall n i ret,
  let '(i', ret', calls) := resubmit_loop n i ret submit in
  (length (submit_calls calls) <= n)%nat
  /\ submit_calls calls
     = map (fun k => submit (i + Z.of_nat k)) (seq 0 (length (submit_calls calls)))
  /\ ((0 <= ret' /\ (0 < length (submit_calls calls))%nat
       /\ i' = i + Z.of_nat (length (submit_calls calls)) - 1
       /\ ret' = submit i'
       /\ forall k, i <= k < i' -> submit k < 0)
      \/ (n = O /\ ret' = ret /\ i' = i /\ calls = [])
      \/ (ret' < 0 /\ (0 < n)%nat /\ i' = i + Z.of_nat n
          /\ length (submit_calls calls) = n
          /\ forall k, i <= k < i + Z.of_nat n -> submit k < 0)).
Proof.
  induction n as [|n IH]; intros i ret; cbn [resubmit_loop].
  - cbn. split; [lia|]. split; [reflexivity|]. right. left. auto.
  - destruct (0 <=? submit i) eqn:Hs.
    + apply Z.leb_le in Hs. cbn. rewrite Z.add_0_r.
      split; [lia|]. split; [reflexivity|]. left.
      repeat apply conj; try lia; intros k Hk; lia.
    + apply Z.leb_gt in Hs. specialize (IH (i + 1) (submit i)).
      destruct (resubmit_loop n (i + 1) (submit i) submit) as [[i' ret'] calls].
      destruct IH as (Hlen & Hcalls & Hcase). cbn.
      split; [lia|]. split.
      { rewrite Z.add_0_r. f_equal. rewrite Hcalls at 1.
        rewrite <- seq_shift, map_map. apply map_ext. intros k. f_equal. lia. }
      destruct Hcase as [(Hr & Hn & Hi & Hret & Hneg)
                        | [(-> & -> & -> & ->) | (Hr & Hn & Hi & Hl & Hneg)]].
      * left. repeat apply conj; try lia.
        intros k Hk. destruct (Z.eq_dec k i) as [-> | Hki]; [exact Hs|].
        apply Hneg. lia.
      * right. right. cbn. repeat apply conj; try lia.
        intros k Hk. replace k with i by lia. exact Hs.
      * right. right. repeat apply conj; try lia.
        intros k Hk. destruct (Z.eq_dec k i) as [-> | Hki]; [exact Hs|].
        apply Hneg. lia.
Qed.

Lemma submit_calls_app ev1 ev2 :
  submit_calls (ev1 ++ ev2) = submit_calls ev1 ++ submit_calls ev2.
Proof.
  induction ev1 as [|e ev1 IH]; [reflexivity|].
  destruct e; cbn; rewrite ?IH; reflexivity.
Qed.

Lemma submit_calls_payload evs : submit_calls (map Payload_event evs) = [].
Proof. induction evs as [|e evs IH]; [reflexivity | exact IH]. Qed.

Lemma resubmit_succeeds_true submit :
  resubmit_succeeds submit = true <-> exists i, 0 <= i < 5 /\ 0 <= submit i.
Proof.
  unfold resubmit_succeeds. rewrite existsb_exists. split.
  - intros (i & Hin & Hi). apply Z.leb_le in Hi. exists i. split; [|exact Hi].
    cbn in Hin. lia.
  - intros (i & Hr & Hi). exists i. apply Z.leb_le in Hi. split; [|exact Hi].
    cbn. lia.
Qed.

(** X5.  What a transfer callback does to the count of transfers in
    flight.  A transfer that did not complete, or that completes after
    [video_running] was cleared, is retired: the count goes down by one, no
    packet of it is processed and it is not submitted again.  A transfer
    that completes while the video runs has its packets processed in order
    and is submitted again, up to five times, stopping at the first
    success; the count stays if an attempt succeeds and goes down by one if
    all five fail.  [video_running] is never written, and the value [ret]
    starts with does not matter. *)
Theorem iso_transfer_accounting x s status packets submit ret0 x' s' evs :
  iso_transfer_cb x s status packets submit ret0 = Some (x', s', evs) ->
  video_running x' = video_running x
  /\ iso_transfer_cb x s status packets submit 0 = Some (x', s', evs)
  /\ (status <> LIBUSB_TRANSFER_COMPLETED \/ video_running x = false ->
      s' = s /\ submit_calls evs = []
      /\ active_transfers x' = active_transfers x - 1)
  /\ (status = LIBUSB_TRANSFER_COMPLETED -> video_running x = true ->
      (exists pev, process_packets s packets = Some (s', pev))
      /\ (1 <= length (submit_calls evs) <= 5)%nat
      /\ submit_calls evs
         = map (fun k => submit (Z.of_nat k)) (seq 0 (length (submit_calls evs)))
      /\ (forall k, (S k < length (submit_calls evs))%nat ->
                    submit (Z.of_nat k) < 0)
      /\ active_transfers x'
         = (if resubmit_succeeds submit then active_transfers x
            else active_transfers x - 1)).
Proof.
  unfold iso_transfer_cb. intros Hrun.
  destruct status as [| |code].
  2,3: injection Hrun as <- <- <-; cbn;
    (split; [reflexivity|]); (split; [reflexivity|]);
    (split; [auto | discriminate]).
  destruct (video_running x) eqn:Hv; cbn [negb] in Hrun |- *.
  2:{ injection Hrun as <- <- <-. cbn. split; [exact Hv|].
      split; [reflexivity|]. split; [auto | discriminate]. }
  destruct (process_packets s packets) as [[s1 pev]|] eqn:Hp; [|discriminate].
  pose proof (resubmit_loop_spec submit 5 0 ret0) as Hspec.
  pose proof (resubmit_loop_spec submit 5 0 0) as Hspec0.
  assert (Hsame : resubmit_loop 5 0 ret0 submit = resubmit_loop 5 0 0 submit).
  { cbn. repeat (destruct (0 <=? submit _); [reflexivity|]). reflexivity. }
  rewrite <- Hsame. clear Hspec0 Hsame.
  destruct (resubmit_loop 5 0 ret0 submit) as [[i ret] calls].
  destruct Hspec as (Hlen & Hcalls & Hcase).
  assert (Hsucc : resubmit_succeeds submit = negb (ret <? 0)).
  { destruct (ret <? 0) eqn:Hr; cbn [negb].
    - apply Z.ltb_lt in Hr.
      destruct (resubmit_succeeds submit) eqn:Hs; [|reflexivity].
      apply resubmit_succeeds_true in Hs as (k & Hk & Hpos).
      destruct Hcase as [? | [? | (_ & _ & _ & _ & Hneg)]]; try lia.
      specialize (Hneg k). lia.
    - apply Z.ltb_ge in Hr. apply resubmit_succeeds_true.
      destruct Hcase as [(_ & Hpos & Hi & Hret & _) | [? | ?]]; try lia.
      exists i. split; [lia|]. rewrite <- Hret. exact Hr. }
  assert (Hfirst : (1 <= length (submit_calls calls))%nat
                   /\ forall k, (S k < length (submit_calls calls))%nat ->
                                submit (Z.of_nat k) < 0).
  { destruct Hcase as [(Hr & Hpos & Hi & Hret & Hneg)
                      | [? | (_ & _ & _ & Hl & Hneg)]]; try lia.
    - split; [lia|]. intros k Hk. apply Hneg. lia.
    - split; [lia|]. intros k Hk. apply Hneg. lia. }
  assert (Hev : forall tail, submit_calls tail = [] ->
            submit_calls (map Payload_event pev ++ calls ++ tail)
            = submit_calls calls).
  { intros tail Ht.
    rewrite !submit_calls_app, submit_calls_payload, Ht, app_nil_r.
    reflexivity. }
  rewrite Hsucc.
  destruct (ret <? 0); injection Hrun as <- <- <-; cbn [negb].
  all: split; [exact Hv|]; split; [reflexivity|];
    split; [intros [? | ?]; congruence|]; intros _ _.
  - rewrite Hev by reflexivity.
    split; [eauto|]. split; [lia|].
    split; [rewrite Hcalls at 1; apply map_ext; intros; f_equal; lia|].
    split; [apply Hfirst | reflexivity].
  - rewrite Hev by (destruct (0 <? i); reflexivity).
    split; [eauto|]. split; [lia|].
    split; [rewrite Hcalls at 1; apply map_ext; intros; f_equal; lia|].
    split; [apply Hfirst | reflexivity].
Qed.

(** X6.  Draining.  Once [video_running] is cleared, as
    [rift_sensor_uvc_stream_stop] does before it waits, every transfer
    callback retires its transfer, whatever its status and packets: after
    [k] callbacks the count of active transfers is [k] lower, the stream
    state is untouched and nothing was submitted. *)
Theorem iso_transfers_drain transfers : forall x s,
  video_running x = false ->
  exists evs,
    iso_transfer_cbs x s transfers
    = Some (mk_transfers false
              (active_transfers x - Z.of_nat (length transfers)), s, evs)
    /\ submit_calls evs = [].
Proof.
  induction transfers as [|[[status packets] submit] rest IH]; intros x s Hv.
  - exists []. cbn. rewrite Z.sub_0_r. destruct x; cbn in *; subst. auto.
  - cbn [iso_transfer_cbs].
    assert (Hone : exists ev,
               iso_transfer_cb x s status packets submit 0
               = Some (transfer_retired x, s, ev) /\ submit_calls ev = []).
    { unfold iso_transfer_cb. rewrite Hv.
      destruct status; cbn; eauto. }
    destruct Hone as (ev & -> & Hev).
    destruct (IH (transfer_retired x) s Hv) as (evs & -> & Hevs).
    eexists. split.
    + cbn. do 3 f_equal. f_equal. lia.
    + rewrite submit_calls_app, Hev, Hevs. reflexivity.
Qed.

End UvcTransfers.

(** * The transfer layout *)

Section UvcLayout.

Lemma int_val_Some z : - 2 ^ 31 <= z < 2 ^ 31 -> int_val z = Some z.
Proof.
  intros [H1 H2]. unfold int_val.
  apply Z.leb_le in H1. apply Z.ltb_lt in H2. rewrite H1, H2. reflexivity.
Qed.

Lemma int_div_Some a b :
  0 <= a < 2 ^ 31 -> 0 < b -> int_div a b = Some (a / b).
Proof.
  intros Ha Hb. unfold int_div.
  destruct (b =? 0) eqn:Hz; [apply Z.eqb_eq in Hz; lia|].
  rewrite Z.quot_div_nonneg by lia. apply int_val_Some.
  pose proof (Z.div_pos a b). pose proof (Z.div_le_upper_bound a b (2 ^ 31 - 1)).
  nia.
Qed.

(** X7.  For a frame of at least one byte and a positive packet size (the
    sums the code takes staying inside [int]),
    [rift_sensor_uvc_stream_setup] lays the
    stream out in at least one transfer of between 1 and 32 packets each.
    Together the transfers carry no more packets than a frame needs, and
    fewer than that by less than the number of transfers. *)
Theorem transfer_layout_bounds stride height packet_size :
  0 < stride * height -> 0 < packet_size ->
  stride * height + packet_size + 31 <= 2 ^ 31 ->
  exists num_transfers num_packets,
    transfer_layout stride height packet_size
    = Some (stride * height, num_transfers, num_packets)
    /\ 1 <= num_transfers
    /\ 1 <= num_packets <= 32
    /\ let needed := (stride * height + packet_size - 1) / packet_size in
       needed - num_transfers < num_transfers * num_packets <= needed.
Proof.
  intros Hfs Hps Hsum. unfold transfer_layout.
  set (fs := stride * height) in *.
  set (n := (fs + packet_size - 1) / packet_size).
  assert (Hn : 1 <= n <= fs + packet_size - 1).
  { unfold n. split.
    - apply Z.div_le_lower_bound; lia.
    - apply Z.div_le_upper_bound; nia. }
  set (t := (n + 31) / 32).
  assert (Ht : 1 <= t /\ n <= 32 * t /\ t <= n).
  { unfold t. pose proof (Z.div_mod (n + 31) 32 ltac:(lia)).
    pose proof (Z.mod_pos_bound (n + 31) 32 ltac:(lia)). lia. }
  rewrite (int_val_Some fs) by lia. cbn -[int_val int_div].
  rewrite (int_val_Some (fs + packet_size)) by lia. cbn -[int_val int_div].
  rewrite (int_val_Some (fs + packet_size - 1)) by lia. cbn -[int_val int_div].
  rewrite int_div_Some by lia. cbn -[int_val int_div]. fold n.
  rewrite (int_val_Some (n + 31)) by lia. cbn -[int_val int_div].
  rewrite int_div_Some by lia. cbn -[int_val int_div]. fold t.
  rewrite int_div_Some by lia. cbn -[int_val int_div].
  exists t, (n / t). split; [reflexivity|].
  pose proof (Z.div_mod n t ltac:(lia)).
  pose proof (Z.mod_pos_bound n t ltac:(lia)).
  assert (1 <= n / t) by (apply Z.div_le_lower_bound; lia).
  assert (n / t <= 32) by (apply Z.div_le_upper_bound; lia).
  cbn zeta. lia.
Qed.

End UvcLayout.

(** * Worked runs of the stream, its frames and its transfers *)

(** A stream that holds frame 0 half full, frame 1 being free, gets the
    second half and then the first packet of the next camera frame: frame 0
    is delivered, and frame 1 is captured into; none is lost. *)
Lemma uvc_frames_conserved_witness :
  exists s' evs,
    process_packets (Sample.stream_at 8 4 true)
      [(0, Sample.packet x00 [x01; x01; x01; x01], 16);
       (5, Sample.packet x01 [x02; x02], 14)] = Some (s', evs)
    /\ delivered_frames evs ++ held_frames s' = [0; 1]%nat.
Proof.
  destruct (uvc_frames_conserved (Sample.stream_at 8 4 true)
              [(0, Sample.packet x00 [x01; x01; x01; x01], 16);
               (5, Sample.packet x01 [x02; x02], 14)])
    as (s' & evs & Hrun & Hheld & _).
  - apply sample_stream_ok. lia.
  - constructor; [right; cbn; lia|]. constructor; [right; cbn; lia|].
    constructor.
  - exists s', evs. split; [exact Hrun | exact Hheld].
Defined.

(** A frame of 8 bytes arrives in two packets of 4: frame 0 is delivered
    holding the 8 bytes in order, stamped with the time of the first
    packet. *)
Lemma uvc_frame_assembled_witness :
  exists s' evs fr',
    process_packets (Sample.stream_at 8 0 true)
      [(7, Sample.packet x01 [x01; x02; x03; x04], 16);
       (9, Sample.packet x01 [x05; x06; x07; x08], 16)] = Some (s', evs)
    /\ delivered_frames evs = [0%nat]
    /\ alloced_frames s' !! 0%nat = Some fr'
    /\ data fr' = [x01; x02; x03; x04; x05; x06; x07; x08]
    /\ start_ts fr' = 7.
Proof.
  destruct (uvc_frame_assembled (Sample.stream_at 8 0 true) 7
              (Sample.packet x01 [x01; x02; x03; x04]) 16
              [(9, Sample.packet x01 [x05; x06; x07; x08], 16)]
              0%nat [1%nat] (Sample.blank_frame 8))
    as (s' & evs & fr' & Hrun & Hdel & Hfr & Hdata & Hts & _).
  - apply sample_stream_ok. lia.
  - reflexivity.
  - reflexivity.
  - intros H. vm_compute in H. discriminate.
  - constructor; [|constructor; [|constructor]];
      unfold chunk_ok, accepted; cbn; repeat apply conj; try lia;
      reflexivity.
  - reflexivity.
  - exists s', evs, fr'. auto.
Defined.

(** A camera frame starts while the stream has no frame to capture into:
    it is logged and skipped. *)
Lemma uvc_frame_skipped_witness :
  exists s1 evs,
    process_payload Scenario.stream_without_frames 0
      (Sample.packet x01 [x01; x02]) 14 = Some (s1, evs)
    /\ In Log_no_frame evs
    /\ skip_frame s1 = true
    /\ cur_frame s1 = None.
Proof.
  destruct (uvc_frame_skipped Scenario.stream_without_frames 0
              (Sample.packet x01 [x01; x02]) 14)
    as [(s1 & evs & Hrun & Hlog & _ & Hskip & _ & _ & Hcur & _) _].
  - unfold accepted. cbn. repeat apply conj; try lia; reflexivity.
  - intros H. vm_compute in H. discriminate.
  - reflexivity.
  - reflexivity.
  - exists s1, evs. auto.
Defined.

(** A stream started with two frames delivers three camera frames while
    its consumer gives two back: the run is defined, and in the end the
    stream holds frame 1 and the consumer frame 0. *)
Lemma uvc_lifecycle_safe_witness :
  exists s' consumer,
    uvc_run (rift_sensor_uvc_stream_start (Sample.stream_at 8 0 true) 2 true) []
      [Uvc_packet 0 (Sample.packet x01 (replicate 8 x01)) 20;
       Uvc_packet 1 (Sample.packet x00 (replicate 8 x02)) 20;
       Uvc_release 0%nat;
       Uvc_packet 2 (Sample.packet x01 (replicate 8 x03)) 20;
       Uvc_release 1%nat]
    = Uvc_ok s' consumer
    /\ stream_ok s'
    /\ Permutation (held_frames s' ++ consumer) [0; 1]%nat.
Proof.
  pose proof (uvc_lifecycle_safe (Sample.stream_at 8 0 true) 2 true
                [Uvc_packet 0 (Sample.packet x01 (replicate 8 x01)) 20;
                 Uvc_packet 1 (Sample.packet x00 (replicate 8 x02)) 20;
                 Uvc_release 0%nat;
                 Uvc_packet 2 (Sample.packet x01 (replicate 8 x03)) 20;
                 Uvc_release 1%nat]) as Hsafe.
  destruct (uvc_run _ _ _) as [s' consumer| |] eqn:Hrun.
  - exists s', consumer. split; [reflexivity|].
    destruct Hsafe as (Hok & _ & _ & Hperm).
    + cbn. lia.
    + repeat (constructor; [cbn; try (right; cbn; lia); exact I|]).
      constructor.
    + auto.
  - exfalso. apply Hsafe.
    + cbn. lia.
    + repeat (constructor; [cbn; try (right; cbn; lia); exact I|]).
      constructor.
  - vm_compute in Hrun. discriminate.
Defined.

(** A transfer completes while the video runs; its resubmission fails
    twice and succeeds at the third attempt: the transfer stays in
    flight. *)
Lemma iso_transfer_accounting_witness :
  exists x' s' evs,
    iso_transfer_cb (mk_transfers true 3) (Sample.stream_at 8 4 true)
      LIBUSB_TRANSFER_COMPLETED
      [(0, Sample.packet x00 [x01; x01; x01; x01], 16)]
      Scenario.fails_twice 7 = Some (x', s', evs)
    /\ video_running x' = true
    /\ active_transfers x' = 3
    /\ (1 <= length (submit_calls evs) <= 5)%nat.
Proof.
  destruct (iso_transfer_cb (mk_transfers true 3) (Sample.stream_at 8 4 true)
              LIBUSB_TRANSFER_COMPLETED
              [(0, Sample.packet x00 [x01; x01; x01; x01], 16)]
              Scenario.fails_twice 7) as [[[x' s'] evs]|] eqn:Hrun;
    [|vm_compute in Hrun; discriminate].
  destruct (iso_transfer_accounting _ _ _ _ _ _ _ _ _ Hrun)
    as (Hv & _ & _ & Hdone).
  destruct (Hdone eq_refl eq_refl) as (_ & Hcalls & _ & _ & Hactive).
  exists x', s', evs. split; [reflexivity|]. split; [exact Hv|].
  split; [exact Hactive | exact Hcalls].
Defined.

(** Three transfers come back after the video was stopped, one completed,
    one cancelled and one failed: all three are retired. *)
Lemma iso_transfers_drain_witness :
  exists evs,
    iso_transfer_cbs (mk_transfers false 3) (Sample.stream_at 8 4 true)
      [(LIBUSB_TRANSFER_COMPLETED,
        [(0, Sample.packet x00 [x01; x01; x01; x01], 16)], Scenario.fails_twice);
       (LIBUSB_TRANSFER_CANCELLED, [], Scenario.fails_twice);
       (LIBUSB_TRANSFER_FAILED 1, [], Scenario.fails_twice)]
    = Some (mk_transfers false 0, Sample.stream_at 8 4 true, evs)
    /\ submit_calls evs = [].
Proof.
  exact (iso_transfers_drain
           [(LIBUSB_TRANSFER_COMPLETED,
             [(0, Sample.packet x00 [x01; x01; x01; x01], 16)],
             Scenario.fails_twice);
            (LIBUSB_TRANSFER_CANCELLED, [], Scenario.fails_twice);
            (LIBUSB_TRANSFER_FAILED 1, [], Scenario.fails_twice)]
           (mk_transfers false 3) (Sample.stream_at 8 4 true) eq_refl).
Defined.

(** A frame of 1280 x 960 bytes over packets of 16384 bytes needs 75
    packets: they are laid out as 3 transfers of 25. *)
Lemma transfer_layout_bounds_witness :
  transfer_layout 1280 960 16384 = Some (1228800, 3, 25)
  /\ exists num_transfers num_packets,
       transfer_layout 1280 960 16384
       = Some (1280 * 960, num_transfers, num_packets)
       /\ 1 <= num_transfers /\ 1 <= num_packets <= 32.
Proof.
  split; [reflexivity|].
  destruct (transfer_layout_bounds 1280 960 16384)
    as (nt & np & Hrun & Hnt & Hnp & _); [lia | lia | lia |].
  exists nt, np. auto.
Defined.

(** * Properties of the tracked device *)

Section TrackerProperties.
Context {FT : FloatType} {EX : Externals}.

Implicit Types (dev : rift_tracked_device_priv)
  (dev_info : rift_tracked_device_exposure_info)
  (slot : rift_tracker_pose_delay_slot)
  (slots : list rift_tracker_pose_delay_slot).

(** ** The device clock *)

Lemma imu_update_clock dev local_ts device_ts dt ang_vel accel mag :
  let dev' := rift_tracked_device_imu_update dev local_ts device_ts dt
                ang_vel accel mag in
  device_time_ns dev' = next_device_time_ns dev device_ts
  /\ last_device_ts dev' = device_ts
  /\ ukf_fusion dev'
     = Ukf_imu_update (next_device_time_ns dev device_ts) ang_vel accel mag
         :: ukf_fusion dev.
Proof.
  cbn. unfold rift_tracked_device_imu_update.
  destruct (_ =? RIFT_MAX_PENDING_IMU_OBSERVATIONS); cbn; auto.
Qed.

(** From the second sample on, and while the product stays below [2^32],
    the clock advances by the wrapped 32-bit difference of the two raw
    stamps, in nanoseconds. *)
Lemma clock_advance_by_delta dev device_ts :
  device_time_ns dev <> 0 ->
  u32_sub device_ts (last_device_ts dev) * 1000 < 2 ^ 32 ->
  next_device_time_ns dev device_ts
  = u64_add (device_time_ns dev) (u32_sub device_ts (last_device_ts dev) * 1000).
Proof.
  intros Hnz Hsmall. unfold next_device_time_ns.
  apply Z.eqb_neq in Hnz. rewrite Hnz. f_equal.
  unfold u32_mul, wrap32. apply Z.mod_small.
  unfold u32_sub, wrap32 in *.
  pose proof (Z.mod_pos_bound (device_ts - last_device_ts dev) (2 ^ 32)).
  lia.
Qed.

(** The wrap-around of scenario 6: from raw stamp [0xFFFFFF00] to
    [0x00000100] the clock advances by 512000 ns. *)
Lemma clock_advance_across_wrap dev :
  device_time_ns dev <> 0 -> last_device_ts dev = 0xFFFFFF00 ->
  next_device_time_ns dev 0x100 = u64_add (device_time_ns dev) 512000.
Proof.
  intros Hnz Hlast. rewrite clock_advance_by_delta by (rewrite ?Hlast; easy).
  rewrite Hlast. reflexivity.
Qed.

(** While the clock is 0 the sample's stamp sets it, whatever the stored
    raw stamp is. *)
Lemma clock_first_sample dev device_ts :
  device_time_ns dev = 0 ->
  next_device_time_ns dev device_ts = u32_mul device_ts 1000.
Proof.
  intros Hz. unfold next_device_time_ns. rewrite Hz. reflexivity.
Qed.

(** What the clock extension does in every state a device can be in: the
    advance is the 32-bit product of the wrapped difference and 1000, the
    first sample included. *)
Lemma clock_advance_modular dev device_ts :
  clock_ok dev ->
  next_device_time_ns dev device_ts
  = u64_add (device_time_ns dev)
      (u32_mul (u32_sub device_ts (last_device_ts dev)) 1000)
  /\ clock_ok (set_clock dev device_ts (next_device_time_ns dev device_ts)).
Proof.
  intros [Hpos Hinv].
  assert (Hmul : forall a, u32_mul (wrap32 a) 1000 = wrap32 (a * 1000)).
  { intros a. unfold u32_mul, wrap32. apply Z.mul_mod_idemp_l. lia. }
  assert (Hstep : wrap32 (device_time_ns dev
                          + u32_mul (u32_sub device_ts (last_device_ts dev)) 1000)
                  = u32_mul device_ts 1000).
  { unfold u32_sub. rewrite Hmul. unfold wrap32 at 1.
    rewrite Z.add_mod by lia. fold (wrap32 (device_time_ns dev)).
    rewrite Hinv. unfold u32_mul, wrap32.
    rewrite !Z.mod_mod by lia. rewrite <- Z.add_mod by lia.
    f_equal. lia. }
  assert (Hb : 0 <= u32_mul (u32_sub device_ts (last_device_ts dev)) 1000 < 2 ^ 32)
    by (apply Z.mod_pos_bound; lia).
  unfold next_device_time_ns.
  destruct (device_time_ns dev =? 0) eqn:Hz.
  - apply Z.eqb_eq in Hz. rewrite Hz in Hstep |- *. cbn [Z.add] in Hstep.
    unfold wrap32 in Hstep at 1. rewrite Z.mod_small in Hstep by exact Hb.
    split.
    + unfold u64_add, wrap64. rewrite Z.add_0_l, Z.mod_small by lia.
      symmetry. exact Hstep.
    + split; cbn.
      * apply Z.mod_pos_bound. lia.
      * unfold u32_mul, wrap32. apply Z.mod_mod. lia.
  - split; [reflexivity|]. split; cbn.
    + apply Z.mod_pos_bound. lia.
    + rewrite <- Hstep. unfold u64_add, wrap64, wrap32.
      replace (2 ^ 64) with (2 ^ 32 * 2 ^ 32) by reflexivity.
      rewrite Z.rem_mul_r by lia.
      rewrite Z.mul_comm, Z.mod_add by lia. apply Z.mod_mod. lia.
Qed.

(** C2 at a failing input.  A new device gets its first sample at raw
    stamp 1000 us and its second at 5001000 us, five seconds later.  The
    wrapped 32-bit difference of the stamps is 5000000 us, that is
    5000000000 ns, but the product by 1000 is taken in 32 bits and the
    clock advances by 705032704 ns only. *)
Theorem clock_advance_truncated dev local_ts dt ang_vel accel mag :
  let dev1 := rift_tracked_device_imu_update (set_clock dev 0 0) local_ts 1000
                dt ang_vel accel mag in
  let dev2 := rift_tracked_device_imu_update dev1 local_ts 5001000
                dt ang_vel accel mag in
  device_time_ns dev1 = 1000000
  /\ last_device_ts dev1 = 1000
  /\ u32_sub 5001000 (last_device_ts dev1) * 1000 = 5000000000
  /\ device_time_ns dev2 = device_time_ns dev1 + 705032704.
Proof.
  cbn zeta.
  destruct (imu_update_clock (set_clock dev 0 0) local_ts 1000 dt
              ang_vel accel mag) as (Ht1 & Hl1 & _).
  destruct (imu_update_clock
              (rift_tracked_device_imu_update (set_clock dev 0 0) local_ts 1000
                 dt ang_vel accel mag)
              local_ts 5001000 dt ang_vel accel mag) as (Ht2 & _).
  cbn zeta in Ht1, Hl1, Ht2.
  rewrite Ht2, Hl1. unfold next_device_time_ns at 1. rewrite Ht1, Hl1.
  split; [reflexivity|]. split; [reflexivity|]. split; reflexivity.
Qed.

(** C10 at a failing input.  The clock is still 0 and the first sample
    is stamped 5000000 us: the clock is set directly, without regard to
    the stored raw stamp, but to 705032704 ns, the 32-bit product, and not
    to 5000000 * 1000 ns. *)
Theorem clock_first_sample_truncated dev last_ts local_ts dt ang_vel accel mag :
  device_time_ns
    (rift_tracked_device_imu_update (set_clock dev last_ts 0) local_ts 5000000
       dt ang_vel accel mag)
  = 705032704
  /\ 5000000 * 1000 = 705032704 + 2 ^ 32.
Proof.
  split; [|reflexivity].
  destruct (imu_update_clock (set_clock dev last_ts 0) local_ts 5000000 dt
              ang_vel accel mag) as [-> _].
  reflexivity.
Qed.

(** ** Delay-slot allocation *)

(** The free-slot search visits the slots at [c], [c+1], ... modulo 3,
    stops at the first one with [use_count = 0] and leaves the cursor just
    behind it; finding none, it has visited [n] slots. *)
Lemma find_free_loop_spec n slots c :
  length slots = 3%nat -> 0 <= c < 3 ->
  match find_free_loop n slots c with
  | (c', Some i) =>
      exists k, 0 <= k < Z.of_nat n
        /\ i = Z.to_nat ((c + k) mod 3)
        /\ (exists slot, slots !! i = Some slot /\ use_count slot = 0)
        /\ (forall j, 0 <= j < k -> forall sl,
              slots !! Z.to_nat ((c + j) mod 3) = Some sl -> use_count sl <> 0)
        /\ c' = (c + k + 1) mod 3
  | (c', None) =>
      (forall j, 0 <= j < Z.of_nat n -> forall sl,
          slots !! Z.to_nat ((c + j) mod 3) = Some sl -> use_count sl <> 0)
      /\ c' = (c + Z.of_nat n) mod 3
  end.
Proof.
  intros Hlen. revert c. induction n as [|n IH]; intros c Hc.
  - cbn. split; [lia|]. rewrite Z.add_0_r, Z.mod_small; lia.
  - cbn [find_free_loop].
    assert (Hrem : Z.rem (c + 1) NUM_POSE_DELAY_SLOTS = (c + 1) mod 3)
      by (apply Z.rem_mod_nonneg; unfold NUM_POSE_DELAY_SLOTS; lia).
    rewrite Hrem.
    assert (Hc1 : 0 <= (c + 1) mod 3 < 3) by (apply Z.mod_pos_bound; lia).
    destruct (slots !! Z.to_nat c) as [slot|] eqn:Hl.
    2:{ apply lookup_ge_None in Hl. lia. }
    destruct (use_count slot =? 0) eqn:Hu.
    + apply Z.eqb_eq in Hu. exists 0.
      rewrite !Z.add_0_r, (Z.mod_small c) by lia.
      repeat split; try lia. eauto.
    + apply Z.eqb_neq in Hu. specialize (IH _ Hc1).
      assert (Hshift : forall k, ((c + 1) mod 3 + k) mod 3 = (c + (k + 1)) mod 3).
      { intros k. rewrite Z.add_mod_idemp_l by lia. f_equal. lia. }
      destruct (find_free_loop n slots ((c + 1) mod 3)) as [c' [i|]].
      * destruct IH as (k & Hk & Hi & Hfree & Hbusy & Hc').
        exists (k + 1). rewrite Hshift in Hi.
        split; [lia|]. split; [exact Hi|]. split; [exact Hfree|].
        split; [|rewrite Hc', <- Z.add_assoc, Hshift; f_equal; lia].
        intros j Hj sl Hsl.
        destruct (Z.eq_dec j 0) as [-> | Hj0].
        -- rewrite Z.add_0_r, Z.mod_small in Hsl by lia. congruence.
        -- apply (Hbusy (j - 1)); [lia|].
           rewrite Hshift. replace (j - 1 + 1) with j by lia. exact Hsl.
      * destruct IH as (Hbusy & Hc'). split.
        -- intros j Hj sl Hsl.
           destruct (Z.eq_dec j 0) as [-> | Hj0].
           ++ rewrite Z.add_0_r, Z.mod_small in Hsl by lia. congruence.
           ++ apply (Hbusy (j - 1)); [lia|].
              rewrite Hshift. replace (j - 1 + 1) with j by lia. exact Hsl.
        -- rewrite Hc', Hshift. f_equal. lia.
Qed.

(** The reclaim search returns the first slot, by index, that is valid and
    has a used report. *)
Lemma reclaim_loop_spec n i slots :
  match reclaim_loop n i slots with
  | Some j =>
      (i <= j < i + n)%nat
      /\ (exists slot, slots !! j = Some slot /\ valid slot = true
                       /\ 0 < n_used_reports slot)
      /\ forall j' sl, (i <= j' < j)%nat -> slots !! j' = Some sl ->
                       ~ (valid sl = true /\ 0 < n_used_reports sl)
  | None =>
      forall j' sl, (i <= j' < i + n)%nat -> slots !! j' = Some sl ->
                    ~ (valid sl = true /\ 0 < n_used_reports sl)
  end.
Proof.
  revert i. induction n as [|n IH]; intros i; cbn [reclaim_loop].
  - intros j' sl Hj. lia.
  - assert (Hstep :
               (forall sl, slots !! i = Some sl ->
                           ~ (valid sl = true /\ 0 < n_used_reports sl)) ->
               match reclaim_loop n (S i) slots with
               | Some j =>
                   (i <= j < i + S n)%nat
                   /\ (exists slot, slots !! j = Some slot /\ valid slot = true
                                    /\ 0 < n_used_reports slot)
                   /\ forall j' sl, (i <= j' < j)%nat -> slots !! j' = Some sl ->
                                    ~ (valid sl = true /\ 0 < n_used_reports sl)
               | None =>
                   forall j' sl, (i <= j' < i + S n)%nat -> slots !! j' = Some sl ->
                                 ~ (valid sl = true /\ 0 < n_used_reports sl)
               end).
    { intros Hi. specialize (IH (S i)).
      destruct (reclaim_loop n (S i) slots) as [j|].
      - destruct IH as (Hj & Hslot & Hnone). split; [lia|]. split; [exact Hslot|].
        intros j' sl Hj' Hsl. destruct (decide (j' = i)) as [-> | Hne]; [auto|].
        apply (Hnone j'); [lia | exact Hsl].
      - intros j' sl Hj' Hsl. destruct (decide (j' = i)) as [-> | Hne]; [auto|].
        apply (IH j'); [lia | exact Hsl]. }
    destruct (slots !! i) as [slot|] eqn:Hl.
    + destruct (valid slot && (0 <? n_used_reports slot)) eqn:Hv.
      * apply andb_prop in Hv as [Hv Hu]. apply Z.ltb_lt in Hu.
        split; [lia|]. split; [eauto|]. intros j' sl Hj'. lia.
      * apply Hstep. intros sl [= <-] [Hv' Hu'].
        apply Z.ltb_lt in Hu'. rewrite Hv', Hu' in Hv. discriminate.
    + apply Hstep. intros sl [=].
Qed.

Lemma set_delay_slot_index_same dev :
  set_delay_slot_index dev (delay_slot_index dev) = dev.
Proof. destruct dev. reflexivity. Qed.

(** C1.  On a new exposure the device takes the first slot with
    [use_count = 0] met from the round-robin cursor on, the cursor moving
    just past it; if there is none, the first slot by index that is valid
    and has [n_used_reports > 0]; the slot taken is stamped with the
    exposure's device time and named in the exposure entry.  If there is
    neither, the entry gets [fusion_slot = -1] and the device is left as it
    was.  In every case the entry carries the device time. *)
Theorem on_new_exposure_allocates dev dev_info dev' info' :
  slots_ok dev ->
  rift_tracked_device_on_new_exposure dev dev_info = (dev', info') ->
  di_device_time_ns info' = device_time_ns dev
  /\ ((exists k i slot,
         0 <= k < 3
         /\ i = Z.to_nat ((delay_slot_index dev + k) mod 3)
         /\ delay_slots dev !! i = Some slot /\ use_count slot = 0
         /\ (forall j, 0 <= j < k -> forall sl,
               delay_slots dev !! Z.to_nat ((delay_slot_index dev + j) mod 3)
               = Some sl -> use_count sl <> 0)
         /\ delay_slot_index dev' = (delay_slot_index dev + k + 1) mod 3
         /\ slot_allocated dev dev' info' i slot)
      \/ (no_free_slot dev
          /\ exists i slot,
              delay_slots dev !! i = Some slot /\ reclaimable slot
              /\ (forall j sl, (j < i)%nat -> delay_slots dev !! j = Some sl ->
                               ~ reclaimable sl)
              /\ delay_slot_index dev' = delay_slot_index dev
              /\ slot_allocated dev dev' info' i slot)
      \/ (no_free_slot dev
          /\ (forall j sl, delay_slots dev !! j = Some sl -> ~ reclaimable sl)
          /\ fusion_slot info' = -1
          /\ dev' = dev)).
Proof.
  intros [Hlen Hc].
  unfold rift_tracked_device_on_new_exposure, find_free_delay_slot.
  pose proof (find_free_loop_spec (Z.to_nat NUM_POSE_DELAY_SLOTS)
                (delay_slots dev) (delay_slot_index dev) Hlen Hc) as Hfree.
  destruct (find_free_loop (Z.to_nat NUM_POSE_DELAY_SLOTS) (delay_slots dev)
              (delay_slot_index dev)) as [c' [i|]].
  - destruct Hfree as (k & Hk & Hi & (slot & Hl & Hu) & Hbusy & Hc').
    cbn. rewrite Hl. cbn. intros [= <- <-]. cbn. split; [reflexivity|].
    left. exists k, i, slot. unfold slot_allocated. cbn.
    change (Z.of_nat (Z.to_nat NUM_POSE_DELAY_SLOTS)) with 3 in Hk.
    auto 10.
  - destruct Hfree as (Hbusy & Hc').
    change (Z.of_nat (Z.to_nat NUM_POSE_DELAY_SLOTS)) with 3 in Hbusy, Hc'.
    assert (Hc'' : c' = delay_slot_index dev).
    { rewrite Hc'. rewrite <- Z.add_mod_idemp_r, Z.add_0_r by lia.
      apply Z.mod_small. lia. }
    clear Hc'. subst c'.
    assert (Hnone : no_free_slot dev).
    { intros j sl Hsl. apply lookup_lt_Some in Hsl as Hj.
      apply (Hbusy ((Z.of_nat j - delay_slot_index dev) mod 3)).
      - apply Z.mod_pos_bound. lia.
      - rewrite Z.add_mod_idemp_r, Zplus_minus, Z.mod_small, Nat2Z.id by lia.
        exact Hsl. }
    rewrite set_delay_slot_index_same.
    unfold reclaim_delay_slot.
    pose proof (reclaim_loop_spec (Z.to_nat NUM_POSE_DELAY_SLOTS) 0
                  (delay_slots dev)) as Hre.
    destruct (reclaim_loop (Z.to_nat NUM_POSE_DELAY_SLOTS) 0 (delay_slots dev))
      as [i|].
    + destruct Hre as (Hi & (slot & Hl & Hv & Hn) & Hfirst).
      rewrite Hl. cbn. intros [= <- <-]. cbn. split; [reflexivity|].
      right. left. split; [exact Hnone|]. exists i, slot.
      unfold slot_allocated, reclaimable. cbn.
      repeat split; auto.
      intros j sl Hj. apply Hfirst. lia.
    + intros [= <- <-]. cbn. split; [reflexivity|].
      right. right. split; [exact Hnone|]. split; [|auto].
      intros j sl Hsl. apply lookup_lt_Some in Hsl as Hj.
      apply (Hre j); [|exact Hsl].
      change (Z.to_nat NUM_POSE_DELAY_SLOTS) with 3%nat. lia.
Qed.

(** ** Claiming and releasing delay slots *)

Lemma get_matching_delay_slot_Some dev dev_info k slot :
  get_matching_delay_slot dev dev_info = Some (k, slot) <->
  0 <= fusion_slot dev_info < 3
  /\ k = Z.to_nat (fusion_slot dev_info)
  /\ delay_slots dev !! k = Some slot
  /\ valid slot = true
  /\ slot_device_time_ns slot = di_device_time_ns dev_info.
Proof.
  unfold get_matching_delay_slot, NUM_POSE_DELAY_SLOTS. split.
  - destruct (0 <=? fusion_slot dev_info) eqn:H0; [|discriminate].
    destruct (fusion_slot dev_info <? 3) eqn:H3; [|discriminate]. cbn.
    destruct (delay_slots dev !! Z.to_nat (fusion_slot dev_info))
      as [sl|] eqn:Hl; [|discriminate].
    destruct (valid sl) eqn:Hv; [|discriminate].
    destruct (slot_device_time_ns sl =? di_device_time_ns dev_info) eqn:Ht;
      [|discriminate].
    cbn. intros [= <- <-].
    apply Z.leb_le in H0. apply Z.ltb_lt in H3. apply Z.eqb_eq in Ht. auto.
  - intros ((H0 & H3) & -> & Hl & Hv & Ht).
    apply Z.leb_le in H0. apply Z.ltb_lt in H3. apply Z.eqb_eq in Ht.
    rewrite H0, H3, Hl, Hv, Ht. reflexivity.
Qed.

(** A release that finds no matching slot does nothing. *)
Lemma release_without_match dev dev_info :
  get_matching_delay_slot dev dev_info = None ->
  rift_tracked_device_exposure_release_locked dev dev_info = (dev, dev_info).
Proof.
  unfold rift_tracked_device_exposure_release_locked. intros ->. reflexivity.
Qed.

(** An invalid slot matches no exposure. *)
Lemma invalid_slot_matches_nothing dev dev_info :
  (forall sl, delay_slots dev !! Z.to_nat (fusion_slot dev_info) = Some sl ->
              valid sl = false) ->
  get_matching_delay_slot dev dev_info = None.
Proof.
  intros Hinv.
  destruct (get_matching_delay_slot dev dev_info) as [[k sl]|] eqn:Hm;
    [|reflexivity].
  apply get_matching_delay_slot_Some in Hm as (_ & -> & Hl & Hv & _).
  rewrite (Hinv _ Hl) in Hv. discriminate.
Qed.

Lemma release_times_without_match n dev dev_info :
  get_matching_delay_slot dev dev_info = None ->
  release_times n dev dev_info = dev.
Proof.
  intros Hm. induction n as [|n IH]; [reflexivity|].
  cbn. rewrite release_without_match by exact Hm. exact IH.
Qed.

(** The release that brings the count to 0 (or finds it there) frees the
    slot. *)
Lemma release_last dev dev_info k slot :
  get_matching_delay_slot dev dev_info = Some (k, slot) ->
  0 <= use_count slot <= 1 ->
  rift_tracked_device_exposure_release_locked dev dev_info
  = (after_freeing dev k slot, set_fusion_slot dev_info (-1)).
Proof.
  intros Hm Hu. unfold rift_tracked_device_exposure_release_locked.
  rewrite Hm. unfold after_freeing.
  destruct (0 <? use_count slot) eqn:Hpos.
  - apply Z.ltb_lt in Hpos.
    replace (use_count slot - 1) with 0 by lia. reflexivity.
  - apply Z.ltb_ge in Hpos.
    replace (use_count slot) with 0 by lia. reflexivity.
Qed.

(** An earlier release takes one off the count and leaves the slot
    matching. *)
Lemma release_earlier dev dev_info k slot :
  get_matching_delay_slot dev dev_info = Some (k, slot) ->
  1 < use_count slot ->
  let slot' := set_use slot true (use_count slot - 1) in
  let dev1 := set_delay_slots dev (<[k := slot']> (delay_slots dev)) in
  rift_tracked_device_exposure_release_locked dev dev_info
  = (dev1, set_fusion_slot dev_info (-1))
  /\ get_matching_delay_slot dev1 dev_info = Some (k, slot').
Proof.
  intros Hm Hu. cbn zeta.
  apply get_matching_delay_slot_Some in Hm as Hm'.
  destruct Hm' as (Hr & Hk & Hl & Hv & Ht). split.
  - unfold rift_tracked_device_exposure_release_locked. rewrite Hm.
    destruct (0 <? use_count slot) eqn:Hpos; [|apply Z.ltb_ge in Hpos; lia].
    destruct (use_count slot - 1 =? 0) eqn:Hz; [apply Z.eqb_eq in Hz; lia|].
    rewrite Hv. reflexivity.
  - apply get_matching_delay_slot_Some. cbn.
    repeat split; try tauto.
    apply list_lookup_insert_eq. apply lookup_lt_Some in Hl. exact Hl.
Qed.

Lemma after_freeing_step dev k slot c :
  after_freeing
    (set_delay_slots dev (<[k := set_use slot true c]> (delay_slots dev)))
    k (set_use slot true c)
  = after_freeing dev k slot.
Proof.
  unfold after_freeing. destruct dev. cbn. rewrite list_insert_insert_eq.
  reflexivity.
Qed.

(** The device after [n] releases of one exposure, in closed form. *)
Lemma release_times_closed_form n : forall dev dev_info k slot,
  get_matching_delay_slot dev dev_info = Some (k, slot) ->
  0 <= use_count slot ->
  (Z.of_nat n < Z.max 1 (use_count slot) ->
   release_times n dev dev_info
   = set_delay_slots dev
       (<[k := set_use slot true (use_count slot - Z.of_nat n)]> (delay_slots dev)))
  /\ (Z.max 1 (use_count slot) <= Z.of_nat n ->
      release_times n dev dev_info = after_freeing dev k slot).
Proof.
  induction n as [|n IH]; intros dev dev_info k slot Hm Hu.
  - split; [intros _|lia]. cbn.
    apply get_matching_delay_slot_Some in Hm as (_ & _ & Hl & Hv & _).
    rewrite Z.sub_0_r.
    replace (set_use slot true (use_count slot)) with slot
      by (destruct slot; unfold set_use; cbn in *; subst; reflexivity).
    rewrite list_insert_id by exact Hl. destruct dev. reflexivity.
  - cbn [release_times].
    destruct (Z.le_gt_cases (use_count slot) 1) as [Hlast | Hmore].
    + rewrite (release_last dev dev_info k slot) by (auto; lia). cbn [fst].
      split; [lia|]. intros _. apply release_times_without_match.
      apply invalid_slot_matches_nothing.
      apply get_matching_delay_slot_Some in Hm as (_ & <- & Hl & _).
      unfold after_freeing. cbn. intros sl.
      rewrite list_lookup_insert_eq by (apply lookup_lt_Some in Hl; exact Hl).
      intros [= <-]. reflexivity.
    + destruct (release_earlier dev dev_info k slot Hm) as [Hrel Hm1]; [lia|].
      rewrite Hrel. cbn [fst].
      specialize (IH _ _ _ _ Hm1). cbn in IH.
      destruct IH as [IH1 IH2]; [lia|]. split.
      * intros Hn. rewrite IH1 by lia. rewrite list_insert_insert_eq.
        replace (use_count slot - 1 - Z.of_nat n)
          with (use_count slot - Z.of_nat (S n)) by lia.
        destruct dev; reflexivity.
      * intros Hn. rewrite IH2 by lia. apply after_freeing_step.
Qed.

(** C9.  Release an exposure again and again.  If no slot matches it,
    nothing ever changes.  If its slot is claimed [use_count] times, the
    release that brings the count to 0 (the first one, if the count was 0
    already) frees the slot: it is left invalid with [use_count = 0] and
    the filter is told once to release it.  Before that release the filter
    is not told and the count goes down by one each time, never below 0;
    after it every further release, through any copy of the exposure
    record, changes nothing. *)
Theorem release_beyond_claims dev dev_info :
  (get_matching_delay_slot dev dev_info = None ->
   forall n, release_times n dev dev_info = dev)
  /\ forall k slot,
      get_matching_delay_slot dev dev_info = Some (k, slot) ->
      0 <= use_count slot ->
      let n0 := Z.to_nat (Z.max 1 (use_count slot)) in
      let freed := release_times n0 dev dev_info in
      freed = after_freeing dev k slot
      /\ (forall n, (n < n0)%nat ->
            release_times n dev dev_info
            = set_delay_slots dev
                (<[k := set_use slot true (use_count slot - Z.of_nat n)]>
                   (delay_slots dev)))
      /\ (forall n sl,
            delay_slots (release_times n dev dev_info) !! k = Some sl ->
            0 <= use_count sl)
      /\ (forall n, (n0 <= n)%nat -> release_times n dev dev_info = freed)
      /\ (forall info', fusion_slot info' = fusion_slot dev_info ->
            rift_tracked_device_exposure_release_locked freed info'
            = (freed, info'))
      /\ (let r := rift_tracked_device_exposure_release_locked dev dev_info in
          rift_tracked_device_exposure_release_locked (fst r) (snd r) = r).
Proof.
  split.
  { intros Hnone n. apply release_times_without_match. exact Hnone. }
  intros k slot Hm Hu n0 freed.
  assert (Hform := fun n => release_times_closed_form n dev dev_info k slot Hm Hu).
  apply get_matching_delay_slot_Some in Hm as Hm'.
  destruct Hm' as (Hr & Hk & Hl & Hv & Ht).
  assert (Hlt : (k < length (delay_slots dev))%nat)
    by (apply lookup_lt_Some in Hl; exact Hl).
  assert (Hfreed : freed = after_freeing dev k slot).
  { apply Hform. unfold n0. lia. }
  split; [exact Hfreed|]. split.
  { intros n Hn. apply Hform. unfold n0 in Hn. lia. }
  split.
  { intros n sl.
    destruct (Z.lt_ge_cases (Z.of_nat n) (Z.max 1 (use_count slot))) as [Hn | Hn].
    - rewrite (proj1 (Hform n) Hn). cbn.
      rewrite list_lookup_insert_eq by exact Hlt. intros [= <-]. cbn. lia.
    - rewrite (proj2 (Hform n) Hn). unfold after_freeing. cbn.
      rewrite list_lookup_insert_eq by exact Hlt. intros [= <-]. cbn. lia. }
  split.
  { intros n Hn. rewrite Hfreed. apply Hform. unfold n0 in Hn. lia. }
  split.
  { intros info' Hinfo. apply release_without_match.
    apply invalid_slot_matches_nothing. rewrite Hinfo, <- Hk, Hfreed.
    unfold after_freeing. cbn.
    rewrite list_lookup_insert_eq by exact Hlt. intros sl [= <-]. reflexivity. }
  cbn zeta.
  assert (Hsnd : snd (rift_tracked_device_exposure_release_locked dev dev_info)
                 = set_fusion_slot dev_info (-1)).
  { unfold rift_tracked_device_exposure_release_locked. rewrite Hm. reflexivity. }
  destruct (rift_tracked_device_exposure_release_locked dev dev_info)
    as [dev1 info1]. cbn in Hsnd |- *. subst info1.
  apply release_without_match. reflexivity.
Qed.

(** ** Pose observations *)

(** The orientation gate opens on a score that carries the orientation
    flag, or when more than [POSE_LOST_ORIENT_THRESHOLD] ms of device time
    have passed since [last_observed_pose_ts], the time of the last accepted
    position.  [last_observed_orient_ts] plays no part in it. *)
Lemma orientation_gate_true dev score :
  orientation_gate dev score = true <->
  POSE_HAS_FLAGS score RIFT_POSE_MATCH_ORIENT = true
  \/ POSE_LOST_ORIENT_THRESHOLD * 1000000
     < u64_sub (device_time_ns dev) (last_observed_pose_ts dev).
Proof.
  unfold orientation_gate.
  destruct (POSE_HAS_FLAGS score RIFT_POSE_MATCH_ORIENT); [tauto|].
  destruct (_ <? _) eqn:Hlt.
  - apply Z.ltb_lt in Hlt. tauto.
  - apply Z.ltb_ge in Hlt. split; [discriminate|]. intros [? | ?]; [discriminate|lia].
Qed.

Lemma position_gate_false dev dev_info score :
  position_gate dev dev_info score = false <->
  had_pose_lock dev_info = true
  /\ POSE_HAS_FLAGS score RIFT_POSE_MATCH_POSITION = false
  /\ di_device_time_ns dev_info < last_observed_pose_ts dev.
Proof.
  unfold position_gate.
  destruct (had_pose_lock dev_info),
    (POSE_HAS_FLAGS score RIFT_POSE_MATCH_POSITION),
    (di_device_time_ns dev_info <? last_observed_pose_ts dev) eqn:Hlt; cbn;
    try apply Z.ltb_lt in Hlt; try apply Z.ltb_ge in Hlt;
    intuition (discriminate || lia).
Qed.

(** What recording does to a slot. *)
Lemma record_report_room slot used pose score :
  0 <= n_pose_reports slot < RIFT_MAX_SENSORS ->
  (Z.to_nat (n_pose_reports slot) < length (pose_reports slot))%nat ->
  let sl := record_report slot used pose score in
  pose_reports sl !! Z.to_nat (n_pose_reports slot)
  = Some (mk_report used pose score)
  /\ n_pose_reports sl = n_pose_reports slot + 1
  /\ n_used_reports sl
     = (if used then n_used_reports slot + 1 else n_used_reports slot).
Proof.
  intros [_ Hroom] Hlen. cbn zeta. unfold record_report.
  apply Z.ltb_lt in Hroom. rewrite Hroom. cbn.
  rewrite list_lookup_insert_eq by exact Hlen. auto.
Qed.

Lemma record_report_full slot used pose score :
  RIFT_MAX_SENSORS <= n_pose_reports slot ->
  record_report slot used pose score = slot.
Proof.
  intros Hfull. unfold record_report.
  apply Z.ltb_ge in Hfull. rewrite Hfull. reflexivity.
Qed.

(** The pose update on a device whose slot matches the exposure. *)
Lemma model_pose_update_matching dev local_ts frame_start_local_ts
    exposure_info score model_pose dev_info k slot :
  index dev < n_devices exposure_info ->
  devices exposure_info !! Z.to_nat (index dev) = Some dev_info ->
  get_matching_delay_slot dev dev_info = Some (k, slot) ->
  let imu_pose := oposef_apply (fusion_from_model dev) model_pose in
  let update_position := position_gate dev dev_info score in
  let update_orientation := orientation_gate dev score in
  let dev' := fst (rift_tracked_device_model_pose_update dev local_ts
                     frame_start_local_ts exposure_info score model_pose) in
  snd (rift_tracked_device_model_pose_update dev local_ts
         frame_start_local_ts exposure_info score model_pose)
  = update_position || update_orientation
  /\ delay_slots dev'
     = <[k := record_report slot update_position imu_pose score]> (delay_slots dev)
  /\ ukf_fusion dev'
     = (if update_position then
          [if update_orientation
           then Ukf_pose_update (device_time_ns dev) imu_pose (slot_id slot)
           else Ukf_position_update (device_time_ns dev) (pos imu_pose)
                  (slot_id slot)]
        else []) ++ ukf_fusion dev
  /\ last_observed_pose_ts dev'
     = (if update_position then device_time_ns dev
        else last_observed_pose_ts dev)
  /\ last_observed_orient_ts dev'
     = (if POSE_HAS_FLAGS score RIFT_POSE_MATCH_ORIENT && update_position
        then device_time_ns dev else last_observed_orient_ts dev).
Proof.
  intros Hidx Hinfo Hm. cbn zeta.
  unfold rift_tracked_device_model_pose_update.
  change (index (rift_tracked_device_send_imu_debug dev)) with (index dev).
  apply Z.ltb_lt in Hidx. rewrite Hidx, Hinfo.
  change (get_matching_delay_slot (rift_tracked_device_send_imu_debug dev) dev_info)
    with (get_matching_delay_slot dev dev_info).
  rewrite Hm.
  change (position_gate (rift_tracked_device_send_imu_debug dev) dev_info score)
    with (position_gate dev dev_info score).
  change (orientation_gate (rift_tracked_device_send_imu_debug dev) score)
    with (orientation_gate dev score).
  destruct (position_gate dev dev_info score); cbn; auto.
Qed.

(** C4, as the code has it.  With a matching delay slot, the position of
    a report is rejected exactly when the exposure had pose lock, the score
    lacks the position flag and an observation newer than the exposure has
    been accepted.  A rejected report makes no filter call and leaves
    [last_observed_pose_ts] alone; it is recorded in the slot with
    [report_used = false] while the slot has room, that is, holds fewer
    than [RIFT_MAX_SENSORS] reports, and is dropped when the slot is full.
    An accepted report makes one filter call and sets
    [last_observed_pose_ts] to the device time. *)
Theorem stale_position_rejected dev local_ts frame_start_local_ts
    exposure_info score model_pose dev_info k slot :
  index dev < n_devices exposure_info ->
  devices exposure_info !! Z.to_nat (index dev) = Some dev_info ->
  get_matching_delay_slot dev dev_info = Some (k, slot) ->
  let stale :=
    had_pose_lock dev_info = true
    /\ POSE_HAS_FLAGS score RIFT_POSE_MATCH_POSITION = false
    /\ di_device_time_ns dev_info < last_observed_pose_ts dev in
  let imu_pose := oposef_apply (fusion_from_model dev) model_pose in
  let dev' := fst (rift_tracked_device_model_pose_update dev local_ts
                     frame_start_local_ts exposure_info score model_pose) in
  (position_gate dev dev_info score = false <-> stale)
  /\ (stale ->
      ukf_fusion dev' = ukf_fusion dev
      /\ last_observed_pose_ts dev' = last_observed_pose_ts dev
      /\ delay_slots dev'
         = <[k := record_report slot false imu_pose score]> (delay_slots dev)
      /\ (0 <= n_pose_reports slot < RIFT_MAX_SENSORS ->
          (Z.to_nat (n_pose_reports slot) < length (pose_reports slot))%nat ->
          pose_reports (record_report slot false imu_pose score)
            !! Z.to_nat (n_pose_reports slot)
          = Some (mk_report false imu_pose score)
          /\ n_pose_reports (record_report slot false imu_pose score)
             = n_pose_reports slot + 1
          /\ n_used_reports (record_report slot false imu_pose score)
             = n_used_reports slot)
      /\ (RIFT_MAX_SENSORS <= n_pose_reports slot ->
          delay_slots dev' = delay_slots dev))
  /\ (~ stale ->
      (exists call,
          ukf_fusion dev' = call :: ukf_fusion dev
          /\ (call = Ukf_pose_update (device_time_ns dev) imu_pose (slot_id slot)
              \/ call = Ukf_position_update (device_time_ns dev) (pos imu_pose)
                          (slot_id slot)))
      /\ last_observed_pose_ts dev' = device_time_ns dev
      /\ delay_slots dev'
         = <[k := record_report slot true imu_pose score]> (delay_slots dev)).
Proof.
  intros Hidx Hinfo Hm stale imu_pose dev'.
  destruct (model_pose_update_matching dev local_ts frame_start_local_ts
              exposure_info score model_pose dev_info k slot Hidx Hinfo Hm)
    as (_ & Hslots & Hukf & Hts & _).
  fold imu_pose dev' in Hslots, Hukf, Hts.
  pose proof (position_gate_false dev dev_info score) as Hgate.
  fold stale in Hgate.
  split; [exact Hgate|]. split.
  - intros Hstale. apply Hgate in Hstale.
    rewrite Hstale in Hslots, Hukf, Hts. cbn in Hukf.
    split; [exact Hukf|]. split; [exact Hts|]. split; [exact Hslots|]. split.
    + intros Hroom Hlen.
      apply (record_report_room slot false imu_pose score Hroom Hlen).
    + intros Hfull. rewrite Hslots, record_report_full by exact Hfull.
      apply list_insert_id.
      apply get_matching_delay_slot_Some in Hm. tauto.
  - intros Hfresh.
    destruct (position_gate dev dev_info score) eqn:Hg; [|tauto].
    cbn in Hukf. split; [|auto].
    eexists. split; [exact Hukf|].
    destruct (orientation_gate dev score); auto.
Qed.

(** ** The view pose *)

(** Between clock values in order the 64-bit difference is the plain
    difference. *)
Lemma u64_sub_plain a b : 0 <= b <= a -> a < 2 ^ 64 -> u64_sub a b = a - b.
Proof. intros Hb Ha. unfold u64_sub, wrap64. apply Z.mod_small. lia. Qed.

Lemma position_lost_true dev :
  position_lost dev = true <->
  POSE_LOST_THRESHOLD * 1000000
  <= u64_sub (device_time_ns dev) (last_observed_pose_ts dev).
Proof. unfold position_lost. apply Z.leb_le. Qed.

End TrackerProperties.

(** ** The view pose with the output filter of the spec *)

Section ViewPoseProperties.
Context {FT : FloatType} {FA : FloatArith}.
Variables (EX0 : Externals) (gain : Z -> scalar)
  (q_towards : quatf -> quatf -> quatf).

Let EXS : Externals := with_output_filter EX0 gain q_towards.

(** A repeated position is the filter's answer to it. *)
Lemma v_towards_same (g : scalar) (v : vec3f) : v_towards g v v = v.
Proof.
  unfold v_towards, f_towards.
  rewrite !f_sub_diag, !f_mul_zero, !f_add_zero. destruct v; reflexivity.
Qed.

(** C5.  A view-pose query with [device_time_ns] past
    [last_reported_pose], on a device whose output filter last put out the
    reported pose.  Once [device_time_ns - last_observed_pose_ts] (a
    [uint64_t] difference) has reached [POSE_LOST_THRESHOLD] ms, the
    reported position is the previously reported one, and the velocity and
    acceleration returned are the rotated zero vector.  Below the
    threshold the reported position is the filter's previous output moved
    towards the position of the Kalman estimate (and that position itself
    on the filter's first run), and velocity and acceleration are those of
    the estimate, rotated.  Either way the reported orientation is the
    filter's answer to the orientation of the Kalman estimate, and the
    filter has put out the pose now reported. *)
Theorem view_pose_freezes_when_lost
    (dev : @rift_tracked_device_priv FT EXS) :
  last_reported_pose dev < device_time_ns dev ->
  (forall prev, pose_output_filter dev = Some prev ->
                pos prev = pos (reported_pose dev)) ->
  let est := rift_kalman_6dof_get_pose_at (ukf_fusion dev) (device_time_ns dev) in
  let device_pose := oposef_apply (device_from_fusion dev) (est_pose est) in
  let rot := oquatf_get_rotated (orient (device_from_fusion dev)) in
  let dev' := fst (rift_tracked_device_get_view_pose dev) in
  let out := snd (rift_tracked_device_get_view_pose dev) in
  view_pose_out out = reported_pose dev'
  /\ pose_output_filter dev' = Some (reported_pose dev')
  /\ orient (reported_pose dev')
     = match pose_output_filter dev with
       | None => orient device_pose
       | Some prev => q_towards (orient prev) (orient device_pose)
       end
  /\ (POSE_LOST_THRESHOLD * 1000000
      <= u64_sub (device_time_ns dev) (last_observed_pose_ts dev) ->
      pos (reported_pose dev') = pos (reported_pose dev)
      /\ view_vel out = rot vec3f_zero
      /\ view_accel out = rot vec3f_zero)
  /\ (u64_sub (device_time_ns dev) (last_observed_pose_ts dev)
      < POSE_LOST_THRESHOLD * 1000000 ->
      pos (reported_pose dev')
      = match pose_output_filter dev with
        | None => pos device_pose
        | Some prev =>
            v_towards (gain (device_time_ns dev)) (pos prev) (pos device_pose)
        end
      /\ view_vel out = rot (est_vel est)
      /\ view_accel out = rot (est_accel est)).
Proof.
  intros Hfresh Hprev. cbn zeta.
  unfold rift_tracked_device_get_view_pose, output_filter_input.
  apply Z.ltb_lt in Hfresh. rewrite Hfresh.
  pose proof (position_lost_true dev) as Hlost.
  destruct (position_lost dev).
  - assert (Hge : POSE_LOST_THRESHOLD * 1000000
                  <= u64_sub (device_time_ns dev) (last_observed_pose_ts dev))
      by (apply Hlost; reflexivity).
    cbn. split; [reflexivity|]. split; [reflexivity|].
    destruct (pose_output_filter dev) as [prev|] eqn:Hf; cbn.
    + split; [reflexivity|]. split; [|intros Hlt; lia].
      intros _. rewrite (Hprev prev eq_refl), v_towards_same. auto.
    + split; [reflexivity|]. split; [auto | intros Hlt; lia].
  - cbn. split; [reflexivity|]. split; [reflexivity|].
    destruct (pose_output_filter dev) as [prev|] eqn:Hf; cbn.
    + split; [reflexivity|]. split; [|auto].
      intros Hge. apply Hlost in Hge. discriminate.
    + split; [reflexivity|]. split; [|auto].
      intros Hge. apply Hlost in Hge. discriminate.
Qed.

End ViewPoseProperties.

(** * The tracked device over whole runs *)

Section DeviceProperties.
Context {FT : FloatType} {EX : Externals} {DX : DeviceExternals}.

Implicit Types (dev : rift_tracked_device_priv)
  (dev_info : rift_tracked_device_exposure_info)
  (slot : rift_tracker_pose_delay_slot).

(** ** The device clock over a run of IMU samples *)

Lemma u32_sub_range a b : 0 <= u32_sub a b < 2 ^ 32.
Proof. unfold u32_sub, wrap32. apply Z.mod_pos_bound. lia. Qed.

Lemma elapsed_us_nonneg stamps : forall prev, 0 <= elapsed_us prev stamps.
Proof.
  induction stamps as [|ts rest IH]; intros prev; cbn; [lia|].
  pose proof (u32_sub_range ts prev). specialize (IH ts). lia.
Qed.

(** The state of the clock in the middle of a run: [acc] microseconds
    have been counted, and the stored raw stamp is [prev] unless the clock
    still stands at 0. *)
Lemma clock_exact_from samples : forall dev prev acc,
  0 <= acc -> device_time_ns dev = 1000 * acc ->
  (acc <> 0 -> last_device_ts dev = prev) -> (acc = 0 -> prev = 0) ->
  steps_exact prev (map sample_device_ts samples) ->
  1000 * (acc + elapsed_us prev (map sample_device_ts samples)) < 2 ^ 64 ->
  device_time_ns (imu_updates dev samples)
  = 1000 * (acc + elapsed_us prev (map sample_device_ts samples)).
Proof.
  induction samples as [|x rest IH]; intros dev prev acc Hacc Ht Hlast Hzero Hsteps Hb.
  - cbn. rewrite Ht. lia.
  - cbn [map elapsed_us steps_exact] in Hsteps, Hb |- *.
    destruct Hsteps as (Hts & Hstep & Hrest).
    set (ts := sample_device_ts x) in *.
    pose proof (elapsed_us_nonneg (map sample_device_ts rest) ts) as Hpos.
    pose proof (u32_sub_range ts prev) as Hd.
    unfold MAX_EXACT_STEP_US in Hstep.
    change (imu_updates dev (x :: rest)) with (imu_updates (imu_update dev x) rest).
    destruct (imu_update_clock dev (sample_local_ts x) ts (sample_dt x)
                (sample_ang_vel x) (sample_accel x) (sample_mag x))
      as (Hclock & Hl & _).
    cbn zeta in Hclock, Hl.
    change (rift_tracked_device_imu_update dev (sample_local_ts x) ts
              (sample_dt x) (sample_ang_vel x) (sample_accel x) (sample_mag x))
      with (imu_update dev x) in Hclock, Hl.
    assert (Hnext : next_device_time_ns dev ts = 1000 * (acc + u32_sub ts prev)).
    { unfold next_device_time_ns. rewrite Ht.
      destruct (1000 * acc =? 0) eqn:Hz.
      - apply Z.eqb_eq in Hz. assert (acc = 0) by lia. subst acc.
        rewrite (Hzero eq_refl) in *.
        unfold u32_mul, wrap32. unfold u32_sub, wrap32 in *.
        rewrite Z.sub_0_r in *. rewrite (Z.mod_small ts) in * by lia.
        rewrite Z.mod_small by lia. lia.
      - apply Z.eqb_neq in Hz. rewrite Hlast by lia.
        unfold u32_mul, wrap32. rewrite Z.mod_small by lia.
        unfold u64_add, wrap64. rewrite Z.mod_small by lia. lia. }
    rewrite (IH (imu_update dev x) ts (acc + u32_sub ts prev)); try lia;
      try assumption.
    intros H0. assert (u32_sub ts prev = 0) by lia. assert (acc = 0) by lia.
    rewrite (Hzero ltac:(assumption)) in *.
    unfold u32_sub, wrap32 in *. rewrite Z.sub_0_r, Z.mod_small in * by lia.
    lia.
Qed.

(** X8.  The extended clock is exact while the samples come often enough.
    A device whose clock stands at 0 is fed IMU samples.  If the first raw
    stamp, and after it every difference between consecutive raw stamps
    taken modulo [2^32], is at most 4294967 us, then after the samples the
    64-bit clock is 1000 times the sum of those differences, in
    nanoseconds, wherever the raw stamps wrapped in between; and the stored
    raw stamp is the last one. *)
Theorem device_clock_exact dev samples :
  device_time_ns dev = 0 ->
  steps_exact 0 (map sample_device_ts samples) ->
  1000 * elapsed_us 0 (map sample_device_ts samples) < 2 ^ 64 ->
  device_time_ns (imu_updates dev samples)
  = 1000 * elapsed_us 0 (map sample_device_ts samples)
  /\ forall x, last samples = Some x ->
               last_device_ts (imu_updates dev samples) = sample_device_ts x.
Proof.
  intros Hz Hsteps Hb. split.
  - rewrite (clock_exact_from samples dev 0 0); try lia; try assumption.
  - intros x Hlast. clear Hz Hsteps Hb. revert dev.
    induction samples as [|y rest IH]; intros dev; [discriminate|].
    change (imu_updates dev (y :: rest)) with (imu_updates (imu_update dev y) rest).
    destruct rest as [|z rest'].
    + injection Hlast as ->. cbn.
      destruct (imu_update_clock dev (sample_local_ts x) (sample_device_ts x)
                  (sample_dt x) (sample_ang_vel x) (sample_accel x)
                  (sample_mag x)) as (_ & Hl & _).
      exact Hl.
    + apply IH. exact Hlast.
Qed.

(** ** Claims and releases *)

Lemma set_use_valid slot c :
  valid slot = true -> set_use slot (valid slot) c = set_use slot true c.
Proof. intros ->. reflexivity. Qed.

(** A claim that finds its slot adds one to the count and leaves the slot
    matching. *)
Lemma claim_matching dev dev_info k slot :
  get_matching_delay_slot dev dev_info = Some (k, slot) ->
  let slot' := set_use slot true (use_count slot + 1) in
  let dev1 := set_delay_slots dev (<[k := slot']> (delay_slots dev)) in
  rift_tracked_device_exposure_claim dev dev_info
  = (dev1, set_fusion_slot dev_info (slot_id slot))
  /\ get_matching_delay_slot dev1 dev_info = Some (k, slot').
Proof.
  intros Hm. cbn zeta.
  apply get_matching_delay_slot_Some in Hm as Hm'.
  destruct Hm' as (Hr & Hk & Hl & Hv & Ht). split.
  - unfold rift_tracked_device_exposure_claim. rewrite Hm, Hv. reflexivity.
  - apply get_matching_delay_slot_Some. cbn.
    repeat apply conj; try assumption; try lia.
    apply list_lookup_insert_eq. apply lookup_lt_Some in Hl. exact Hl.
Qed.

Lemma claim_times_closed_form n : forall dev dev_info k slot,
  get_matching_delay_slot dev dev_info = Some (k, slot) ->
  claim_times n dev dev_info
  = set_delay_slots dev
      (<[k := set_use slot true (use_count slot + Z.of_nat n)]> (delay_slots dev))
  /\ get_matching_delay_slot (claim_times n dev dev_info) dev_info
     = Some (k, set_use slot true (use_count slot + Z.of_nat n)).
Proof.
  induction n as [|n IH]; intros dev dev_info k slot Hm.
  - cbn [claim_times]. rewrite Z.add_0_r.
    apply get_matching_delay_slot_Some in Hm as Hm'.
    destruct Hm' as (_ & _ & Hl & Hv & _).
    assert (Hs : set_use slot true (use_count slot) = slot)
      by (destruct slot; unfold set_use; cbn in *; subst; reflexivity).
    rewrite Hs, list_insert_id by exact Hl.
    split; [destruct dev; reflexivity|].
    replace (set_delay_slots dev (delay_slots dev)) with dev
      by (destruct dev; reflexivity).
    exact Hm.
  - cbn [claim_times].
    destruct (claim_matching dev dev_info k slot Hm) as [Hc Hm1].
    rewrite Hc. cbn [fst].
    destruct (IH _ _ _ _ Hm1) as [IH1 IH2]. cbn in IH1, IH2.
    rewrite list_insert_insert_eq in IH1.
    replace (use_count slot + 1 + Z.of_nat n)
      with (use_count slot + Z.of_nat (S n)) in IH1, IH2 by lia.
    rewrite IH2. split; [|reflexivity].
    rewrite IH1. destruct dev; reflexivity.
Qed.

(** X9.  Claims and releases add up.  An exposure whose slot matches is
    claimed by [n] frames and then released [m] times, each claim and
    release through a frame's own copy of the exposure entry.  While fewer
    releases than claims (plus the count the slot started with) have been
    made, the slot stays valid with the difference as its count, and the
    filter is not told.  The release that brings the count to 0 frees the
    slot: it is invalid, the filter is told to release it, once, and the
    releases after that do nothing. *)
Theorem claims_then_releases n m dev dev_info k slot :
  get_matching_delay_slot dev dev_info = Some (k, slot) ->
  0 <= use_count slot ->
  let total := use_count slot + Z.of_nat n in
  let dev' := release_times m (claim_times n dev dev_info) dev_info in
  (Z.of_nat m < Z.max 1 total ->
   dev' = set_delay_slots dev
            (<[k := set_use slot true (total - Z.of_nat m)]> (delay_slots dev)))
  /\ (Z.max 1 total <= Z.of_nat m ->
      delay_slots dev' = <[k := set_use slot false 0]> (delay_slots dev)
      /\ ukf_fusion dev' = Ukf_release_delay_slot (slot_id slot) :: ukf_fusion dev
      /\ get_matching_delay_slot dev' dev_info = None).
Proof.
  intros Hm Hu. cbn zeta.
  destruct (claim_times_closed_form n dev dev_info k slot Hm) as [Hc Hm1].
  apply get_matching_delay_slot_Some in Hm as Hm'.
  destruct Hm' as (_ & Hk & Hl & _).
  assert (Hlt : (k < length (delay_slots dev))%nat)
    by (apply lookup_lt_Some in Hl; exact Hl).
  destruct (release_times_closed_form m _ _ _ _ Hm1) as [Hr1 Hr2]; [cbn; lia|].
  cbn in Hr1, Hr2. split.
  - intros Hlt'. rewrite Hr1 by exact Hlt'. rewrite Hc. cbn.
    rewrite list_insert_insert_eq. destruct dev; reflexivity.
  - intros Hge. rewrite Hr2 by exact Hge. rewrite Hc.
    unfold after_freeing. cbn. rewrite list_insert_insert_eq.
    split; [reflexivity|]. split; [reflexivity|].
    apply invalid_slot_matches_nothing. cbn. rewrite <- Hk.
    intros sl. rewrite list_lookup_insert_eq by exact Hlt.
    intros [= <-]. reflexivity.
Qed.

(** ** Exposures and their slots *)

Lemma find_free_loop_cursor n slots : forall c,
  0 <= c < 3 -> 0 <= fst (find_free_loop n slots c) < 3.
Proof.
  induction n as [|n IH]; intros c Hc; cbn [find_free_loop]; [exact Hc|].
  assert (Hc1 : 0 <= Z.rem (c + 1) NUM_POSE_DELAY_SLOTS < 3).
  { unfold NUM_POSE_DELAY_SLOTS. rewrite Z.rem_mod_nonneg by lia.
    apply Z.mod_pos_bound. lia. }
  destruct (slots !! Z.to_nat c) as [slot|]; [|apply IH; exact Hc1].
  destruct (use_count slot =? 0); [exact Hc1 | apply IH; exact Hc1].
Qed.

(** What a new exposure does to the device, field by field: either slot
    [i] is taken for it, or nothing but the cursor is written. *)
Lemma on_new_exposure_shape dev entry :
  let r := rift_tracked_device_on_new_exposure dev entry in
  let c' := fst (find_free_loop (Z.to_nat NUM_POSE_DELAY_SLOTS)
                   (delay_slots dev) (delay_slot_index dev)) in
  di_device_time_ns (snd r) = device_time_ns dev
  /\ delay_slot_index (fst r) = c'
  /\ device_time_ns (fst r) = device_time_ns dev
  /\ last_device_ts (fst r) = last_device_ts dev
  /\ last_observed_pose_ts (fst r) = last_observed_pose_ts dev
  /\ pending_imu_observations (fst r) = pending_imu_observations dev
  /\ ((exists i slot,
         delay_slots dev !! i = Some slot
         /\ delay_slots (fst r)
            = <[i := stamp_slot slot (device_time_ns dev)]> (delay_slots dev)
         /\ fusion_slot (snd r) = slot_id slot
         /\ had_pose_lock (snd r) = negb (position_lost dev)
         /\ capture_pose (snd r) = model_pose (fst r)
         /\ model_pose (fst r)
            = mk_posef
                (if position_lost dev then pos (model_pose dev)
                 else pos (model_estimate dev))
                (orient (model_estimate dev))
         /\ ukf_fusion (fst r)
            = Ukf_prepare_delay_slot (device_time_ns dev) (slot_id slot)
                :: Ukf_get_pose_at (device_time_ns dev) :: ukf_fusion dev)
      \/ (fusion_slot (snd r) = -1
          /\ fst r = set_delay_slot_index dev c'
          /\ had_pose_lock (snd r) = had_pose_lock entry
          /\ capture_pose (snd r) = capture_pose entry
          /\ pos_error (snd r) = pos_error entry
          /\ rot_error (snd r) = rot_error entry)).
Proof.
  cbn zeta. unfold rift_tracked_device_on_new_exposure, find_free_delay_slot.
  destruct (find_free_loop (Z.to_nat NUM_POSE_DELAY_SLOTS) (delay_slots dev)
              (delay_slot_index dev)) as [c' found].
  cbn [fst].
  unfold reclaim_delay_slot, rift_tracked_device_get_model_pose_locked.
  cbn [delay_slots set_delay_slot_index set_delay_slots device_time_ns
       last_observed_pose_ts].
  assert (Hlost : (u64_sub (device_time_ns dev) (last_observed_pose_ts dev)
                   <? POSE_LOST_THRESHOLD * 1000000)
                  = negb (position_lost dev)).
  { unfold position_lost. apply Z.ltb_antisym. }
  rewrite Hlost. unfold model_estimate.
  destruct found as [k|];
    [|destruct (reclaim_loop _ _ _) as [k|]];
    try (destruct (delay_slots dev !! k) as [slot|] eqn:Hl);
    cbn; (repeat apply conj; try reflexivity);
    first [ right; repeat apply conj; reflexivity
          | left; exists k, slot; split; [exact Hl|];
            destruct (position_lost dev); cbn; repeat apply conj; reflexivity ].
Qed.

Lemma no_match_claim dev dev_info :
  get_matching_delay_slot dev dev_info = None ->
  rift_tracked_device_exposure_claim dev dev_info
  = (dev, if fusion_slot dev_info =? -1 then dev_info
          else set_fusion_slot dev_info (-1)).
Proof. unfold rift_tracked_device_exposure_claim. intros ->. reflexivity. Qed.

Lemma no_match_pose_update dev local_ts frame_start_local_ts exposure_info
    score model_pose :
  (forall dev_info,
      index dev < n_devices exposure_info ->
      devices exposure_info !! Z.to_nat (index dev) = Some dev_info ->
      get_matching_delay_slot dev dev_info = None) ->
  rift_tracked_device_model_pose_update dev local_ts frame_start_local_ts
    exposure_info score model_pose
  = (rift_tracked_device_send_imu_debug dev, false).
Proof.
  intros Hnone. unfold rift_tracked_device_model_pose_update.
  change (index (rift_tracked_device_send_imu_debug dev)) with (index dev).
  destruct (index dev <? n_devices exposure_info) eqn:Hi; [|reflexivity].
  apply Z.ltb_lt in Hi.
  destruct (devices exposure_info !! Z.to_nat (index dev)) as [dev_info|] eqn:Hl;
    [|reflexivity].
  change (get_matching_delay_slot (rift_tracked_device_send_imu_debug dev) dev_info)
    with (get_matching_delay_slot dev dev_info).
  rewrite (Hnone dev_info Hi eq_refl). reflexivity.
Qed.

Lemma no_match_latest_pose dev dev_info :
  get_matching_delay_slot dev dev_info = None ->
  rift_tracked_device_get_latest_exposure_info_pose dev dev_info
  = (dev, if fusion_slot dev_info =? -1 then dev_info
          else set_fusion_slot dev_info (-1), false).
Proof.
  unfold rift_tracked_device_get_latest_exposure_info_pose. intros ->.
  destruct (fusion_slot dev_info =? -1); reflexivity.
Qed.

(** X10.  A slot given to a new exposure belongs to that exposure alone.
    When a new exposure is given a slot, its own entry matches the slot from
    then on.  An entry of an earlier exposure that names the same slot but
    carries another device time (the slot was reclaimed, or freed and taken
    again) matches nothing any more: claiming through it only clears its
    [fusion_slot]; releasing through it does nothing; a pose report for it
    is dropped with result [false] and no filter call, only the pending IMU
    observations being sent; and asking for its latest pose fails and
    clears its [fusion_slot]. *)
Theorem exposure_slot_taken_over dev entry old :
  device_ok dev ->
  let dev' := fst (rift_tracked_device_on_new_exposure dev entry) in
  let info' := snd (rift_tracked_device_on_new_exposure dev entry) in
  fusion_slot info' <> -1 ->
  (exists slot,
      get_matching_delay_slot dev' info'
      = Some (Z.to_nat (fusion_slot info'), slot)
      /\ use_count slot = 0 /\ n_pose_reports slot = 0
      /\ n_used_reports slot = 0)
  /\ (fusion_slot old = fusion_slot info' ->
      di_device_time_ns old <> device_time_ns dev ->
      get_matching_delay_slot dev' old = None
      /\ rift_tracked_device_exposure_claim dev' old
         = (dev', set_fusion_slot old (-1))
      /\ rift_tracked_device_exposure_release_locked dev' old = (dev', old)
      /\ rift_tracked_device_get_latest_exposure_info_pose dev' old
         = (dev', set_fusion_slot old (-1), false)
      /\ forall local_ts frame_start_local_ts exposure_info score model_pose,
          devices exposure_info !! Z.to_nat (index dev') = Some old ->
          rift_tracked_device_model_pose_update dev' local_ts
            frame_start_local_ts exposure_info score model_pose
          = (rift_tracked_device_send_imu_debug dev', false)).
Proof.
  intros ((Hlen & Hc) & Hids & _) dev' info' Hslot.
  destruct (on_new_exposure_shape dev entry)
    as (Ht & _ & _ & _ & _ & _ & Hcase).
  fold dev' info' in Ht, Hcase.
  destruct Hcase as [(i & slot & Hl & Hslots & Hfs & _) | (Hnone & _)];
    [|contradiction].
  destruct (Hids i slot Hl) as [Hid _].
  assert (Hi : (i < 3)%nat) by (apply lookup_lt_Some in Hl; lia).
  assert (Hnew : delay_slots dev' !! i = Some (stamp_slot slot (device_time_ns dev))).
  { rewrite Hslots. apply list_lookup_insert_eq. lia. }
  assert (Hidx : Z.to_nat (fusion_slot info') = i) by lia.
  split.
  - exists (stamp_slot slot (device_time_ns dev)). split; [|auto].
    apply get_matching_delay_slot_Some. rewrite Hidx.
    repeat apply conj; try lia; try assumption; try reflexivity.
    symmetry. exact Ht.
  - intros Hsame Hold.
    assert (Hno : get_matching_delay_slot dev' old = None).
    { destruct (get_matching_delay_slot dev' old) as [[k sl]|] eqn:Hm;
        [|reflexivity].
      apply get_matching_delay_slot_Some in Hm as (_ & -> & Hl' & _ & Htime).
      rewrite Hsame, Hidx, Hnew in Hl'. injection Hl' as <-.
      cbn in Htime. congruence. }
    assert (Hne : (fusion_slot old =? -1) = false) by (apply Z.eqb_neq; lia).
    split; [exact Hno|].
    split; [rewrite no_match_claim, Hne by exact Hno; reflexivity|].
    split; [apply release_without_match; exact Hno|].
    split; [rewrite no_match_latest_pose, Hne by exact Hno; reflexivity|].
    intros local_ts frame_start_local_ts exposure_info score model_pose Hentry.
    apply no_match_pose_update. intros dev_info _ Hl'.
    rewrite Hentry in Hl'. injection Hl' as <-. exact Hno.
Qed.

(** X11.  Pose lock and capture pose of a new exposure.  The entry always
    carries the device time.  When the exposure is given a slot, its
    [had_pose_lock] says whether the last positional observation is less
    than [POSE_LOST_THRESHOLD] ms old, the same test that freezes the view
    pose; its capture pose is the device's model pose, whose orientation is
    the filter's estimate and whose position is the estimate's under pose
    lock and the previous model position without.  When it is given no
    slot, the pose-lock flag, capture pose and error vectors of the entry
    are left as the previous exposure set them, and the device's filter and
    model pose are not touched. *)
Theorem new_exposure_pose_lock dev entry :
  let dev' := fst (rift_tracked_device_on_new_exposure dev entry) in
  let info' := snd (rift_tracked_device_on_new_exposure dev entry) in
  di_device_time_ns info' = device_time_ns dev
  /\ ((exists i slot,
          delay_slots dev !! i = Some slot
          /\ fusion_slot info' = slot_id slot
          /\ had_pose_lock info' = negb (position_lost dev)
          /\ capture_pose info' = model_pose dev'
          /\ orient (capture_pose info') = orient (model_estimate dev)
          /\ pos (capture_pose info')
             = (if had_pose_lock info' then pos (model_estimate dev)
                else pos (model_pose dev)))
      \/ (fusion_slot info' = -1
          /\ had_pose_lock info' = had_pose_lock entry
          /\ capture_pose info' = capture_pose entry
          /\ pos_error info' = pos_error entry
          /\ rot_error info' = rot_error entry
          /\ ukf_fusion dev' = ukf_fusion dev
          /\ model_pose dev' = model_pose dev
          /\ delay_slots dev' = delay_slots dev)).
Proof.
  cbn zeta.
  destruct (on_new_exposure_shape dev entry)
    as (Ht & _ & _ & _ & _ & _ & Hcase).
  split; [exact Ht|].
  destruct Hcase as [(i & slot & Hl & _ & Hfs & Hlock & Hcap & Hmodel & _)
                    | (Hnone & Hdev & Hl & Hc & Hp & Hr)].
  - left. exists i, slot. rewrite Hcap, Hmodel, Hlock.
    repeat apply conj; try assumption; try reflexivity.
    cbn. destruct (position_lost dev); reflexivity.
  - right. rewrite Hdev. cbn. auto 10.
Qed.

(** ** What every operation keeps *)

Lemma slots_insert_keeps (slots : list rift_tracker_pose_delay_slot) k slot slot' :
  slots !! k = Some slot -> slot_id slot' = slot_id slot ->
  (slot_ok slot -> slot_ok slot') ->
  forall i s', <[k := slot']> slots !! i = Some s' ->
    exists s0, slots !! i = Some s0 /\ slot_id s' = slot_id s0
               /\ (slot_ok s0 -> slot_ok s').
Proof.
  intros Hl Hid Hok i s' Hi.
  destruct (decide (i = k)) as [-> | Hne].
  - rewrite list_lookup_insert_eq in Hi by (apply lookup_lt_Some in Hl; exact Hl).
    injection Hi as <-. eauto.
  - rewrite list_lookup_insert_ne in Hi by congruence. eauto.
Qed.

(** A device stays well formed under an operation that leaves the clock
    alone, adds no pending IMU observation and rewrites slots only by
    well-formed slots with the same [slot_id]. *)
Lemma device_ok_keeps dev dev' :
  device_ok dev ->
  length (delay_slots dev') = length (delay_slots dev) ->
  0 <= delay_slot_index dev' < 3 ->
  (forall i s', delay_slots dev' !! i = Some s' ->
     exists s0, delay_slots dev !! i = Some s0 /\ slot_id s' = slot_id s0
                /\ (slot_ok s0 -> slot_ok s')) ->
  (length (pending_imu_observations dev')
   <= length (pending_imu_observations dev))%nat ->
  device_time_ns dev' = device_time_ns dev ->
  last_device_ts dev' = last_device_ts dev ->
  device_ok dev'.
Proof.
  intros ((Hlen & Hc) & Hids & Hpend & Hpos & Hclock) Hlen' Hc' Hslots Hp Ht Hl.
  split; [split; [congruence | exact Hc']|].
  split.
  { intros i s' Hi. destruct (Hslots i s' Hi) as (s0 & Hl0 & Hid & Hok).
    destruct (Hids i s0 Hl0) as [Hid0 Hok0]. split; [congruence | auto]. }
  split; [lia|]. rewrite Ht. split; [exact Hpos|].
  intros Hnz. destruct (Hclock Hnz) as [H1 H2].
  split; rewrite ?Ht, ?Hl; assumption.
Qed.

Lemma slots_same_keeps (slots : list rift_tracker_pose_delay_slot) :
  forall i s', slots !! i = Some s' ->
    exists s0, slots !! i = Some s0 /\ slot_id s' = slot_id s0
               /\ (slot_ok s0 -> slot_ok s').
Proof. intros i s' Hi. eauto. Qed.

Lemma device_ok_imu_update dev x : device_ok dev -> device_ok (imu_update dev x).
Proof.
  intros ((Hlen & Hc) & Hids & Hpend & Hpos & Hclock).
  assert (Hnext : 0 <= next_device_time_ns dev (sample_device_ts x)
                  /\ wrap32 (next_device_time_ns dev (sample_device_ts x))
                     = u32_mul (sample_device_ts x) 1000).
  { destruct (Z.eq_dec (device_time_ns dev) 0) as [Hz | Hnz].
    - rewrite clock_first_sample by exact Hz. unfold u32_mul, wrap32.
      split; [apply Z.mod_pos_bound; lia | apply Z.mod_mod; lia].
    - destruct (clock_advance_modular dev (sample_device_ts x) (Hclock Hnz))
        as [_ [H1 H2]]. auto. }
  unfold imu_update, rift_tracked_device_imu_update.
  destruct (_ =? RIFT_MAX_PENDING_IMU_OBSERVATIONS) eqn:Hfull;
    unfold device_ok, slots_ok, clock_ok, RIFT_MAX_PENDING_IMU_OBSERVATIONS in *;
    cbn in Hfull |- *; rewrite ?length_app in *; cbn in Hfull |- *;
    [|apply Z.eqb_neq in Hfull];
    repeat apply conj; try assumption; try apply Hnext; try lia;
    intros _; apply Hnext.
Qed.

Lemma stamp_slot_ok slot t : slot_ok slot -> slot_ok (stamp_slot slot t).
Proof. unfold slot_ok. cbn. lia. Qed.

Lemma device_ok_new_exposure dev entry :
  device_ok dev ->
  device_ok (rift_tracked_device_send_imu_debug
               (fst (rift_tracked_device_on_new_exposure dev entry))).
Proof.
  intros Hok.
  destruct (on_new_exposure_shape dev entry)
    as (_ & Hcur & Ht & Hl & _ & _ & Hcase).
  pose proof Hok as ((Hlen & Hc) & _).
  apply (device_ok_keeps dev); try assumption.
  - cbn. destruct Hcase as [(i & slot & _ & -> & _) | (_ & -> & _)];
      [apply length_insert | reflexivity].
  - cbn. rewrite Hcur. apply find_free_loop_cursor. exact Hc.
  - cbn. destruct Hcase as [(i & slot & Hli & -> & _) | (_ & -> & _)].
    + apply (slots_insert_keeps _ i slot); [exact Hli | reflexivity|].
      apply stamp_slot_ok.
    + apply slots_same_keeps.
  - cbn. lia.
Qed.

Lemma set_use_ok slot v c : slot_ok slot -> 0 <= c -> slot_ok (set_use slot v c).
Proof. unfold slot_ok. cbn. lia. Qed.

Lemma device_ok_claim dev dev_info :
  device_ok dev ->
  device_ok (fst (rift_tracked_device_exposure_claim dev dev_info)).
Proof.
  intros Hok. pose proof Hok as ((Hlen & Hc) & Hids & _).
  unfold rift_tracked_device_exposure_claim.
  destruct (get_matching_delay_slot dev dev_info) as [[k slot]|] eqn:Hm;
    [|exact Hok].
  apply get_matching_delay_slot_Some in Hm as (_ & _ & Hl & _).
  apply (device_ok_keeps dev); try assumption; cbn; try reflexivity; try lia.
  - apply length_insert.
  - apply (slots_insert_keeps _ k slot); [exact Hl | reflexivity|].
    intros Hs. apply set_use_ok; [exact Hs|]. destruct Hs. lia.
Qed.

Lemma device_ok_release dev dev_info :
  device_ok dev ->
  device_ok (fst (rift_tracked_device_exposure_release_locked dev dev_info)).
Proof.
  intros Hok. pose proof Hok as ((Hlen & Hc) & Hids & _).
  unfold rift_tracked_device_exposure_release_locked.
  destruct (get_matching_delay_slot dev dev_info) as [[k slot]|] eqn:Hm;
    [|exact Hok].
  apply get_matching_delay_slot_Some in Hm as (_ & _ & Hl & _).
  destruct (Hids k slot Hl) as [_ Hs].
  assert (Hcount : 0 <= (if 0 <? use_count slot then use_count slot - 1
                          else use_count slot)).
  { destruct (0 <? use_count slot) eqn:Hp; [apply Z.ltb_lt in Hp; lia|].
    destruct Hs. lia. }
  cbn [fst].
  destruct (_ =? 0);
    (apply (device_ok_keeps dev); try assumption; cbn; try reflexivity; try lia;
     [apply length_insert|];
     apply (slots_insert_keeps _ k slot); [exact Hl | reflexivity|];
     intros Hs'; apply set_use_ok; assumption).
Qed.

Lemma record_report_ok slot used pose score :
  slot_ok slot -> slot_ok (record_report slot used pose score).
Proof.
  unfold slot_ok, record_report. intros (Hu & Hn & Hmax & Hlen).
  destruct (n_pose_reports slot <? RIFT_MAX_SENSORS) eqn:Hroom;
    [|auto].
  apply Z.ltb_lt in Hroom. cbn. rewrite length_insert.
  destruct used; lia.
Qed.

Lemma device_ok_pose_update dev local_ts frame_start_local_ts exposure_info
    score model_pose :
  device_ok dev ->
  device_ok (fst (rift_tracked_device_model_pose_update dev local_ts
                    frame_start_local_ts exposure_info score model_pose)).
Proof.
  intros Hok. pose proof Hok as ((Hlen & Hc) & Hids & _).
  assert (Hflush : device_ok (rift_tracked_device_send_imu_debug dev)).
  { apply (device_ok_keeps dev); try assumption; cbn; try reflexivity; try lia.
    apply slots_same_keeps. }
  unfold rift_tracked_device_model_pose_update.
  destruct (_ <? _); [|exact Hflush].
  destruct (_ !! _) as [dev_info|]; [|exact Hflush].
  change (get_matching_delay_slot (rift_tracked_device_send_imu_debug dev) dev_info)
    with (get_matching_delay_slot dev dev_info).
  destruct (get_matching_delay_slot dev dev_info) as [[k slot]|] eqn:Hm;
    [|exact Hflush].
  apply get_matching_delay_slot_Some in Hm as (_ & _ & Hl & _).
  cbn [fst].
  destruct (position_gate _ _ _);
    (apply (device_ok_keeps dev); try assumption; cbn; try reflexivity; try lia;
     [apply length_insert|];
     apply (slots_insert_keeps _ k slot);
     [exact Hl | unfold record_report; destruct (_ <? _); reflexivity|];
     apply record_report_ok).
Qed.

Lemma device_ok_step dev op : device_ok dev -> device_ok (device_step dev op).
Proof.
  intros Hok. pose proof Hok as ((Hlen & Hc) & Hids & _).
  destruct op; cbn [device_step].
  - apply device_ok_imu_update. exact Hok.
  - apply device_ok_new_exposure. exact Hok.
  - apply device_ok_claim. exact Hok.
  - apply device_ok_release. exact Hok.
  - unfold rift_tracked_device_frame_release.
    destruct (_ <? _); [|exact Hok].
    destruct (_ !! _) as [dev_info|]; [|exact Hok].
    pose proof (device_ok_release dev dev_info Hok) as Hr.
    destruct (rift_tracked_device_exposure_release_locked dev dev_info).
    exact Hr.
  - apply device_ok_pose_update. exact Hok.
  - unfold rift_tracked_device_get_latest_exposure_info_pose.
    destruct (_ =? _); [exact Hok|].
    destruct (get_matching_delay_slot dev dev_info) as [[k slot]|]; [|exact Hok].
    destruct (rift_kalman_6dof_get_delay_slot_pose_at _ _ _) as [ukf est].
    apply (device_ok_keeps dev); try assumption; cbn; try reflexivity; try lia.
    apply slots_same_keeps.
  - unfold rift_tracked_device_get_view_pose.
    destruct (_ <? _); [destruct (exp_filter_pose_run _ _ _ _)|];
      (apply (device_ok_keeps dev); try assumption; cbn; try reflexivity; try lia;
       apply slots_same_keeps).
  - apply (device_ok_keeps dev); try assumption; cbn; try reflexivity; try lia.
    apply slots_same_keeps.
  - destruct sinks; [|exact Hok].
    apply (device_ok_keeps dev); try assumption; cbn; try reflexivity; try lia.
    apply slots_same_keeps.
Qed.

(** X12.  Whatever is done with a well-formed device, in any order and with
    any arguments (IMU samples, exposures, claims, releases, pose reports
    and pose queries), it stays well formed: the slot table keeps its three
    slots, slot [i] carrying [slot_id = i], and the cursor stays inside it;
    in every slot [0 <= use_count] and
    [0 <= n_used_reports <= n_pose_reports <= RIFT_MAX_SENSORS], so that a
    report is only ever written inside the report array; the pending IMU
    observations stay below [RIFT_MAX_PENDING_IMU_OBSERVATIONS], so that an
    observation is only ever written inside their array; and the extended
    clock, once it has left 0, is congruent modulo [2^32] to the last raw
    stamp in nanoseconds. *)
Theorem device_stays_well_formed ops : forall dev,
  device_ok dev -> device_ok (device_run dev ops).
Proof.
  induction ops as [|op ops IH]; intros dev Hok; [exact Hok|].
  apply IH. apply device_ok_step. exact Hok.
Qed.

(** ** A device just added *)

Lemma init_slots_three (a b c : rift_tracker_pose_delay_slot) :
  init_slots_loop (Z.to_nat NUM_POSE_DELAY_SLOTS) 0 [a; b; c]
  = [mk_slot 0 false (use_count a) (slot_device_time_ns a) (n_pose_reports a)
       (pose_reports a) (n_used_reports a);
     mk_slot 1 false (use_count b) (slot_device_time_ns b) (n_pose_reports b)
       (pose_reports b) (n_used_reports b);
     mk_slot 2 false (use_count c) (slot_device_time_ns c) (n_pose_reports c)
       (pose_reports c) (n_used_reports c)].
Proof. reflexivity. Qed.

(** The debug print sends the pending IMU observations at most; after
    they have been sent it changes nothing. *)
Lemma send_debug_printf_fields sinks dev :
  exists pending,
    rift_tracked_device_send_debug_printf sinks dev = set_pending dev pending
    /\ (pending = [] \/ pending = pending_imu_observations dev).
Proof.
  destruct sinks; cbn.
  - exists []. auto.
  - exists (pending_imu_observations dev). destruct dev; auto.
Qed.

Lemma send_debug_printf_after_send sinks dev :
  rift_tracked_device_send_debug_printf sinks
    (rift_tracked_device_send_imu_debug dev)
  = rift_tracked_device_send_imu_debug dev.
Proof. destruct sinks; reflexivity. Qed.

Lemma device_ok_send_debug_printf sinks dev :
  device_ok dev -> device_ok (rift_tracked_device_send_debug_printf sinks dev).
Proof.
  intros Hok. destruct sinks; [|exact Hok].
  apply (device_ok_step dev (Op_debug_printf true) Hok).
Qed.

(** The slots of a device just added, and that it is well formed. *)
Lemma add_device_init_ok next_dev imu_pose led_model_pose trace :
  entry_ok next_dev ->
  let dev := add_device_init next_dev imu_pose led_model_pose trace in
  device_ok dev
  /\ forall i slot, delay_slots dev !! i = Some slot ->
                    slot_id slot = Z.of_nat i /\ valid slot = false.
Proof.
  intros ((Hlen & Hc) & Hslots & Hpend). cbn zeta.
  destruct (delay_slots next_dev) as [|a [|b [|c [|]]]] eqn:Hs; try discriminate.
  assert (Hinit : delay_slots
                    (add_device_init next_dev imu_pose led_model_pose trace)
                  = init_slots_loop (Z.to_nat NUM_POSE_DELAY_SLOTS) 0 [a; b; c]).
  { unfold add_device_init. destruct trace; cbn; rewrite Hs; reflexivity. }
  rewrite init_slots_three in Hinit.
  assert (Hids : forall i slot,
             delay_slots (add_device_init next_dev imu_pose led_model_pose trace)
               !! i = Some slot ->
             slot_id slot = Z.of_nat i /\ valid slot = false /\ slot_ok slot).
  { intros i slot. rewrite Hinit.
    destruct i as [|[|[|i]]]; cbn; intros [= <-]; cbn;
      (split; [reflexivity|]); (split; [reflexivity|]).
    - exact (Hslots 0%nat a eq_refl).
    - exact (Hslots 1%nat b eq_refl).
    - exact (Hslots 2%nat c eq_refl). }
  split.
  - split; [split; [rewrite Hinit; reflexivity | destruct trace; exact Hc]|].
    split; [intros i slot Hl; destruct (Hids i slot Hl) as (? & _ & ?); auto|].
    split.
    { destruct trace; [|exact Hpend].
      unfold RIFT_MAX_PENDING_IMU_OBSERVATIONS. cbn. lia. }
    destruct trace; cbn; (split; [lia | congruence]).
  - intros i slot Hl. destruct (Hids i slot Hl) as (? & ? & _). auto.
Qed.

(** X13.  What [rift_tracker_add_device] leaves in a device entry.  If the
    entry's memory has three slots with counts in order, a cursor inside
    the table and room for pending IMU observations (zeroed memory has),
    the device is well formed.  Its clock and observation times are 0 and
    its filter is fresh; slot [i] carries [slot_id = i] and is invalid, so
    no exposure entry matches the device until it is given a slot for a new
    exposure; and its first IMU sample sets the clock from the sample's
    stamp alone. *)
Theorem added_device_ready next_dev imu_pose led_model_pose trace :
  entry_ok next_dev ->
  let dev := add_device_init next_dev imu_pose led_model_pose trace in
  device_ok dev
  /\ device_time_ns dev = 0 /\ last_observed_pose_ts dev = 0
  /\ last_observed_orient_ts dev = 0 /\ last_reported_pose dev = 0
  /\ ukf_fusion dev = []
  /\ model_from_fusion dev = oposef_inverse (fusion_from_model dev)
  /\ (forall i slot, delay_slots dev !! i = Some slot ->
                     slot_id slot = Z.of_nat i /\ valid slot = false)
  /\ (forall dev_info, get_matching_delay_slot dev dev_info = None)
  /\ (forall dev_info,
        rift_tracked_device_exposure_claim dev dev_info
        = (dev, if fusion_slot dev_info =? -1 then dev_info
                else set_fusion_slot dev_info (-1)))
  /\ (forall x, device_time_ns (imu_update dev x)
                = u32_mul (sample_device_ts x) 1000).
Proof.
  intros Hentry. cbn zeta.
  destruct (add_device_init_ok next_dev imu_pose led_model_pose trace Hentry)
    as [Hok Hids].
  cbn zeta in Hok, Hids.
  assert (Hnone : forall dev_info,
            get_matching_delay_slot
              (add_device_init next_dev imu_pose led_model_pose trace) dev_info
            = None).
  { intros dev_info. apply invalid_slot_matches_nothing.
    intros sl Hl. apply (Hids _ _ Hl). }
  split; [exact Hok|].
  split; [destruct trace; reflexivity|]. split; [destruct trace; reflexivity|].
  split; [destruct trace; reflexivity|]. split; [destruct trace; reflexivity|].
  split; [destruct trace; reflexivity|]. split; [destruct trace; reflexivity|].
  split; [exact Hids|]. split; [exact Hnone|]. split.
  - intros dev_info. unfold rift_tracked_device_exposure_claim.
    rewrite Hnone. reflexivity.
  - intros x.
    destruct (imu_update_clock
                (add_device_init next_dev imu_pose led_model_pose trace)
                (sample_local_ts x) (sample_device_ts x) (sample_dt x)
                (sample_ang_vel x) (sample_accel x) (sample_mag x)) as [Ht _].
    cbn zeta in Ht. unfold imu_update. rewrite Ht.
    apply clock_first_sample. destruct trace; reflexivity.
Qed.

(** ** Pose queries *)

(** X14.  Asking for the view pose twice.  A second query with no IMU sample
    in between reports the pose of the first and leaves the reported pose,
    its time and the output filter as the first left them: the output
    filter runs at most once per device time.  A query at a device time not
    later than the last reported one returns the velocity and acceleration
    of the filter's estimate, rotated into the device frame, as they are,
    also when the position is lost; they are zeroed only by a query that
    runs the output filter.  The velocity returned carries no component
    from the angular velocity. *)
Theorem view_pose_repeatable dev :
  let r1 := rift_tracked_device_get_view_pose dev in
  let r2 := rift_tracked_device_get_view_pose (fst r1) in
  view_pose_out (snd r2) = view_pose_out (snd r1)
  /\ reported_pose (fst r2) = reported_pose (fst r1)
  /\ last_reported_pose (fst r2) = last_reported_pose (fst r1)
  /\ pose_output_filter (fst r2) = pose_output_filter (fst r1)
  /\ (device_time_ns dev <= last_reported_pose dev ->
      let est := rift_kalman_6dof_get_pose_at (ukf_fusion dev) (device_time_ns dev) in
      let rot := oquatf_get_rotated (orient (device_from_fusion dev)) in
      view_pose_out (snd r1) = reported_pose dev
      /\ reported_pose (fst r1) = reported_pose dev
      /\ pose_output_filter (fst r1) = pose_output_filter dev
      /\ view_accel (snd r1) = rot (est_accel est)
      /\ view_vel (snd r1) = rot (est_vel est)).
Proof.
  cbn zeta.
  assert (Hstale : forall d,
             device_time_ns d <= last_reported_pose d ->
             let r := rift_tracked_device_get_view_pose d in
             view_pose_out (snd r) = reported_pose d
             /\ reported_pose (fst r) = reported_pose d
             /\ last_reported_pose (fst r) = last_reported_pose d
             /\ pose_output_filter (fst r) = pose_output_filter d
             /\ view_accel (snd r)
                = oquatf_get_rotated (orient (device_from_fusion d))
                    (est_accel (rift_kalman_6dof_get_pose_at (ukf_fusion d)
                                  (device_time_ns d)))
             /\ view_vel (snd r)
                = oquatf_get_rotated (orient (device_from_fusion d))
                    (est_vel (rift_kalman_6dof_get_pose_at (ukf_fusion d)
                                (device_time_ns d)))).
  { intros d Hd. cbn zeta. unfold rift_tracked_device_get_view_pose.
    apply Z.ltb_ge in Hd. rewrite Hd. cbn. auto 10. }
  assert (Hafter : device_time_ns (fst (rift_tracked_device_get_view_pose dev))
                   <= last_reported_pose (fst (rift_tracked_device_get_view_pose dev))).
  { unfold rift_tracked_device_get_view_pose.
    destruct (last_reported_pose dev <? device_time_ns dev) eqn:Hf.
    - destruct (exp_filter_pose_run _ _ _ _). cbn. lia.
    - apply Z.ltb_ge in Hf. cbn. exact Hf. }
  destruct (Hstale _ Hafter) as (H1 & H2 & H3 & H4 & _). cbn zeta in H1.
  split. { rewrite H1. unfold rift_tracked_device_get_view_pose.
           destruct (_ <? _); [destruct (exp_filter_pose_run _ _ _ _)|]; reflexivity. }
  split; [exact H2|]. split; [exact H3|]. split; [exact H4|].
  intros Hd. destruct (Hstale dev Hd) as (G1 & G2 & _ & G4 & G5 & G6).
  auto 10.
Qed.

(** X15.  The latest pose of an exposure.  The query succeeds exactly when
    the entry names a slot and that slot still matches it; it then fills
    the entry's capture pose and error vectors from the filter's estimate
    for the slot and leaves the entry's slot, time and pose-lock flag
    alone.  When it fails the entry is left with [fusion_slot = -1] and its
    capture pose untouched, the filter is not asked, and asking again does
    nothing.  The slot table is never written. *)
Theorem latest_exposure_pose_outcome dev dev_info :
  let r := rift_tracked_device_get_latest_exposure_info_pose dev dev_info in
  let dev' := fst (fst r) in
  let info' := snd (fst r) in
  delay_slots dev' = delay_slots dev
  /\ di_device_time_ns info' = di_device_time_ns dev_info
  /\ had_pose_lock info' = had_pose_lock dev_info
  /\ (snd r = true <->
      fusion_slot dev_info <> -1
      /\ exists k slot, get_matching_delay_slot dev dev_info = Some (k, slot))
  /\ (snd r = true ->
      fusion_slot info' = fusion_slot dev_info
      /\ exists k slot,
          get_matching_delay_slot dev dev_info = Some (k, slot)
          /\ let q := rift_kalman_6dof_get_delay_slot_pose_at (ukf_fusion dev)
                        (di_device_time_ns dev_info) (slot_id slot) in
             ukf_fusion dev' = fst q
             /\ capture_pose info'
                = oposef_apply (model_from_fusion dev) (est_pose (snd q))
             /\ pos_error info'
                = oquatf_get_rotated_abs (orient (model_from_fusion dev))
                    (est_pos_error (snd q))
             /\ rot_error info'
                = oquatf_get_rotated_abs (orient (model_from_fusion dev))
                    (est_rot_error (snd q)))
  /\ (snd r = false ->
      dev' = dev /\ fusion_slot info' = -1
      /\ capture_pose info' = capture_pose dev_info
      /\ pos_error info' = pos_error dev_info
      /\ rot_error info' = rot_error dev_info
      /\ rift_tracked_device_get_latest_exposure_info_pose dev' info'
         = (dev', info', false)).
Proof.
  cbn zeta. unfold rift_tracked_device_get_latest_exposure_info_pose.
  destruct (fusion_slot dev_info =? -1) eqn:Hs.
  - apply Z.eqb_eq in Hs. cbn. rewrite Hs. cbn.
    repeat apply conj; try reflexivity; try discriminate; try tauto.
  - apply Z.eqb_neq in Hs.
    destruct (get_matching_delay_slot dev dev_info) as [[k slot]|] eqn:Hm.
    + destruct (rift_kalman_6dof_get_delay_slot_pose_at _ _ _) as [ukf est] eqn:Hq.
      cbn. repeat apply conj; try reflexivity; try discriminate; eauto 10.
      intros _. split; [reflexivity|]. exists k, slot. rewrite Hq. auto.
    + cbn. repeat apply conj; try reflexivity; try discriminate.
      * intros (_ & k & slot & [=]).
      * intros _. auto 10.
Qed.

(** X16.  The result of a pose report.  A report for a device that has no
    entry in the exposure record, or whose entry matches no slot, is
    dropped: the result is [false] and the device is left as it was, only
    its pending IMU observations being sent.  With a matching slot the
    result is [true] exactly when the position was accepted or the
    orientation gate was open; the filter is called exactly when the
    position was accepted.  So a report can return [true] without having
    reached the filter: when its position is rejected as stale and its
    score carries the orientation flag or the last accepted position is
    more than [POSE_LOST_ORIENT_THRESHOLD] ms old. *)
Theorem pose_report_outcome dev local_ts frame_start_local_ts exposure_info
    score model_pose :
  let r := rift_tracked_device_model_pose_update dev local_ts
             frame_start_local_ts exposure_info score model_pose in
  pending_imu_observations (fst r) = []
  /\ ((forall dev_info,
          index dev < n_devices exposure_info ->
          devices exposure_info !! Z.to_nat (index dev) = Some dev_info ->
          get_matching_delay_slot dev dev_info = None) ->
      r = (rift_tracked_device_send_imu_debug dev, false))
  /\ forall dev_info k slot,
      index dev < n_devices exposure_info ->
      devices exposure_info !! Z.to_nat (index dev) = Some dev_info ->
      get_matching_delay_slot dev dev_info = Some (k, slot) ->
      snd r = position_gate dev dev_info score || orientation_gate dev score
      /\ (ukf_fusion (fst r) = ukf_fusion dev <->
          position_gate dev dev_info score = false)
      /\ (snd r = true /\ ukf_fusion (fst r) = ukf_fusion dev <->
          position_gate dev dev_info score = false
          /\ (POSE_HAS_FLAGS score RIFT_POSE_MATCH_ORIENT = true
              \/ POSE_LOST_ORIENT_THRESHOLD * 1000000
                 < u64_sub (device_time_ns dev) (last_observed_pose_ts dev))).
Proof.
  cbn zeta. split; [|split].
  - unfold rift_tracked_device_model_pose_update.
    destruct (_ <? _); [|reflexivity].
    destruct (_ !! _) as [dev_info|]; [|reflexivity].
    destruct (get_matching_delay_slot _ _) as [[k slot]|]; [|reflexivity].
    cbn. destruct (position_gate _ _ _); reflexivity.
  - apply no_match_pose_update.
  - intros dev_info k slot Hidx Hentry Hm.
    destruct (model_pose_update_matching dev local_ts frame_start_local_ts
                exposure_info score model_pose dev_info k slot Hidx Hentry Hm)
      as (Hres & _ & Hukf & _).
    cbn zeta in Hres, Hukf. rewrite Hres, Hukf.
    pose proof (orientation_gate_true dev score) as Hgate.
    assert (Hcons : forall (c : ukf_call) l, c :: l <> l).
    { intros c l H. apply (f_equal (@length _)) in H. cbn in H. lia. }
    destruct (position_gate dev dev_info score); cbn.
    + split; [reflexivity|]. split.
      * split; [intros H; apply Hcons in H; contradiction | discriminate].
      * split; [intros [_ H]; apply Hcons in H; contradiction
               | intros [? _]; discriminate].
    + split; [reflexivity|]. split; [tauto|].
      rewrite <- Hgate. tauto.
Qed.

End DeviceProperties.

(** * Properties of the tracker context *)

Section ContextProperties.
Context {FT : FloatType} {EX : Externals} {DX : DeviceExternals}.

Implicit Types (dev : rift_tracked_device_priv)
  (dev_info : rift_tracked_device_exposure_info)
  (ctx : rift_tracker_ctx).

(** The device loop of a new exposure treats every device in use with its
    own entry, and nothing else. *)
Lemma new_exposure_loop_spec sinks n : forall i devs entries,
  (i + n <= length devs)%nat -> (i + n <= length entries)%nat ->
  exists devs' entries',
    new_exposure_loop sinks n i devs entries = Some (devs', entries')
    /\ length devs' = length devs /\ length entries' = length entries
    /\ (forall j, (j < i \/ i + n <= j)%nat ->
          devs' !! j = devs !! j /\ entries' !! j = entries !! j)
    /\ (forall j dev e, (i <= j < i + n)%nat ->
          devs !! j = Some dev -> entries !! j = Some e ->
          devs' !! j
          = Some (rift_tracked_device_send_imu_debug
                    (fst (rift_tracked_device_on_new_exposure dev e)))
          /\ entries' !! j
             = Some (snd (rift_tracked_device_on_new_exposure dev e))).
Proof.
  induction n as [|n IH]; intros i devs entries Hd He.
  - exists devs, entries. cbn. repeat apply conj; auto. intros; lia.
  - cbn [new_exposure_loop].
    destruct (lookup_lt_is_Some_2 devs i) as [dev Hdev]; [lia|].
    destruct (lookup_lt_is_Some_2 entries i) as [e Hent]; [lia|].
    rewrite Hdev, Hent.
    destruct (rift_tracked_device_on_new_exposure dev e) as [dev1 e1] eqn:Hrun.
    cbn zeta. rewrite send_debug_printf_after_send.
    destruct (IH (S i) (<[i := rift_tracked_device_send_imu_debug dev1]> devs)
                (<[i := e1]> entries))
      as (devs' & entries' & Hloop & Hl1 & Hl2 & Hout & Hin);
      [rewrite length_insert; lia | rewrite length_insert; lia|].
    exists devs', entries'. rewrite length_insert in Hl1. rewrite length_insert in Hl2.
    split; [exact Hloop|]. split; [exact Hl1|]. split; [exact Hl2|]. split.
    + intros j Hj. destruct (Hout j) as [H1 H2]; [lia|].
      rewrite H1, H2, !list_lookup_insert_ne by lia. auto.
    + intros j dev0 e0 Hj Hdev0 Hent0.
      destruct (decide (j = i)) as [-> | Hne].
      * destruct (Hout i) as [H1 H2]; [lia|].
        rewrite H1, H2, !list_lookup_insert_eq by lia.
        rewrite Hdev in Hdev0. rewrite Hent in Hent0.
        injection Hdev0 as <-. injection Hent0 as <-. rewrite Hrun. auto.
      * apply Hin; [lia | |]; rewrite list_lookup_insert_ne by lia; assumption.
Qed.

(** The device loops of frame start and frame release treat every device
    in use: with its own entry when the exposure record has one, and
    without when the device came after the exposure. *)
Lemma frame_loop_spec op sinks n : forall i devs inf,
  (i + n <= length devs)%nat ->
  n_devices inf <= Z.of_nat (length (devices inf)) ->
  exists devs' inf',
    frame_loop op sinks n i devs (Some inf) = Some (devs', Some inf')
    /\ length devs' = length devs
    /\ inf' = set_devices inf (devices inf')
    /\ length (devices inf') = length (devices inf)
    /\ (forall j, (j < i \/ i + n <= j)%nat ->
          devs' !! j = devs !! j /\ devices inf' !! j = devices inf !! j)
    /\ (forall j dev, (i <= j < i + n)%nat -> devs !! j = Some dev ->
          (forall e, Z.of_nat j < n_devices inf -> devices inf !! j = Some e ->
             devs' !! j
             = Some (rift_tracked_device_send_debug_printf (sinks j)
                       (fst (op dev e)))
             /\ devices inf' !! j = Some (snd (op dev e)))
          /\ (n_devices inf <= Z.of_nat j ->
              devs' !! j
              = Some (rift_tracked_device_send_debug_printf (sinks j) dev)
              /\ devices inf' !! j = devices inf !! j)).
Proof.
  induction n as [|n IH]; intros i devs inf Hd Hn.
  - exists devs, inf. cbn. repeat apply conj; auto; [|intros; lia].
    destruct inf; reflexivity.
  - cbn [frame_loop].
    destruct (lookup_lt_is_Some_2 devs i) as [dev Hdev]; [lia|].
    rewrite Hdev. unfold on_entry.
    destruct (Z.of_nat i <? n_devices inf) eqn:Hi.
    + apply Z.ltb_lt in Hi.
      destruct (lookup_lt_is_Some_2 (devices inf) i) as [e Hent]; [lia|].
      rewrite Hent. destruct (op dev e) as [dev1 e1] eqn:Hrun.
      destruct (IH (S i)
                  (<[i := rift_tracked_device_send_debug_printf (sinks i) dev1]> devs)
                  (set_devices inf (<[i := e1]> (devices inf))))
        as (devs' & inf' & Hloop & Hl1 & Hn' & Hl2 & Hout & Hin);
        [rewrite length_insert; lia | cbn; rewrite length_insert; lia|].
      exists devs', inf'. rewrite length_insert in Hl1.
      cbn in Hn', Hl2, Hout, Hin. rewrite length_insert in Hl2.
      split; [exact Hloop|]. split; [exact Hl1|].
      split; [rewrite Hn' at 1; reflexivity|].
      split; [exact Hl2|]. split.
      * intros j Hj. destruct (Hout j) as [H1 H2]; [lia|].
        rewrite H1, H2, !list_lookup_insert_ne by lia. auto.
      * intros j dev0 Hj Hdev0.
        destruct (decide (j = i)) as [-> | Hne].
        -- destruct (Hout i) as [H1 H2]; [lia|].
           rewrite H1, H2, !list_lookup_insert_eq by lia.
           rewrite Hdev in Hdev0. injection Hdev0 as <-. split; [|lia].
           intros e0 _ He0. rewrite Hent in He0. injection He0 as <-.
           rewrite Hrun. auto.
        -- destruct (Hin j dev0) as [Hin1 Hin2];
             [lia | rewrite list_lookup_insert_ne by lia; exact Hdev0|].
           split.
           ++ intros e0 Hj0 He0. apply Hin1; [exact Hj0|].
              rewrite list_lookup_insert_ne by lia. exact He0.
           ++ intros Hj0. destruct (Hin2 Hj0) as [G1 G2].
              rewrite G1, G2, list_lookup_insert_ne by lia. auto.
    + apply Z.ltb_ge in Hi.
      destruct (IH (S i)
                  (<[i := rift_tracked_device_send_debug_printf (sinks i) dev]> devs)
                  inf)
        as (devs' & inf' & Hloop & Hl1 & Hn' & Hl2 & Hout & Hin);
        [rewrite length_insert; lia | exact Hn|].
      exists devs', inf'. rewrite length_insert in Hl1.
      split; [exact Hloop|]. split; [exact Hl1|]. split; [exact Hn'|].
      split; [exact Hl2|]. split.
      * intros j Hj. destruct (Hout j) as [H1 H2]; [lia|].
        rewrite H1, H2, !list_lookup_insert_ne by lia. auto.
      * intros j dev0 Hj Hdev0.
        destruct (decide (j = i)) as [-> | Hne].
        -- destruct (Hout i) as [H1 H2]; [lia|].
           rewrite H1, H2, !list_lookup_insert_eq by lia.
           rewrite Hdev in Hdev0. injection Hdev0 as <-. split; [lia|]. auto.
        -- destruct (Hin j dev0) as [Hin1 Hin2];
             [lia | rewrite list_lookup_insert_ne by lia; exact Hdev0|].
           split; [exact Hin1|].
           exact Hin2.
Qed.

Lemma clear_missing_lookup n (entries : list rift_tracked_device_exposure_info) j :
  (n <= length entries)%nat ->
  clear_missing n entries !! j
  = (if decide (j < n)%nat then entries !! j
     else (fun di => set_fusion_slot di (-1)) <$> entries !! j).
Proof.
  intros Hn. unfold clear_missing.
  destruct (decide (j < n)%nat) as [Hj | Hj].
  - rewrite lookup_app_l by (rewrite length_take; lia).
    rewrite lookup_take. destruct (decide (j < n)%nat); [reflexivity | lia].
  - rewrite lookup_app_r by (rewrite length_take; lia).
    rewrite length_take, list_lookup_fmap, lookup_drop.
    do 2 f_equal. lia.
Qed.

Lemma clear_missing_length n (entries : list rift_tracked_device_exposure_info) :
  length (clear_missing n entries) = length entries.
Proof.
  unfold clear_missing.
  rewrite length_app, length_take, length_fmap, length_drop. lia.
Qed.

(** X17.  Exposure events are taken once per exposure count.  On a
    well-formed context the call is defined.  An event that repeats the
    stored count changes nothing but the LED pattern phase: no device is
    touched and no sensor is told.  An event with another count stamps the
    exposure record with the clock, the exposure's HMD time, the count and
    the number of devices; gives every device in use its turn at a delay
    slot, writing its entry, and sends its pending IMU observations; marks
    the entries of the devices that do not exist with [fusion_slot = -1];
    and tells every sensor.  Either way the event, repeated with the same
    count and phase, does nothing more. *)
Theorem tracker_new_exposure ctx sinks now imu_hmd_ts exposure_count
    exposure_hmd_ts phase :
  ctx_ok ctx ->
  exists ctx' evs,
    rift_tracker_on_new_exposure ctx sinks now imu_hmd_ts exposure_count
      exposure_hmd_ts phase = Some (ctx', evs)
    /\ ctx_ok ctx'
    /\ led_pattern_phase (ctx_exposure_info ctx') = phase
    /\ count (ctx_exposure_info ctx') = exposure_count
    /\ ctx_n_devices ctx' = ctx_n_devices ctx
    /\ (forall sinks' now' imu_hmd_ts' exposure_hmd_ts',
          rift_tracker_on_new_exposure ctx' sinks' now' imu_hmd_ts'
            exposure_count exposure_hmd_ts' phase = Some (ctx', []))
    /\ (count (ctx_exposure_info ctx) = exposure_count ->
        evs = [] /\ ctx_devices ctx' = ctx_devices ctx
        /\ have_exposure_info ctx' = have_exposure_info ctx
        /\ devices (ctx_exposure_info ctx') = devices (ctx_exposure_info ctx)
        /\ local_ts (ctx_exposure_info ctx') = local_ts (ctx_exposure_info ctx))
    /\ (count (ctx_exposure_info ctx) <> exposure_count ->
        let info' := ctx_exposure_info ctx' in
        rift_tracker_get_exposure_info ctx' = (true, info')
        /\ local_ts info' = now /\ hmd_ts info' = exposure_hmd_ts
        /\ n_devices info' = ctx_n_devices ctx
        /\ evs = map (fun i => Sensor_update_exposure i info')
                   (seq 0 (Z.to_nat (n_sensors ctx)))
        /\ (forall j dev e,
              Z.of_nat j < ctx_n_devices ctx ->
              ctx_devices ctx !! j = Some dev ->
              devices (ctx_exposure_info ctx) !! j = Some e ->
              ctx_devices ctx' !! j
              = Some (rift_tracked_device_send_imu_debug
                        (fst (rift_tracked_device_on_new_exposure dev e)))
              /\ devices info' !! j
                 = Some (snd (rift_tracked_device_on_new_exposure dev e)))
        /\ (forall j, ctx_n_devices ctx <= Z.of_nat j ->
              ctx_devices ctx' !! j = ctx_devices ctx !! j
              /\ forall e', devices info' !! j = Some e' ->
                            fusion_slot e' = -1)).
Proof.
  intros (Hn & Hmax & Hent & Hdevs).
  assert (Hagain : forall c' sinks' now' imu' ets',
            led_pattern_phase (ctx_exposure_info c') = phase ->
            count (ctx_exposure_info c') = exposure_count ->
            rift_tracker_on_new_exposure c' sinks' now' imu' exposure_count
              ets' phase
            = Some (c', [])).
  { intros c' sinks' now' imu' ets' Hp Hc. unfold rift_tracker_on_new_exposure.
    apply Z.eqb_eq in Hp, Hc. rewrite Hp, Hc. destruct c'. reflexivity. }
  unfold rift_tracker_on_new_exposure at 1.
  set (info1 := if led_pattern_phase (ctx_exposure_info ctx) =? phase
                then ctx_exposure_info ctx
                else mk_exposure_info (local_ts (ctx_exposure_info ctx))
                       (hmd_ts (ctx_exposure_info ctx))
                       (count (ctx_exposure_info ctx)) phase
                       (n_devices (ctx_exposure_info ctx))
                       (devices (ctx_exposure_info ctx))).
  assert (Hinfo1 : led_pattern_phase info1 = phase
                   /\ count info1 = count (ctx_exposure_info ctx)
                   /\ devices info1 = devices (ctx_exposure_info ctx)
                   /\ local_ts info1 = local_ts (ctx_exposure_info ctx)).
  { unfold info1. destruct (_ =? phase) eqn:Hp; [|auto].
    apply Z.eqb_eq in Hp. auto. }
  destruct Hinfo1 as (Hp1 & Hc1 & Hd1 & Hl1). clearbody info1.
  destruct (count info1 =? exposure_count) eqn:Hc.
  - apply Z.eqb_eq in Hc. eexists _, _. split; [reflexivity|].
    unfold ctx_ok. cbn -[rift_tracker_on_new_exposure].
    split; [split; [exact Hn | split; [exact Hmax
              | split; [rewrite Hd1; exact Hent | exact Hdevs]]]|].
    split; [exact Hp1|]. split; [exact Hc|]. split; [reflexivity|].
    split; [intros; apply Hagain; assumption|].
    split; [auto | intros Hne; congruence].
  - apply Z.eqb_neq in Hc. rewrite Hd1.
    destruct (new_exposure_loop_spec sinks (Z.to_nat (ctx_n_devices ctx)) 0
                (ctx_devices ctx) (devices (ctx_exposure_info ctx)))
      as (devs' & entries' & Hloop & Hlen1 & Hlen2 & Hout & Hin); [lia | lia|].
    rewrite Hloop. eexists _, _. split; [reflexivity|].
    unfold ctx_ok. cbn -[rift_tracker_on_new_exposure].
    assert (Hdev' : forall j dev e,
              Z.of_nat j < ctx_n_devices ctx ->
              ctx_devices ctx !! j = Some dev ->
              devices (ctx_exposure_info ctx) !! j = Some e ->
              devs' !! j
              = Some (rift_tracked_device_send_imu_debug
                        (fst (rift_tracked_device_on_new_exposure dev e)))
              /\ clear_missing (Z.to_nat (ctx_n_devices ctx)) entries' !! j
                 = Some (snd (rift_tracked_device_on_new_exposure dev e))).
    { intros j dev e Hj Hdev He.
      destruct (Hin j dev e) as [G1 G2]; [lia | assumption | assumption|].
      split; [exact G1|]. rewrite clear_missing_lookup by lia.
      destruct (decide (j < Z.to_nat (ctx_n_devices ctx))%nat); [exact G2 | lia]. }
    split.
    { split; [lia|]. split; [lia|]. split; [rewrite clear_missing_length; lia|].
      intros j dev Hj Hl.
      destruct (lookup_lt_is_Some_2 (ctx_devices ctx) j) as [dev0 Hdev0]; [lia|].
      destruct (lookup_lt_is_Some_2 (devices (ctx_exposure_info ctx)) j)
        as [e0 He0]; [lia|].
      destruct (Hdev' j dev0 e0 Hj Hdev0 He0) as [G1 _].
      rewrite G1 in Hl. injection Hl as <-.
      apply device_ok_new_exposure. apply (Hdevs j); assumption. }
    split; [reflexivity|]. split; [reflexivity|]. split; [reflexivity|].
    split; [intros; apply Hagain; reflexivity|].
    split; [intros He; congruence|]. intros _.
    repeat apply conj; try reflexivity; [exact Hdev'|].
    intros j Hj. destruct (Hout j) as [G1 G2]; [lia|].
    split; [exact G1|]. intros e'.
    rewrite clear_missing_lookup by lia.
    destruct (decide (j < Z.to_nat (ctx_n_devices ctx))%nat); [lia|].
    destruct (entries' !! j); cbn; [intros [= <-]; reflexivity | discriminate].
Qed.

(** ** Adding a device *)

(** X18.  Adding a device to a well-formed tracker whose next entry is
    usable memory.  The call is defined: the device takes entry
    [n_devices] of the array as [rift_tracker_add_device] initialises it,
    the count goes up by one without wrapping, the devices already there
    and the exposure record are left alone, every sensor is told about the
    new device, in order, and the tracker is still well formed. *)
Theorem tracker_device_added ctx imu_pose led_model_pose trace next_dev :
  ctx_ok ctx ->
  ctx_devices ctx !! Z.to_nat (ctx_n_devices ctx) = Some next_dev ->
  entry_ok next_dev ->
  exists ctx',
    rift_tracker_add_device ctx imu_pose led_model_pose trace
    = Some (ctx',
            map (fun i => Sensor_add_device i (Z.to_nat (ctx_n_devices ctx)))
              (seq 0 (Z.to_nat (n_sensors ctx))))
    /\ ctx_ok ctx'
    /\ ctx_n_devices ctx' = ctx_n_devices ctx + 1
    /\ ctx_devices ctx' !! Z.to_nat (ctx_n_devices ctx)
       = Some (add_device_init next_dev imu_pose led_model_pose trace)
    /\ (forall j, j <> Z.to_nat (ctx_n_devices ctx) ->
                  ctx_devices ctx' !! j = ctx_devices ctx !! j)
    /\ rift_tracker_get_exposure_info ctx' = rift_tracker_get_exposure_info ctx.
Proof.
  intros (Hn & Hmax & Hent & Hdevs) Hnext Hentry.
  apply lookup_lt_Some in Hnext as Hlt.
  assert (Hwrap : (ctx_n_devices ctx + 1) mod 2 ^ 8 = ctx_n_devices ctx + 1)
    by (apply Z.mod_small; lia).
  unfold rift_tracker_add_device.
  replace (ctx_n_devices ctx <? Z.of_nat (length (ctx_devices ctx))) with true
    by (symmetry; apply Z.ltb_lt; lia).
  rewrite Hnext, Hwrap. eexists. split; [reflexivity|].
  unfold ctx_ok, rift_tracker_get_exposure_info. cbn.
  rewrite length_insert.
  split; [|split; [reflexivity|]; split;
            [apply list_lookup_insert_eq; exact Hlt|];
            split; [|reflexivity];
            intros j Hj; apply list_lookup_insert_ne; congruence].
  split; [lia|]. split; [exact Hmax|]. split; [exact Hent|].
  intros j dev Hj Hl.
  destruct (decide (j = Z.to_nat (ctx_n_devices ctx))) as [-> | Hne].
  - rewrite list_lookup_insert_eq in Hl by exact Hlt. injection Hl as <-.
    apply add_device_init_ok. exact Hentry.
  - rewrite list_lookup_insert_ne in Hl by congruence.
    apply (Hdevs j); [lia | exact Hl].
Qed.

(** ** Frames and the slots they hold *)

Lemma matching_send_debug_printf sinks dev dev_info :
  get_matching_delay_slot (rift_tracked_device_send_debug_printf sinks dev)
    dev_info
  = get_matching_delay_slot dev dev_info.
Proof. destruct sinks; reflexivity. Qed.

Lemma no_slot_no_match dev dev_info :
  fusion_slot dev_info = -1 -> get_matching_delay_slot dev dev_info = None.
Proof. unfold get_matching_delay_slot. intros ->. reflexivity. Qed.

(** A release for a device whose debug line was printed in between. *)
Lemma release_after_printf sinks dev dev_info :
  let r := rift_tracked_device_exposure_release_locked dev dev_info in
  let r' := rift_tracked_device_exposure_release_locked
              (rift_tracked_device_send_debug_printf sinks dev) dev_info in
  snd r' = snd r
  /\ delay_slots (fst r') = delay_slots (fst r)
  /\ ukf_fusion (fst r') = ukf_fusion (fst r).
Proof.
  cbn zeta. unfold rift_tracked_device_exposure_release_locked.
  rewrite matching_send_debug_printf.
  destruct (get_matching_delay_slot dev dev_info) as [[k slot]|].
  - destruct (_ =? 0); destruct sinks; auto.
  - destruct sinks; auto.
Qed.

(** One frame on one device: the claim at frame start, the release, and a
    second release through the same entry. *)
Lemma frame_cycle_device b1 b2 b3 dev e :
  device_ok dev ->
  let c := rift_tracked_device_exposure_claim dev e in
  let dev1 := rift_tracked_device_send_debug_printf b1 (fst c) in
  let r := rift_tracked_device_exposure_release_locked dev1 (snd c) in
  let dev2 := rift_tracked_device_send_debug_printf b2 (fst r) in
  let r' := rift_tracked_device_exposure_release_locked dev2 (snd r) in
  let dev3 := rift_tracked_device_send_debug_printf b3 (fst r') in
  fusion_slot (snd r) = -1 /\ snd r' = snd r
  /\ delay_slots dev3 = delay_slots dev2 /\ ukf_fusion dev3 = ukf_fusion dev2
  /\ match get_matching_delay_slot dev e with
     | Some (k, slot) =>
         delay_slots dev2
         = <[k := set_use slot (0 <? use_count slot) (use_count slot)]>
             (delay_slots dev)
         /\ ukf_fusion dev2
            = (if 0 <? use_count slot then ukf_fusion dev
               else Ukf_release_delay_slot (slot_id slot) :: ukf_fusion dev)
     | None =>
         delay_slots dev2 = delay_slots dev /\ ukf_fusion dev2 = ukf_fusion dev
     end.
Proof.
  intros Hok. cbn zeta.
  set (c := rift_tracked_device_exposure_claim dev e).
  set (dev1 := rift_tracked_device_send_debug_printf b1 (fst c)).
  destruct (release_after_printf b1 (fst c) (snd c)) as (Hr1 & Hr2 & Hr3).
  cbn zeta in Hr1, Hr2, Hr3. fold dev1 in Hr1, Hr2, Hr3.
  set (r := rift_tracked_device_exposure_release_locked dev1 (snd c)) in *.
  assert (Hprint : forall b d,
            delay_slots (rift_tracked_device_send_debug_printf b d)
            = delay_slots d
            /\ ukf_fusion (rift_tracked_device_send_debug_printf b d)
               = ukf_fusion d) by (intros [] d; auto).
  assert (Hlast : fusion_slot (snd r) = -1 ->
            snd (rift_tracked_device_exposure_release_locked
                   (rift_tracked_device_send_debug_printf b2 (fst r)) (snd r))
            = snd r
            /\ delay_slots
                 (rift_tracked_device_send_debug_printf b3
                    (fst (rift_tracked_device_exposure_release_locked
                            (rift_tracked_device_send_debug_printf b2 (fst r))
                            (snd r))))
               = delay_slots (rift_tracked_device_send_debug_printf b2 (fst r))
            /\ ukf_fusion
                 (rift_tracked_device_send_debug_printf b3
                    (fst (rift_tracked_device_exposure_release_locked
                            (rift_tracked_device_send_debug_printf b2 (fst r))
                            (snd r))))
               = ukf_fusion (rift_tracked_device_send_debug_printf b2 (fst r))).
  { intros Hnone.
    rewrite (release_without_match _ (snd r))
      by (apply no_slot_no_match; exact Hnone).
    cbn [fst snd]. destruct (Hprint b3
      (rift_tracked_device_send_debug_printf b2 (fst r))) as [-> ->]. auto. }
  assert (Hmain :
            fusion_slot
              (snd (rift_tracked_device_exposure_release_locked (fst c) (snd c)))
            = -1
            /\ match get_matching_delay_slot dev e with
               | Some (k, slot) =>
                   delay_slots
                     (fst (rift_tracked_device_exposure_release_locked
                             (fst c) (snd c)))
                   = <[k := set_use slot (0 <? use_count slot) (use_count slot)]>
                       (delay_slots dev)
                   /\ ukf_fusion
                        (fst (rift_tracked_device_exposure_release_locked
                                (fst c) (snd c)))
                      = (if 0 <? use_count slot then ukf_fusion dev
                         else Ukf_release_delay_slot (slot_id slot)
                                :: ukf_fusion dev)
               | None =>
                   delay_slots
                     (fst (rift_tracked_device_exposure_release_locked
                             (fst c) (snd c)))
                   = delay_slots dev
                   /\ ukf_fusion
                        (fst (rift_tracked_device_exposure_release_locked
                                (fst c) (snd c)))
                      = ukf_fusion dev
               end).
  { clear Hr1 Hr2 Hr3 Hlast r dev1.
    destruct (get_matching_delay_slot dev e) as [[k slot]|] eqn:Hm.
    - destruct (claim_matching dev e k slot Hm) as [Hc Hm1].
      cbn zeta in Hc, Hm1.
      apply get_matching_delay_slot_Some in Hm as Hm'.
      destruct Hm' as (Hrange & Hk & Hl & Hv & Ht).
      destruct Hok as (_ & Hids & _).
      destruct (Hids k slot Hl) as [Hid (Hu & _)].
      assert (He : set_fusion_slot e (slot_id slot) = e).
      { rewrite Hid, Hk, Z2Nat.id by lia. destruct e; reflexivity. }
      assert (Hlt : (k < length (delay_slots dev))%nat)
        by (apply lookup_lt_Some in Hl; exact Hl).
      subst c. rewrite Hc, He. cbn [fst snd].
      destruct (0 <? use_count slot) eqn:Hpos.
      + apply Z.ltb_lt in Hpos.
        destruct (release_earlier _ e k _ Hm1) as [Hrel _]; [cbn; lia|].
        cbn zeta in Hrel. rewrite Hrel. cbn.
        rewrite list_insert_insert_eq.
        replace (use_count slot + 1 - 1) with (use_count slot) by lia.
        auto.
      + apply Z.ltb_ge in Hpos.
        rewrite (release_last _ e k _ Hm1) by (cbn; lia).
        unfold after_freeing. cbn.
        rewrite list_insert_insert_eq.
        replace (use_count slot) with 0 by lia. auto.
    - assert (Hc : c = (dev, if fusion_slot e =? -1 then e
                             else set_fusion_slot e (-1))).
      { unfold c, rift_tracked_device_exposure_claim. rewrite Hm. reflexivity. }
      assert (Hnone : fusion_slot (snd c) = -1).
      { rewrite Hc. cbn. destruct (fusion_slot e =? -1) eqn:Hf; [|reflexivity].
        apply Z.eqb_eq in Hf. exact Hf. }
      rewrite (release_without_match (fst c) (snd c))
        by (apply no_slot_no_match; exact Hnone).
      rewrite Hc in *. cbn [fst snd] in *. auto. }
  destruct Hmain as [Hf Hmatch].
  rewrite <- Hr1 in Hf.
  destruct (Hlast Hf) as (H1 & H2 & H3).
  destruct (Hprint b2 (fst r)) as [Hp1 Hp2].
  split; [exact Hf|]. split; [exact H1|]. split; [exact H2|].
  split; [exact H3|].
  rewrite Hp1, Hp2, Hr2, Hr3. exact Hmatch.
Qed.


(** With no exposure record the loop only prints. *)
Lemma frame_loop_none op sinks n : forall i devs,
  (i + n <= length devs)%nat ->
  exists devs',
    frame_loop op sinks n i devs None = Some (devs', None)
    /\ length devs' = length devs
    /\ (forall j, (j < i \/ i + n <= j)%nat -> devs' !! j = devs !! j)
    /\ (forall j dev, (i <= j < i + n)%nat -> devs !! j = Some dev ->
          devs' !! j
          = Some (rift_tracked_device_send_debug_printf (sinks j) dev)).
Proof.
  induction n as [|n IH]; intros i devs Hd.
  - exists devs. cbn. repeat apply conj; auto. intros; lia.
  - cbn [frame_loop on_entry].
    destruct (lookup_lt_is_Some_2 devs i) as [dev Hdev]; [lia|].
    rewrite Hdev.
    destruct (IH (S i)
                (<[i := rift_tracked_device_send_debug_printf (sinks i) dev]> devs))
      as (devs' & Hloop & Hl & Hout & Hin); [rewrite length_insert; lia|].
    exists devs'. rewrite length_insert in Hl.
    split; [exact Hloop|]. split; [exact Hl|]. split.
    + intros j Hj. rewrite Hout by lia. apply list_lookup_insert_ne. lia.
    + intros j dev0 Hj Hdev0.
      destruct (decide (j = i)) as [-> | Hne].
      * rewrite Hout by lia. rewrite list_lookup_insert_eq by lia.
        congruence.
      * apply Hin; [lia|]. rewrite list_lookup_insert_ne by lia. exact Hdev0.
Qed.

(** A frame loop whose operation keeps devices well formed keeps the
    tracker well formed. *)
Lemma frame_loop_ctx_ok op sinks ctx inf devs' inf' :
  (forall d e, device_ok d -> device_ok (fst (op d e))) ->
  ctx_ok ctx ->
  n_devices inf <= Z.of_nat (length (devices inf)) ->
  frame_loop op sinks (Z.to_nat (ctx_n_devices ctx)) 0 (ctx_devices ctx)
    (Some inf) = Some (devs', Some inf') ->
  ctx_ok (set_ctx_devices ctx devs').
Proof.
  intros Hop (Hn & Hmax & Hent & Hdevs) Hinf Hrun.
  destruct (frame_loop_spec op sinks (Z.to_nat (ctx_n_devices ctx)) 0
              (ctx_devices ctx) inf)
    as (devs1 & inf1 & Hloop & Hl & _ & _ & _ & Hin); [lia | exact Hinf|].
  rewrite Hloop in Hrun. injection Hrun as <- <-.
  unfold ctx_ok. cbn. rewrite Hl.
  split; [exact Hn|]. split; [exact Hmax|]. split; [exact Hent|].
  intros j dev Hj Hdev.
  destruct (lookup_lt_is_Some_2 (ctx_devices ctx) j) as [dev0 Hdev0]; [lia|].
  destruct (Hin j dev0) as [Hin1 Hin2]; [lia | exact Hdev0|].
  assert (Hok0 : device_ok dev0) by (apply (Hdevs j); assumption).
  destruct (Z_lt_le_dec (Z.of_nat j) (n_devices inf)) as [Hlt | Hge].
  - destruct (lookup_lt_is_Some_2 (devices inf) j) as [e He]; [lia|].
    destruct (Hin1 e Hlt He) as [G _]. rewrite G in Hdev. injection Hdev as <-.
    apply device_ok_send_debug_printf, Hop, Hok0.
  - destruct (Hin2 Hge) as [G _]. rewrite G in Hdev. injection Hdev as <-.
    apply device_ok_send_debug_printf, Hok0.
Qed.

(** X19.  A frame and the slots it holds.  On a well-formed tracker a frame
    is started with its exposure record and later released with it, and
    then, by mistake, released again.  All three calls are defined and
    leave the tracker well formed.  For a device whose entry matched a
    slot at frame start, the slot's use count is back where it was; the
    slot stays valid if another frame still holds it, and is freed, the
    filter being told, if none does.  Every entry of the record ends with
    [fusion_slot = -1], so the second release finds nothing to release: it
    changes no slot, calls no filter and leaves the record as it is.  A
    device added after the exposure was taken has no entry in the record
    and keeps its slots and filter throughout; and with no record at all
    ([info] is NULL) frame start changes no slot and calls no filter. *)
Theorem tracker_frame_cycle ctx sinks1 sinks2 sinks3 inf :
  ctx_ok ctx ->
  n_devices inf <= Z.of_nat (length (devices inf)) ->
  exists ctx1 inf1 ctx2 inf2 ctx3 ctx0,
    rift_tracker_frame_start ctx sinks1 (Some inf) = Some (ctx1, Some inf1)
    /\ rift_tracker_frame_release ctx1 sinks2 (Some inf1)
       = Some (ctx2, Some inf2)
    /\ rift_tracker_frame_release ctx2 sinks3 (Some inf2)
       = Some (ctx3, Some inf2)
    /\ rift_tracker_frame_start ctx sinks1 None = Some (ctx0, None)
    /\ ctx_ok ctx1 /\ ctx_ok ctx2 /\ ctx_ok ctx3
    /\ forall j dev,
         Z.of_nat j < ctx_n_devices ctx -> ctx_devices ctx !! j = Some dev ->
         exists dev2 dev3 dev0,
           ctx_devices ctx2 !! j = Some dev2
           /\ ctx_devices ctx3 !! j = Some dev3
           /\ ctx_devices ctx0 !! j = Some dev0
           /\ delay_slots dev3 = delay_slots dev2
           /\ ukf_fusion dev3 = ukf_fusion dev2
           /\ delay_slots dev0 = delay_slots dev
           /\ ukf_fusion dev0 = ukf_fusion dev
           /\ (n_devices inf <= Z.of_nat j ->
               delay_slots dev2 = delay_slots dev
               /\ ukf_fusion dev2 = ukf_fusion dev)
           /\ (forall e, Z.of_nat j < n_devices inf ->
                 devices inf !! j = Some e ->
                 (exists e2, devices inf2 !! j = Some e2
                             /\ fusion_slot e2 = -1)
                 /\ match get_matching_delay_slot dev e with
                    | Some (k, slot) =>
                        delay_slots dev2
                        = <[k := set_use slot (0 <? use_count slot)
                                   (use_count slot)]> (delay_slots dev)
                        /\ ukf_fusion dev2
                           = (if 0 <? use_count slot then ukf_fusion dev
                              else Ukf_release_delay_slot (slot_id slot)
                                     :: ukf_fusion dev)
                    | None =>
                        delay_slots dev2 = delay_slots dev
                        /\ ukf_fusion dev2 = ukf_fusion dev
                    end).
Proof.
  intros Hok Hinf. pose proof Hok as (Hn & Hmax & Hent & Hdevs).
  set (n := Z.to_nat (ctx_n_devices ctx)).
  assert (Hprint : forall b d,
            delay_slots (rift_tracked_device_send_debug_printf b d)
            = delay_slots d
            /\ ukf_fusion (rift_tracked_device_send_debug_printf b d)
               = ukf_fusion d) by (intros [] d; auto).
  destruct (frame_loop_spec rift_tracked_device_exposure_claim sinks1 n 0
              (ctx_devices ctx) inf)
    as (devs1 & inf1 & Hloop1 & Hl1 & Hshape1 & Hlen1 & Hout1 & Hin1);
    [unfold n; lia | exact Hinf|].
  assert (Hn1 : n_devices inf1 = n_devices inf) by (rewrite Hshape1; reflexivity).
  destruct (frame_loop_spec rift_tracked_device_exposure_release_locked sinks2
              n 0 devs1 inf1)
    as (devs2 & inf2 & Hloop2 & Hl2 & Hshape2 & Hlen2 & Hout2 & Hin2);
    [unfold n; lia | lia|].
  assert (Hn2 : n_devices inf2 = n_devices inf) by (rewrite Hshape2; exact Hn1).
  destruct (frame_loop_spec rift_tracked_device_exposure_release_locked sinks3
              n 0 devs2 inf2)
    as (devs3 & inf3 & Hloop3 & Hl3 & Hshape3 & Hlen3 & Hout3 & Hin3);
    [unfold n; lia | lia|].
  destruct (frame_loop_none rift_tracked_device_exposure_claim sinks1 n 0
              (ctx_devices ctx))
    as (devs0 & Hloop0 & Hl0 & _ & Hin0); [unfold n; lia|].
  (* What the three loops did to device [j]. *)
  assert (Hdev : forall j dev,
            Z.of_nat j < ctx_n_devices ctx -> ctx_devices ctx !! j = Some dev ->
            exists dev2 dev3,
              devs2 !! j = Some dev2 /\ devs3 !! j = Some dev3
              /\ devices inf3 !! j = devices inf2 !! j
              /\ delay_slots dev3 = delay_slots dev2
              /\ ukf_fusion dev3 = ukf_fusion dev2
              /\ (n_devices inf <= Z.of_nat j ->
                  delay_slots dev2 = delay_slots dev
                  /\ ukf_fusion dev2 = ukf_fusion dev)
              /\ (forall e, Z.of_nat j < n_devices inf ->
                    devices inf !! j = Some e ->
                    (exists e2, devices inf2 !! j = Some e2
                                /\ fusion_slot e2 = -1)
                    /\ match get_matching_delay_slot dev e with
                       | Some (k, slot) =>
                           delay_slots dev2
                           = <[k := set_use slot (0 <? use_count slot)
                                      (use_count slot)]> (delay_slots dev)
                           /\ ukf_fusion dev2
                              = (if 0 <? use_count slot then ukf_fusion dev
                                 else Ukf_release_delay_slot (slot_id slot)
                                        :: ukf_fusion dev)
                       | None =>
                           delay_slots dev2 = delay_slots dev
                           /\ ukf_fusion dev2 = ukf_fusion dev
                       end)).
  { intros j dev Hj Hl.
    destruct (Hin1 j dev) as [A1 B1]; [unfold n; lia | exact Hl|].
    destruct (Z_lt_le_dec (Z.of_nat j) (n_devices inf)) as [Hlt | Hge].
    - destruct (lookup_lt_is_Some_2 (devices inf) j) as [e He]; [lia|].
      destruct (A1 e Hlt He) as [D1 E1].
      destruct (Hin2 j _ ltac:(unfold n; lia) D1) as [A2 _].
      destruct (A2 _ ltac:(lia) E1) as [D2 E2].
      destruct (Hin3 j _ ltac:(unfold n; lia) D2) as [A3 _].
      destruct (A3 _ ltac:(lia) E2) as [D3 E3].
      destruct (frame_cycle_device (sinks1 j) (sinks2 j) (sinks3 j) dev e)
        as (F1 & F2 & F3 & F4 & F5); [apply (Hdevs j); assumption|].
      cbn zeta in F1, F2, F3, F4, F5.
      eexists _, _. split; [exact D2|]. split; [exact D3|].
      split; [rewrite E3, E2, F2; reflexivity|].
      split; [exact F3|]. split; [exact F4|]. split; [intros; lia|].
      intros e' _ He'. rewrite He in He'. injection He' as <-.
      split; [|exact F5]. eexists. split; [exact E2 | exact F1].
    - destruct (B1 Hge) as [D1 E1].
      destruct (Hin2 j _ ltac:(unfold n; lia) D1) as [_ B2].
      destruct (B2 ltac:(lia)) as [D2 E2].
      destruct (Hin3 j _ ltac:(unfold n; lia) D2) as [_ B3].
      destruct (B3 ltac:(lia)) as [D3 E3].
      eexists _, _. split; [exact D2|]. split; [exact D3|].
      split; [exact E3|].
      destruct (Hprint (sinks3 j)
                  (rift_tracked_device_send_debug_printf (sinks2 j)
                     (rift_tracked_device_send_debug_printf (sinks1 j) dev)))
        as [-> ->].
      destruct (Hprint (sinks2 j)
                  (rift_tracked_device_send_debug_printf (sinks1 j) dev))
        as [-> ->].
      destruct (Hprint (sinks1 j) dev) as [-> ->].
      split; [reflexivity|]. split; [reflexivity|].
      split; [intros _; split; reflexivity|]. intros; lia. }
  (* The record is not changed by the second release. *)
  assert (Hsame : inf3 = inf2).
  { rewrite Hshape3. transitivity (set_devices inf2 (devices inf2));
      [|destruct inf2; reflexivity].
    f_equal. apply list_eq. intros j.
    destruct (decide (j < n)%nat) as [Hj | Hj].
    - destruct (lookup_lt_is_Some_2 (ctx_devices ctx) j) as [dev Hl];
        [unfold n in Hj; lia|].
      destruct (Hdev j dev) as (_ & _ & _ & _ & G & _);
        [unfold n in Hj; lia | exact Hl | exact G].
    - apply Hout3. lia. }
  exists (set_ctx_devices ctx devs1), inf1,
    (set_ctx_devices (set_ctx_devices ctx devs1) devs2), inf2,
    (set_ctx_devices (set_ctx_devices (set_ctx_devices ctx devs1) devs2) devs3),
    (set_ctx_devices ctx devs0).
  assert (Hok1 : ctx_ok (set_ctx_devices ctx devs1)).
  { apply (frame_loop_ctx_ok rift_tracked_device_exposure_claim sinks1 ctx inf
             devs1 inf1); try assumption.
    intros d e. apply device_ok_claim. }
  assert (Hok2 : ctx_ok (set_ctx_devices (set_ctx_devices ctx devs1) devs2)).
  { apply (frame_loop_ctx_ok rift_tracked_device_exposure_release_locked sinks2
             (set_ctx_devices ctx devs1) inf1 devs2 inf2); try assumption.
    - intros d e. apply device_ok_release.
    - lia. }
  assert (Hok3 : ctx_ok (set_ctx_devices
                           (set_ctx_devices (set_ctx_devices ctx devs1) devs2)
                           devs3)).
  { apply (frame_loop_ctx_ok rift_tracked_device_exposure_release_locked sinks3
             (set_ctx_devices (set_ctx_devices ctx devs1) devs2) inf2 devs3
             inf3); try assumption.
    - intros d e. apply device_ok_release.
    - lia. }
  unfold rift_tracker_frame_start, rift_tracker_frame_release.
  cbn [ctx_n_devices ctx_devices set_ctx_devices]. fold n.
  rewrite Hloop1, Hloop2, Hloop3, Hloop0, Hsame.
  split; [reflexivity|]. split; [reflexivity|]. split; [reflexivity|].
  split; [reflexivity|]. split; [exact Hok1|]. split; [exact Hok2|].
  split; [exact Hok3|].
  intros j dev Hj Hl. cbn [ctx_devices set_ctx_devices].
  destruct (Hdev j dev Hj Hl) as (dev2 & dev3 & D2 & D3 & _ & G1 & G2 & G3 & G4).
  exists dev2, dev3, (rift_tracked_device_send_debug_printf (sinks1 j) dev).
  split; [exact D2|]. split; [exact D3|].
  split; [apply Hin0; [unfold n; lia | exact Hl]|].
  split; [exact G1|]. split; [exact G2|].
  destruct (Hprint (sinks1 j) dev) as [-> ->].
  split; [reflexivity|]. split; [reflexivity|]. split; [exact G3 | exact G4].
Qed.

(** ** A frame that changes exposure *)

(** Releasing through one entry and claiming through another, when the two
    match different slots. *)
Lemma moved_claim_device dev eo en ko so kn sn :
  device_ok dev ->
  get_matching_delay_slot dev eo = Some (ko, so) ->
  get_matching_delay_slot dev en = Some (kn, sn) ->
  ko <> kn ->
  let r := rift_tracked_device_exposure_release_locked dev eo in
  let c := rift_tracked_device_exposure_claim (fst r) en in
  snd r = set_fusion_slot eo (-1) /\ snd c = en
  /\ delay_slots (fst c)
     = <[kn := set_use sn true (use_count sn + 1)]>
         (<[ko := set_use so (1 <? use_count so)
                    (Z.max 0 (use_count so - 1))]> (delay_slots dev))
  /\ ukf_fusion (fst c)
     = (if 1 <? use_count so then ukf_fusion dev
        else Ukf_release_delay_slot (slot_id so) :: ukf_fusion dev).
Proof.
  intros Hok Hmo Hmn Hne. cbn zeta.
  pose proof Hok as (_ & Hids & _).
  apply get_matching_delay_slot_Some in Hmn as Hmn'.
  destruct Hmn' as (Hrange & Hk & Hl & Hv & Ht).
  apply get_matching_delay_slot_Some in Hmo as Hmo'.
  destruct Hmo' as (_ & _ & Hlo & _ & _).
  destruct (Hids kn sn Hl) as [Hid _].
  destruct (Hids ko so Hlo) as [_ (Hu & _)].
  assert (He : set_fusion_slot en (slot_id sn) = en).
  { rewrite Hid, Hk, Z2Nat.id by lia. destruct en; reflexivity. }
  assert (Hrel : exists dev1,
            rift_tracked_device_exposure_release_locked dev eo
            = (dev1, set_fusion_slot eo (-1))
            /\ delay_slots dev1
               = <[ko := set_use so (1 <? use_count so)
                           (Z.max 0 (use_count so - 1))]> (delay_slots dev)
            /\ ukf_fusion dev1
               = (if 1 <? use_count so then ukf_fusion dev
                  else Ukf_release_delay_slot (slot_id so) :: ukf_fusion dev)).
  { destruct (1 <? use_count so) eqn:Hc.
    - apply Z.ltb_lt in Hc.
      destruct (release_earlier dev eo ko so Hmo Hc) as [Hrel _].
      cbn zeta in Hrel. eexists. split; [exact Hrel|]. cbn.
      replace (Z.max 0 (use_count so - 1)) with (use_count so - 1) by lia.
      auto.
    - apply Z.ltb_ge in Hc. eexists.
      split; [apply release_last; [exact Hmo | lia]|].
      unfold after_freeing. cbn.
      replace (Z.max 0 (use_count so - 1)) with 0 by lia. auto. }
  destruct Hrel as (dev1 & Hrel & Hslots & Hukf). rewrite Hrel. cbn [fst snd].
  assert (Hm1 : get_matching_delay_slot dev1 en = Some (kn, sn)).
  { apply get_matching_delay_slot_Some. rewrite Hslots.
    repeat apply conj; try assumption; try lia.
    rewrite list_lookup_insert_ne by congruence. exact Hl. }
  destruct (claim_matching dev1 en kn sn Hm1) as [Hc _]. cbn zeta in Hc.
  rewrite Hc, He. cbn. rewrite Hslots, Hukf. auto.
Qed.

(** The loop of [rift_tracker_frame_changed_exposure] treats every device
    in use with its own two entries. *)
Lemma changed_exposure_loop_spec n : forall i devs old new,
  (i + n <= length devs)%nat ->
  n_devices old <= Z.of_nat (length (devices old)) ->
  n_devices new <= Z.of_nat (length (devices new)) ->
  exists devs' old' new',
    changed_exposure_loop n i devs (Some old) (Some new)
    = Some (devs', Some old', Some new')
    /\ length devs' = length devs
    /\ old' = set_devices old (devices old')
    /\ length (devices old') = length (devices old)
    /\ new' = set_devices new (devices new')
    /\ length (devices new') = length (devices new)
    /\ (forall j, (j < i \/ i + n <= j)%nat ->
          devs' !! j = devs !! j
          /\ devices old' !! j = devices old !! j
          /\ devices new' !! j = devices new !! j)
    /\ (forall j dev, (i <= j < i + n)%nat -> devs !! j = Some dev ->
          exists dev',
            devs' !! j = Some dev'
            /\ (device_ok dev -> device_ok dev')
            /\ (forall eo en,
                  Z.of_nat j < n_devices old -> Z.of_nat j < n_devices new ->
                  devices old !! j = Some eo -> devices new !! j = Some en ->
                  let r := rift_tracked_device_exposure_release_locked dev eo in
                  let c := rift_tracked_device_exposure_claim (fst r) en in
                  dev' = fst c
                  /\ devices old' !! j = Some (snd r)
                  /\ devices new' !! j = Some (snd c))
            /\ (n_devices old <= Z.of_nat j -> n_devices new <= Z.of_nat j ->
                dev' = dev)).
Proof.
  induction n as [|n IH]; intros i devs old new Hd Ho Hn.
  - exists devs, old, new. cbn.
    split; [reflexivity|]. split; [reflexivity|].
    split; [destruct old; reflexivity|]. split; [reflexivity|].
    split; [destruct new; reflexivity|]. split; [reflexivity|].
    split; [auto | intros; lia].
  - cbn [changed_exposure_loop].
    destruct (lookup_lt_is_Some_2 devs i) as [dev Hdev]; [lia|].
    rewrite Hdev.
    (* the release through the old record *)
    assert (Hrel : exists dev1 old1,
              on_entry rift_tracked_device_exposure_release_locked i dev
                (Some old) = Some (dev1, Some old1)
              /\ old1 = set_devices old (devices old1)
              /\ length (devices old1) = length (devices old)
              /\ (forall j, j <> i -> devices old1 !! j = devices old !! j)
              /\ (device_ok dev -> device_ok dev1)
              /\ (forall eo, Z.of_nat i < n_devices old ->
                    devices old !! i = Some eo ->
                    dev1 = fst (rift_tracked_device_exposure_release_locked
                                  dev eo)
                    /\ devices old1 !! i
                       = Some (snd (rift_tracked_device_exposure_release_locked
                                      dev eo)))
              /\ (n_devices old <= Z.of_nat i ->
                  dev1 = dev /\ devices old1 !! i = devices old !! i)).
    { unfold on_entry. destruct (Z.of_nat i <? n_devices old) eqn:Hi.
      - apply Z.ltb_lt in Hi.
        destruct (lookup_lt_is_Some_2 (devices old) i) as [eo Heo]; [lia|].
        rewrite Heo.
        pose proof (device_ok_release dev eo) as Hkeep.
        destruct (rift_tracked_device_exposure_release_locked dev eo)
          as [dev1 eo1] eqn:Hr.
        eexists _, _. split; [reflexivity|].
        cbn [devices set_devices]. rewrite length_insert.
        split; [reflexivity|]. split; [reflexivity|].
        split; [intros j Hj; apply list_lookup_insert_ne; congruence|].
        split; [exact Hkeep|]. split; [|intros; lia].
        intros eo' _ Heo'. injection Heo' as <-. rewrite Hr.
        split; [reflexivity|]. apply list_lookup_insert_eq.
        apply lookup_lt_Some in Heo. exact Heo.
      - apply Z.ltb_ge in Hi. eexists _, _. split; [reflexivity|].
        split; [destruct old; reflexivity|]. split; [reflexivity|].
        split; [reflexivity|]. split; [auto|]. split; [intros; lia | auto]. }
    destruct Hrel as (dev1 & old1 & -> & Hso1 & Hlo1 & Hoo1 & Hok1 & Hino1
                      & Hnoo1).
    (* the claim through the new record *)
    assert (Hclaim : exists dev2 new1,
              on_entry rift_tracked_device_exposure_claim i dev1 (Some new)
              = Some (dev2, Some new1)
              /\ new1 = set_devices new (devices new1)
              /\ length (devices new1) = length (devices new)
              /\ (forall j, j <> i -> devices new1 !! j = devices new !! j)
              /\ (device_ok dev1 -> device_ok dev2)
              /\ (forall en, Z.of_nat i < n_devices new ->
                    devices new !! i = Some en ->
                    dev2 = fst (rift_tracked_device_exposure_claim dev1 en)
                    /\ devices new1 !! i
                       = Some (snd (rift_tracked_device_exposure_claim dev1 en)))
              /\ (n_devices new <= Z.of_nat i ->
                  dev2 = dev1 /\ devices new1 !! i = devices new !! i)).
    { unfold on_entry. destruct (Z.of_nat i <? n_devices new) eqn:Hi.
      - apply Z.ltb_lt in Hi.
        destruct (lookup_lt_is_Some_2 (devices new) i) as [en Hen]; [lia|].
        rewrite Hen.
        pose proof (device_ok_claim dev1 en) as Hkeep.
        destruct (rift_tracked_device_exposure_claim dev1 en) as [dev2 en1]
          eqn:Hc.
        eexists _, _. split; [reflexivity|].
        cbn [devices set_devices]. rewrite length_insert.
        split; [reflexivity|]. split; [reflexivity|].
        split; [intros j Hj; apply list_lookup_insert_ne; congruence|].
        split; [exact Hkeep|]. split; [|intros; lia].
        intros en' _ Hen'. injection Hen' as <-. rewrite Hc.
        split; [reflexivity|]. apply list_lookup_insert_eq.
        apply lookup_lt_Some in Hen. exact Hen.
      - apply Z.ltb_ge in Hi. eexists _, _. split; [reflexivity|].
        split; [destruct new; reflexivity|]. split; [reflexivity|].
        split; [reflexivity|]. split; [auto|]. split; [intros; lia | auto]. }
    destruct Hclaim as (dev2 & new1 & -> & Hsn1 & Hln1 & Hon1 & Hok2 & Hinn1
                        & Hnon1).
    assert (Hno1 : n_devices old1 = n_devices old) by (rewrite Hso1; reflexivity).
    assert (Hnn1 : n_devices new1 = n_devices new) by (rewrite Hsn1; reflexivity).
    destruct (IH (S i) (<[i := dev2]> devs) old1 new1)
      as (devs' & old' & new' & Hloop & Hl & Hso & Hlo & Hsn & Hln & Hout & Hin);
      [rewrite length_insert; lia | lia | lia|].
    exists devs', old', new'. rewrite length_insert in Hl.
    split; [exact Hloop|]. split; [exact Hl|].
    split; [rewrite Hso at 1; rewrite Hso1; reflexivity|].
    split; [lia|].
    split; [rewrite Hsn at 1; rewrite Hsn1; reflexivity|].
    split; [lia|]. split.
    + intros j Hj. destruct (Hout j) as (H1 & H2 & H3); [lia|].
      rewrite H1, H2, H3, Hoo1, Hon1 by lia.
      rewrite list_lookup_insert_ne by lia. auto.
    + intros j dev0 Hj Hdev0.
      destruct (decide (j = i)) as [-> | Hne].
      * destruct (Hout i) as (H1 & H2 & H3); [lia|].
        rewrite Hdev in Hdev0. injection Hdev0 as <-.
        exists dev2. rewrite H1, H2, H3.
        split; [apply list_lookup_insert_eq; lia|].
        split; [auto|]. split.
        -- intros eo en Hjo Hjn Heo Hen. cbn zeta.
           destruct (Hino1 eo Hjo Heo) as [-> ->].
           destruct (Hinn1 en Hjn Hen) as [-> ->]. auto.
        -- intros Hjo Hjn. destruct (Hnoo1 Hjo) as [-> _].
           destruct (Hnon1 Hjn) as [-> _]. reflexivity.
      * destruct (Hin j dev0) as (dev' & G1 & G2 & G3 & G4);
          [lia | rewrite list_lookup_insert_ne by lia; exact Hdev0|].
        exists dev'. split; [exact G1|]. split; [exact G2|]. split.
        -- intros eo en Hjo Hjn Heo Hen. apply G3; try lia.
           ++ rewrite Hoo1 by exact Hne. exact Heo.
           ++ rewrite Hon1 by exact Hne. exact Hen.
        -- intros Hjo Hjn. apply G4; lia.
Qed.

(** X20.  A frame that turns out to belong to another exposure.  On a
    well-formed tracker [rift_tracker_frame_changed_exposure] with the
    frame's old and new exposure records is defined and leaves the tracker
    well formed.  Every device in use with an entry in both records has the
    old entry released and then the new one claimed, each device with its
    own entries.  When the two entries match different slots, the claim
    moves: the new slot's use count goes up by one; the old slot's goes
    down by one and the slot is freed, the filter being told, when no other
    frame holds it; no other slot is written; the old entry ends with
    [fusion_slot = -1], so that it cannot be released again, and the new
    entry is unchanged.  A device with an entry in neither record is left
    alone. *)
Theorem tracker_frame_changed_exposure ctx old new :
  ctx_ok ctx ->
  n_devices old <= Z.of_nat (length (devices old)) ->
  n_devices new <= Z.of_nat (length (devices new)) ->
  exists ctx' old' new',
    rift_tracker_frame_changed_exposure ctx (Some old) (Some new)
    = Some (ctx', Some old', Some new')
    /\ ctx_ok ctx'
    /\ ctx_n_devices ctx' = ctx_n_devices ctx
    /\ forall j dev,
         Z.of_nat j < ctx_n_devices ctx -> ctx_devices ctx !! j = Some dev ->
         exists dev',
           ctx_devices ctx' !! j = Some dev'
           /\ (n_devices old <= Z.of_nat j -> n_devices new <= Z.of_nat j ->
               dev' = dev)
           /\ forall eo en,
                Z.of_nat j < n_devices old -> Z.of_nat j < n_devices new ->
                devices old !! j = Some eo -> devices new !! j = Some en ->
                let r := rift_tracked_device_exposure_release_locked dev eo in
                let c := rift_tracked_device_exposure_claim (fst r) en in
                dev' = fst c
                /\ devices old' !! j = Some (snd r)
                /\ devices new' !! j = Some (snd c)
                /\ forall ko so kn sn,
                     get_matching_delay_slot dev eo = Some (ko, so) ->
                     get_matching_delay_slot dev en = Some (kn, sn) ->
                     ko <> kn ->
                     snd r = set_fusion_slot eo (-1) /\ snd c = en
                     /\ delay_slots dev'
                        = <[kn := set_use sn true (use_count sn + 1)]>
                            (<[ko := set_use so (1 <? use_count so)
                                       (Z.max 0 (use_count so - 1))]>
                               (delay_slots dev))
                     /\ ukf_fusion dev'
                        = (if 1 <? use_count so then ukf_fusion dev
                           else Ukf_release_delay_slot (slot_id so)
                                  :: ukf_fusion dev).
Proof.
  intros Hok Ho Hn. pose proof Hok as (Hnd & Hmax & Hent & Hdevs).
  destruct (changed_exposure_loop_spec (Z.to_nat (ctx_n_devices ctx)) 0
              (ctx_devices ctx) old new)
    as (devs' & old' & new' & Hloop & Hl & _ & _ & _ & _ & _ & Hin);
    [lia | exact Ho | exact Hn|].
  exists (set_ctx_devices ctx devs'), old', new'.
  unfold rift_tracker_frame_changed_exposure. rewrite Hloop.
  split; [reflexivity|]. split.
  { unfold ctx_ok. cbn. rewrite Hl.
    split; [exact Hnd|]. split; [exact Hmax|]. split; [exact Hent|].
    intros j dev' Hj Hl'.
    destruct (lookup_lt_is_Some_2 (ctx_devices ctx) j) as [dev Hdev]; [lia|].
    destruct (Hin j dev) as (dev'' & G1 & G2 & _); [lia | exact Hdev|].
    rewrite G1 in Hl'. injection Hl' as <-.
    apply G2, (Hdevs j); assumption. }
  split; [reflexivity|].
  intros j dev Hj Hdev. cbn [ctx_devices set_ctx_devices].
  destruct (Hin j dev) as (dev' & G1 & _ & G3 & G4); [lia | exact Hdev|].
  exists dev'. split; [exact G1|]. split; [exact G4|].
  intros eo en Hjo Hjn Heo Hen. cbn zeta.
  destruct (G3 eo en Hjo Hjn Heo Hen) as (E1 & E2 & E3). cbn zeta in E1.
  split; [exact E1|]. split; [exact E2|]. split; [exact E3|].
  intros ko so kn sn Hmo Hmn Hne.
  destruct (moved_claim_device dev eo en ko so kn sn) as (M1 & M2 & M3 & M4);
    try assumption; [apply (Hdevs j); assumption|].
  cbn zeta in M1, M2, M3, M4. rewrite E1. auto.
Qed.

End ContextProperties.

(** * Worked runs of the tracked device, on the sample instance *)

#[local] Existing Instance Sample.Z_float.
#[local] Existing Instance Sample.ext.

(** Slot 0 of the sample devices, and when it matches an exposure. *)
Lemma sample_slot_0_lookup (dev : rift_tracked_device_priv) :
  length (delay_slots dev) = 3%nat ->
  delay_slots dev !! 0%nat = Some (Sample.slot_0 dev).
Proof.
  intros Hlen. unfold Sample.slot_0.
  destruct (delay_slots dev !! 0%nat) eqn:Hl; [reflexivity|].
  apply lookup_ge_None in Hl. lia.
Qed.

Lemma sample_slot_0_matches (dev : rift_tracked_device_priv)
    (dev_info : rift_tracked_device_exposure_info) :
  length (delay_slots dev) = 3%nat ->
  fusion_slot dev_info = 0 ->
  valid (Sample.slot_0 dev) = true ->
  slot_device_time_ns (Sample.slot_0 dev) = di_device_time_ns dev_info ->
  get_matching_delay_slot dev dev_info = Some (0%nat, Sample.slot_0 dev).
Proof.
  intros Hlen Hslot Hv Ht. apply get_matching_delay_slot_Some.
  rewrite Hslot. repeat apply conj; try lia; try assumption.
  apply sample_slot_0_lookup. exact Hlen.
Qed.

(** The sample session before its third and before its fifth report:
    slot 0 still tracks the exposure taken at 100 ms. *)
Lemma sample_before_third_report :
  get_matching_delay_slot Sample.before_third_report Sample.exposure_a
  = Some (0%nat, Sample.slot_0 Sample.before_third_report)
  /\ device_time_ns Sample.before_third_report = 280000000
  /\ last_observed_orient_ts Sample.before_third_report = 100000000
  /\ last_observed_pose_ts Sample.before_third_report = 190000000
  /\ n_pose_reports (Sample.slot_0 Sample.before_third_report) = 2
  /\ slot_id (Sample.slot_0 Sample.before_third_report) = 0.
Proof.
  split; [|repeat apply conj; reflexivity].
  apply sample_slot_0_matches; reflexivity.
Qed.

Lemma sample_before_fifth_report :
  get_matching_delay_slot Sample.before_fifth_report Sample.exposure_a
  = Some (0%nat, Sample.slot_0 Sample.before_fifth_report)
  /\ last_observed_pose_ts Sample.before_fifth_report = 370000000
  /\ n_pose_reports (Sample.slot_0 Sample.before_fifth_report) = 4.
Proof.
  split; [|repeat apply conj; reflexivity].
  apply sample_slot_0_matches; reflexivity.
Qed.

(** Scenario 4: the fourth exposure finds no free slot and reclaims
    slot 0, which now carries the device time of the new exposure. *)
Lemma on_new_exposure_allocates_witness :
  slots_ok Sample.all_busy_device
  /\ fusion_slot (snd (rift_tracked_device_on_new_exposure
                         Sample.all_busy_device (Sample.info_for (-1) 0 false)))
     = 0
  /\ delay_slots (fst (rift_tracked_device_on_new_exposure
                         Sample.all_busy_device (Sample.info_for (-1) 0 false)))
     = [Sample.busy_slot 0 4000 0 0 0; Sample.busy_slot 1 2000 1 0 0;
        Sample.busy_slot 2 3000 1 0 0]
  /\ di_device_time_ns (snd (rift_tracked_device_on_new_exposure
                               Sample.all_busy_device
                               (Sample.info_for (-1) 0 false)))
     = device_time_ns Sample.all_busy_device.
Proof.
  assert (Hok : slots_ok Sample.all_busy_device) by (split; cbn; lia).
  split; [exact Hok|]. split; [reflexivity|]. split; [reflexivity|].
  destruct (rift_tracked_device_on_new_exposure Sample.all_busy_device
              (Sample.info_for (-1) 0 false)) as [dev' info'] eqn:Hrun.
  exact (proj1 (on_new_exposure_allocates _ _ _ _ Hok Hrun)).
Defined.

(** The slot claimed twice is released five times: the second release
    frees it and tells the filter, the other three change nothing. *)
Lemma release_beyond_claims_witness :
  release_times 5 Sample.claimed_twice_device (Sample.info_for 0 1000 false)
  = release_times 2 Sample.claimed_twice_device (Sample.info_for 0 1000 false)
  /\ release_times 2 Sample.claimed_twice_device (Sample.info_for 0 1000 false)
     = after_freeing Sample.claimed_twice_device 0 (Sample.busy_slot 0 1000 2 0 0)
  /\ ukf_fusion (release_times 5 Sample.claimed_twice_device
                   (Sample.info_for 0 1000 false))
     = [Ukf_release_delay_slot 0].
Proof.
  destruct (proj2 (release_beyond_claims Sample.claimed_twice_device
                     (Sample.info_for 0 1000 false)) 0%nat
              (Sample.busy_slot 0 1000 2 0 0))
    as (Hfreed & _ & _ & Hbeyond & _); [reflexivity | cbn; lia |].
  cbn zeta in Hfreed, Hbeyond.
  change (Z.to_nat (Z.max 1 (use_count (Sample.busy_slot 0 1000 2 0 0))))
    with 2%nat in Hfreed, Hbeyond.
  split; [apply Hbeyond; lia|]. split; [exact Hfreed|].
  rewrite (Hbeyond 5%nat) by lia. rewrite Hfreed. reflexivity.
Defined.

(** C3 at a failing input.  In the sample session the device stands
    at 280 ms; its last orientation match dates from 100 ms, 180 ms ago, and
    its last accepted position from 190 ms.  The third report, with the
    position flag and without the orientation flag, arrives for the matching
    slot 0: the orientation gate stays shut and the filter gets a
    position-only update. *)
Theorem orientation_not_forced_while_position_tracks :
  device_time_ns Sample.before_third_report = 280000000
  /\ last_observed_orient_ts Sample.before_third_report = 100000000
  /\ last_observed_pose_ts Sample.before_third_report = 190000000
  /\ POSE_LOST_ORIENT_THRESHOLD * 1000000
     < u64_sub (device_time_ns Sample.before_third_report)
         (last_observed_orient_ts Sample.before_third_report)
  /\ POSE_HAS_FLAGS Sample.position_only_score RIFT_POSE_MATCH_ORIENT = false
  /\ get_matching_delay_slot Sample.before_third_report Sample.exposure_a
     = Some (0%nat, Sample.slot_0 Sample.before_third_report)
  /\ orientation_gate Sample.before_third_report Sample.position_only_score
     = false
  /\ ukf_fusion
       (Sample.report Sample.before_third_report Sample.exposure_a
          Sample.position_only_score)
     = Ukf_position_update 280000000 (pos Sample.origin) 0
         :: ukf_fusion Sample.before_third_report.
Proof.
  destruct sample_before_third_report as (Hm & Ht & Ho & Hp & _ & Hid).
  assert (Hgate : orientation_gate Sample.before_third_report
                    Sample.position_only_score = false) by reflexivity.
  split; [exact Ht|]. split; [exact Ho|]. split; [exact Hp|].
  split; [rewrite Ht, Ho; reflexivity|]. split; [reflexivity|].
  split; [exact Hm|]. split; [exact Hgate|].
  destruct (model_pose_update_matching Sample.before_third_report 0 0
              (mk_exposure_info 0 0 0 0 1 [Sample.exposure_a])
              Sample.position_only_score Sample.origin Sample.exposure_a
              0%nat (Sample.slot_0 Sample.before_third_report))
    as (_ & _ & Hukf & _); [reflexivity | reflexivity | exact Hm |].
  unfold Sample.report. rewrite Hukf, Hgate, Ht, Hid.
  replace (position_gate Sample.before_third_report Sample.exposure_a
             Sample.position_only_score) with true by reflexivity.
  replace (pos (oposef_apply (fusion_from_model Sample.before_third_report)
                  Sample.origin))
    with (pos Sample.origin) by reflexivity.
  reflexivity.
Qed.

(** Scenario 5, in the sample session at 280 ms: a report for the
    exposure taken at 100 ms lacks the position flag, and an observation
    accepted at 190 ms is newer than the exposure.  The report is rejected,
    the filter is not called, and slot 0, which holds two reports and has
    room, records it unused as its third. *)
Lemma stale_position_rejected_witness :
  ukf_fusion
    (fst (rift_tracked_device_model_pose_update Sample.before_third_report
            0 0 (mk_exposure_info 0 0 0 0 1 [Sample.exposure_a])
            Sample.weak_score Sample.origin))
  = ukf_fusion Sample.before_third_report
  /\ last_observed_pose_ts
       (fst (rift_tracked_device_model_pose_update Sample.before_third_report
               0 0 (mk_exposure_info 0 0 0 0 1 [Sample.exposure_a])
               Sample.weak_score Sample.origin))
     = last_observed_pose_ts Sample.before_third_report
  /\ pose_reports
       (record_report (Sample.slot_0 Sample.before_third_report) false
          (oposef_apply (fusion_from_model Sample.before_third_report)
             Sample.origin)
          Sample.weak_score)
       !! Z.to_nat (n_pose_reports (Sample.slot_0 Sample.before_third_report))
     = Some (mk_report false
               (oposef_apply (fusion_from_model Sample.before_third_report)
                  Sample.origin)
               Sample.weak_score).
Proof.
  destruct sample_before_third_report as (Hm & _ & _ & Hp & Hn & _).
  destruct (stale_position_rejected Sample.before_third_report 0 0
              (mk_exposure_info 0 0 0 0 1 [Sample.exposure_a])
              Sample.weak_score Sample.origin Sample.exposure_a 0%nat
              (Sample.slot_0 Sample.before_third_report))
    as (_ & Hstale & _); [reflexivity | reflexivity | exact Hm |].
  destruct Hstale as (Hukf & Hts & _ & Hrec & _).
  { rewrite Hp. repeat apply conj; reflexivity. }
  split; [exact Hukf|]. split; [exact Hts|].
  apply Hrec.
  - rewrite Hn. cbn. lia.
  - rewrite Hn. cbn.
    replace (length (pose_reports (Sample.slot_0 Sample.before_third_report)))
      with 4%nat by reflexivity.
    lia.
Defined.

(** C4 as stated fails on a full slot.  In the sample session at 460 ms
    slot 0 holds [RIFT_MAX_SENSORS] reports; a fifth report for the same
    exposure, without the position flag, is rejected, and the slot table is
    left as it was: the report is not recorded. *)
Lemma stale_report_dropped_when_slot_full :
  get_matching_delay_slot Sample.before_fifth_report Sample.exposure_a
  = Some (0%nat, Sample.slot_0 Sample.before_fifth_report)
  /\ n_pose_reports (Sample.slot_0 Sample.before_fifth_report)
     = RIFT_MAX_SENSORS
  /\ position_gate Sample.before_fifth_report Sample.exposure_a
       Sample.weak_score = false
  /\ delay_slots
       (Sample.report Sample.before_fifth_report Sample.exposure_a
          Sample.weak_score)
     = delay_slots Sample.before_fifth_report.
Proof.
  destruct sample_before_fifth_report as (Hm & Hp & Hn).
  split; [exact Hm|]. split; [exact Hn|]. split; [reflexivity|].
  destruct (model_pose_update_matching Sample.before_fifth_report 0 0
              (mk_exposure_info 0 0 0 0 1 [Sample.exposure_a])
              Sample.weak_score Sample.origin Sample.exposure_a
              0%nat (Sample.slot_0 Sample.before_fifth_report))
    as (_ & Hslots & _); [reflexivity | reflexivity | exact Hm |].
  unfold Sample.report. rewrite Hslots.
  rewrite record_report_full by (rewrite Hn; reflexivity).
  apply list_insert_id.
  apply get_matching_delay_slot_Some in Hm as (_ & _ & Hl & _). exact Hl.
Qed.

(** Exactly 500 ms after the last positional observation the reported
    position stays at (7, 8, 9) although the Kalman estimate is elsewhere,
    and the velocity and acceleration returned are zero.  With the
    observation 1 ns younger the reported position moves half way towards
    the estimate, and velocity and acceleration are the estimate's. *)
Lemma view_pose_freezes_when_lost_witness :
  u64_sub (device_time_ns Filtered.lost_device)
    (last_observed_pose_ts Filtered.lost_device)
  = POSE_LOST_THRESHOLD * 1000000
  /\ pos (reported_pose (fst (rift_tracked_device_get_view_pose
                               Filtered.lost_device)))
     = mk_vec3f 7 8 9
  /\ view_vel (snd (rift_tracked_device_get_view_pose Filtered.lost_device))
     = vec3f_zero
  /\ view_accel (snd (rift_tracked_device_get_view_pose Filtered.lost_device))
     = vec3f_zero
  /\ pos (reported_pose (fst (rift_tracked_device_get_view_pose
                               Filtered.tracked_device)))
     = mk_vec3f 54 104 154
  /\ view_vel (snd (rift_tracked_device_get_view_pose Filtered.tracked_device))
     = mk_vec3f 1 2 3.
Proof.
  split; [reflexivity|].
  destruct (view_pose_freezes_when_lost Sample.ext (fun _ => 1) (fun _ q => q)
              Filtered.lost_device)
    as (_ & _ & _ & Hlost & _);
    [cbn; lia | intros prev [= <-]; reflexivity|].
  destruct Hlost as (Hpos & Hvel & Hacc); [vm_compute; discriminate|].
  destruct (view_pose_freezes_when_lost Sample.ext (fun _ => 1) (fun _ q => q)
              Filtered.tracked_device)
    as (_ & _ & _ & _ & Htracked);
    [cbn; lia | intros prev [= <-]; reflexivity|].
  destruct Htracked as (Hpos' & Hvel' & _); [vm_compute; reflexivity|].
  split; [exact Hpos|]. split; [exact Hvel|]. split; [exact Hacc|].
  split; [exact Hpos' | exact Hvel'].
Defined.

(** * Worked runs of the tracker context, on the sample instance *)

#[local] Existing Instance Scenario.dev_ext.

(** The sample slots and devices are well formed. *)
Lemma sample_fresh_slot_ok id : slot_ok (Sample.fresh_slot id).
Proof. unfold slot_ok. cbn. lia. Qed.

Lemma sample_busy_slot_ok id t uses reports used :
  0 <= uses -> 0 <= used <= reports -> reports <= 4 ->
  slot_ok (Sample.busy_slot id t uses reports used).
Proof. intros. unfold slot_ok. cbn. lia. Qed.

Lemma sample_new_device_ok : device_ok Sample.new_device.
Proof.
  split; [split; cbn; lia|]. split.
  - intros [|[|[|i]]] slot; cbn; intros [= <-];
      (split; [reflexivity | apply sample_fresh_slot_ok]).
  - unfold RIFT_MAX_PENDING_IMU_OBSERVATIONS. cbn.
    split; [lia|]. split; [lia | intros H; contradiction].
Qed.

Lemma sample_busy_device_ok : device_ok Scenario.busy_device.
Proof.
  split; [split; cbn; lia|]. split.
  - intros [|[|[|i]]] slot; cbn; intros [= <-];
      (split; [reflexivity | unfold slot_ok; cbn; lia]).
  - unfold RIFT_MAX_PENDING_IMU_OBSERVATIONS. cbn.
    split; [lia|]. split; [lia|]. intros _. split; [cbn; lia | reflexivity].
Qed.

Lemma sample_zeroed_entry_ok : entry_ok Scenario.zeroed_entry.
Proof.
  split; [split; cbn; lia|]. split.
  - intros [|[|[|i]]] slot; cbn; intros [= <-]; apply sample_fresh_slot_ok.
  - unfold RIFT_MAX_PENDING_IMU_OBSERVATIONS. cbn. lia.
Qed.

Lemma sample_tracker_ok : ctx_ok Scenario.tracker.
Proof.
  split; [cbn; lia|]. split; [cbn; lia|]. split; [reflexivity|].
  intros [|j] dev Hj; cbn in Hj; [|lia].
  cbn. intros [= <-]. exact sample_busy_device_ok.
Qed.

(** Two IMU samples 4 s apart, from a clock at 0: the clock reaches 8 s,
    which no longer fits 32 bits. *)
Lemma device_clock_exact_witness :
  device_time_ns
    (imu_updates Sample.new_device
       [Scenario.imu_at 4000000; Scenario.imu_at 8000000])
  = 8000000000
  /\ 2 ^ 32 < 8000000000.
Proof.
  split; [|lia].
  destruct (device_clock_exact Sample.new_device
              [Scenario.imu_at 4000000; Scenario.imu_at 8000000])
    as [Hclock _].
  - reflexivity.
  - cbn. unfold MAX_EXACT_STEP_US.
    repeat apply conj; try lia; try exact I; vm_compute; discriminate.
  - vm_compute. reflexivity.
  - exact Hclock.
Defined.

(** The slot claimed twice is claimed once more and released three times:
    the third release frees it and tells the filter. *)
Lemma claims_then_releases_witness :
  get_matching_delay_slot Sample.claimed_twice_device
    (Sample.info_for 0 1000 false)
  = Some (0%nat, Sample.busy_slot 0 1000 2 0 0)
  /\ ukf_fusion
       (release_times 3
          (claim_times 1 Sample.claimed_twice_device
             (Sample.info_for 0 1000 false))
          (Sample.info_for 0 1000 false))
     = [Ukf_release_delay_slot 0].
Proof.
  assert (Hm : get_matching_delay_slot Sample.claimed_twice_device
                 (Sample.info_for 0 1000 false)
               = Some (0%nat, Sample.busy_slot 0 1000 2 0 0)) by reflexivity.
  split; [exact Hm|].
  destruct (claims_then_releases 1 3 _ _ _ _ Hm) as [_ Hfreed]; [cbn; lia|].
  destruct Hfreed as (_ & Hukf & _); [cbn; lia|].
  exact Hukf.
Defined.

(** All three slots of the busy device are claimed; the next exposure
    reclaims slot 0.  The entry of the exposure that held slot 0 before,
    stamped 1000 ns, matches nothing from then on. *)
Lemma exposure_slot_taken_over_witness :
  device_ok Scenario.busy_device
  /\ fusion_slot
       (snd (rift_tracked_device_on_new_exposure Scenario.busy_device
               (Sample.info_for (-1) 0 false))) = 0
  /\ get_matching_delay_slot
       (fst (rift_tracked_device_on_new_exposure Scenario.busy_device
               (Sample.info_for (-1) 0 false)))
       (Sample.info_for 0 1000 true) = None.
Proof.
  split; [exact sample_busy_device_ok|]. split; [reflexivity|].
  pose proof (exposure_slot_taken_over Scenario.busy_device
                (Sample.info_for (-1) 0 false) (Sample.info_for 0 1000 true)
                sample_busy_device_ok) as Hover.
  cbn zeta in Hover.
  destruct Hover as [_ Hold]; [vm_compute; discriminate|].
  destruct Hold as [Hnone _]; [reflexivity | vm_compute; discriminate|].
  exact Hnone.
Defined.

(** A new device gets an IMU sample, an exposure, a claim, a view-pose
    query and two releases: it is still well formed. *)
Lemma device_stays_well_formed_witness :
  device_ok Sample.new_device
  /\ device_ok
       (device_run Sample.new_device
          [Op_imu_update (Scenario.imu_at 1000);
           Op_new_exposure (Sample.info_for (-1) 0 false);
           Op_claim (Sample.info_for 0 1000000 true);
           Op_view_pose;
           Op_release (Sample.info_for 0 1000000 true);
           Op_release (Sample.info_for 0 1000000 true)]).
Proof.
  split; [exact sample_new_device_ok|].
  apply device_stays_well_formed. exact sample_new_device_ok.
Defined.

(** A device added in zeroed memory: its slots carry their index, its
    filter is fresh, and its first IMU sample, stamped 5 us, sets the
    clock to 5000 ns. *)
Lemma added_device_ready_witness :
  entry_ok Scenario.zeroed_entry
  /\ device_ok
       (add_device_init Scenario.zeroed_entry Sample.origin Sample.no_offset
          false)
  /\ ukf_fusion
       (add_device_init Scenario.zeroed_entry Sample.origin Sample.no_offset
          false) = []
  /\ device_time_ns
       (imu_update
          (add_device_init Scenario.zeroed_entry Sample.origin
             Sample.no_offset false)
          (Scenario.imu_at 5))
     = 5000.
Proof.
  split; [exact sample_zeroed_entry_ok|].
  destruct (added_device_ready Scenario.zeroed_entry Sample.origin
              Sample.no_offset false sample_zeroed_entry_ok)
    as (Hok & _ & _ & _ & _ & Hukf & _ & _ & _ & _ & Hclock).
  split; [exact Hok|]. split; [exact Hukf|].
  rewrite Hclock. reflexivity.
Defined.

(** The sample tracker has taken exposure 3.  Exposure 4 is announced:
    the record is stamped with it, both sensors are told, and the tracker
    is still well formed. *)
Lemma tracker_new_exposure_witness :
  ctx_ok Scenario.tracker
  /\ exists ctx' evs,
       rift_tracker_on_new_exposure Scenario.tracker Scenario.no_sinks
         50 0 4 40 0 = Some (ctx', evs)
       /\ ctx_ok ctx'
       /\ count (ctx_exposure_info ctx') = 4
       /\ local_ts (ctx_exposure_info ctx') = 50
       /\ length evs = 2%nat.
Proof.
  split; [exact sample_tracker_ok|].
  destruct (tracker_new_exposure Scenario.tracker Scenario.no_sinks 50 0 4 40 0
              sample_tracker_ok)
    as (ctx' & evs & Hrun & Hok & _ & Hcount & _ & _ & _ & Hnew).
  destruct Hnew as (_ & Hts & _ & _ & Hevs & _); [cbn; lia|].
  exists ctx', evs. split; [exact Hrun|]. split; [exact Hok|].
  split; [exact Hcount|]. split; [exact Hts|].
  rewrite Hevs, length_map, length_seq. reflexivity.
Defined.

(** A second device is added to the sample tracker: it takes entry 1,
    both sensors are told, and two devices are in use. *)
Lemma tracker_device_added_witness :
  ctx_ok Scenario.tracker /\ entry_ok Scenario.zeroed_entry
  /\ exists ctx',
       rift_tracker_add_device Scenario.tracker Sample.origin
         Sample.no_offset false
       = Some (ctx', [Sensor_add_device 0 1; Sensor_add_device 1 1])
       /\ ctx_ok ctx'
       /\ ctx_n_devices ctx' = 2.
Proof.
  split; [exact sample_tracker_ok|]. split; [exact sample_zeroed_entry_ok|].
  destruct (tracker_device_added Scenario.tracker Sample.origin
              Sample.no_offset false Scenario.zeroed_entry sample_tracker_ok
              eq_refl sample_zeroed_entry_ok)
    as (ctx' & Hrun & Hok & Hn & _).
  exists ctx'. split; [exact Hrun|]. split; [exact Hok | exact Hn].
Defined.

(** A frame of the exposure that holds slot 0 of the busy device starts
    and is released, twice: slot 0, which another frame had claimed
    before, keeps its count of 1 and stays valid, and the filter is not
    told. *)
Lemma tracker_frame_cycle_witness :
  ctx_ok Scenario.tracker
  /\ get_matching_delay_slot Scenario.busy_device (Sample.info_for 0 1000 true)
     = Some (0%nat, Sample.busy_slot 0 1000 1 1 1)
  /\ exists ctx1 inf1 ctx2 inf2 ctx3 dev2,
       rift_tracker_frame_start Scenario.tracker Scenario.no_sinks
         (Some Scenario.frame_record) = Some (ctx1, Some inf1)
       /\ rift_tracker_frame_release ctx1 Scenario.no_sinks (Some inf1)
          = Some (ctx2, Some inf2)
       /\ rift_tracker_frame_release ctx2 Scenario.no_sinks (Some inf2)
          = Some (ctx3, Some inf2)
       /\ ctx_devices ctx2 !! 0%nat = Some dev2
       /\ delay_slots dev2 = delay_slots Scenario.busy_device
       /\ ukf_fusion dev2 = ukf_fusion Scenario.busy_device.
Proof.
  split; [exact sample_tracker_ok|]. split; [reflexivity|].
  destruct (tracker_frame_cycle Scenario.tracker Scenario.no_sinks
              Scenario.no_sinks Scenario.no_sinks Scenario.frame_record
              sample_tracker_ok)
    as (ctx1 & inf1 & ctx2 & inf2 & ctx3 & ctx0 & Hstart & Hrel & Hagain & _
        & _ & _ & _ & Hdev); [cbn; lia|].
  destruct (Hdev 0%nat Scenario.busy_device) as
    (dev2 & dev3 & dev0 & Hl2 & _ & _ & _ & _ & _ & _ & _ & Hentry);
    [cbn; lia | reflexivity|].
  destruct (Hentry (Sample.info_for 0 1000 true)) as [_ Hslot];
    [cbn; lia | reflexivity|].
  change (get_matching_delay_slot Scenario.busy_device
            (Sample.info_for 0 1000 true))
    with (Some (0%nat, Sample.busy_slot 0 1000 1 1 1)) in Hslot.
  destruct Hslot as [Hslots Hukf].
  exists ctx1, inf1, ctx2, inf2, ctx3, dev2.
  split; [exact Hstart|]. split; [exact Hrel|]. split; [exact Hagain|].
  split; [exact Hl2|]. split; [exact Hslots | exact Hukf].
Defined.

(** A frame of the exposure holding slot 0 of the busy device turns out
    to belong to the next exposure, which holds slot 1: slot 0, which no
    other frame holds, is freed and the filter told; slot 1 is now claimed
    twice. *)
Lemma tracker_frame_changed_exposure_witness :
  ctx_ok Scenario.tracker
  /\ exists ctx' old' new' dev',
       rift_tracker_frame_changed_exposure Scenario.tracker
         (Some Scenario.frame_record) (Some Scenario.next_frame_record)
       = Some (ctx', Some old', Some new')
       /\ ctx_devices ctx' !! 0%nat = Some dev'
       /\ delay_slots dev'
          = [set_use (Sample.busy_slot 0 1000 1 1 1) false 0;
             set_use (Sample.busy_slot 1 2000 1 0 0) true 2;
             Sample.busy_slot 2 3000 1 0 0]
       /\ ukf_fusion dev' = [Ukf_release_delay_slot 0].
Proof.
  split; [exact sample_tracker_ok|].
  destruct (tracker_frame_changed_exposure Scenario.tracker
              Scenario.frame_record Scenario.next_frame_record
              sample_tracker_ok)
    as (ctx' & old' & new' & Hrun & _ & _ & Hdev); [cbn; lia | cbn; lia|].
  destruct (Hdev 0%nat Scenario.busy_device) as (dev' & Hl & _ & Hentries);
    [cbn; lia | reflexivity|].
  destruct (Hentries (Sample.info_for 0 1000 true) (Sample.info_for 1 2000 true))
    as (_ & _ & _ & Hmoved); [cbn; lia | cbn; lia | reflexivity | reflexivity|].
  destruct (Hmoved 0%nat (Sample.busy_slot 0 1000 1 1 1) 1%nat
              (Sample.busy_slot 1 2000 1 0 0))
    as (_ & _ & Hslots & Hukf); [reflexivity | reflexivity | lia|].
  exists ctx', old', new', dev'.
  split; [exact Hrun|]. split; [exact Hl|].
  split; [exact Hslots | exact Hukf].
Defined.
